(** * UDS deduplication index: zones, chapter closure, triage, rebuild.

    A shallow embedding of the index engine of the UDS deduplication index
    (index.c, indexZone.c and the request callback of indexSession.c), with
    the properties its specification states about them.

    The modules that index.c and indexZone.c call but whose sources are not
    part of the tree under study (open chapter, volume index, volume and
    page cache, sparse cache, chapter writer, checkpointing, saved index
    state, geometry helpers) are an interface, the class [Components];
    every embedded function is written against that interface, and the
    theorems hold for each implementation of it. *)

From Stdlib Require Import ZArith List Bool Lia.
From stdpp Require Import base list.

Local Open Scope Z_scope.

(** ** Machine integers *)

(** [uint64_t] arithmetic: virtual chapter numbers wrap at 2^64. *)
Definition UINT64_MAX : Z := 2 ^ 64 - 1.
Definition wrap64 (x : Z) : Z := x mod 2 ^ 64.
Definition add64 (a b : Z) : Z := wrap64 (a + b).
Definition sub64 (a b : Z) : Z := wrap64 (a - b).
Definition is_u64 (x : Z) : Prop := 0 <= x <= UINT64_MAX.

(** ** Result codes, request and message types *)

(** The [int] results of the engine.  The numeric values are registered in
    errors.c by offset from two bases; only their being distinct matters, so
    the codes named by the engine are constructors and every other value is
    [UDS_OTHER_ERROR]. *)
Inductive status : Type :=
  | UDS_SUCCESS
  | UDS_QUEUED
  | UDS_OVERFLOW
  | UDS_DUPLICATE_NAME
  | UDS_INVALID_ARGUMENT
  | UDS_ASSERTION_FAILED
  | UDS_CORRUPT_COMPONENT
  | UDS_CORRUPT_DATA
  | UDS_INDEX_NOT_SAVED_CLEANLY
  | EBUSY_NEG            (* -EBUSY *)
  | ENOMEM_NEG           (* -ENOMEM *)
  | UDS_OTHER_ERROR (code : Z).

Definition status_eqb (a b : status) : bool :=
  match a, b with
  | UDS_SUCCESS, UDS_SUCCESS | UDS_QUEUED, UDS_QUEUED
  | UDS_OVERFLOW, UDS_OVERFLOW | UDS_DUPLICATE_NAME, UDS_DUPLICATE_NAME
  | UDS_INVALID_ARGUMENT, UDS_INVALID_ARGUMENT
  | UDS_ASSERTION_FAILED, UDS_ASSERTION_FAILED
  | UDS_CORRUPT_COMPONENT, UDS_CORRUPT_COMPONENT
  | UDS_CORRUPT_DATA, UDS_CORRUPT_DATA
  | UDS_INDEX_NOT_SAVED_CLEANLY, UDS_INDEX_NOT_SAVED_CLEANLY
  | EBUSY_NEG, EBUSY_NEG | ENOMEM_NEG, ENOMEM_NEG => true
  | UDS_OTHER_ERROR x, UDS_OTHER_ERROR y => Z.eqb x y
  | _, _ => false
  end.

Definition is_success (r : status) : bool := status_eqb r UDS_SUCCESS.

(** [ASSERT(cond, ...)] of permassert.h: [UDS_SUCCESS] when the condition
    holds, [UDS_ASSERTION_FAILED] (after logging) when it does not. *)
Definition ASSERT (cond : bool) : status :=
  if cond then UDS_SUCCESS else UDS_ASSERTION_FAILED.

Definition uds_chunk_name : Type := Z.   (* 16 bytes, read as a number *)
Definition uds_chunk_data : Type := Z.   (* the metadata bytes *)

Inductive uds_request_type : Type :=
  | UDS_POST | UDS_UPDATE | UDS_DELETE | UDS_QUERY
  | UDS_INVALID_TYPE (n : Z).

Inductive uds_index_region : Type :=
  | UDS_LOCATION_UNKNOWN
  | UDS_LOCATION_UNAVAILABLE
  | UDS_LOCATION_IN_OPEN_CHAPTER
  | UDS_LOCATION_IN_DENSE
  | UDS_LOCATION_IN_SPARSE.

Definition uds_index_region_eqb (a b : uds_index_region) : bool :=
  match a, b with
  | UDS_LOCATION_UNKNOWN, UDS_LOCATION_UNKNOWN
  | UDS_LOCATION_UNAVAILABLE, UDS_LOCATION_UNAVAILABLE
  | UDS_LOCATION_IN_OPEN_CHAPTER, UDS_LOCATION_IN_OPEN_CHAPTER
  | UDS_LOCATION_IN_DENSE, UDS_LOCATION_IN_DENSE
  | UDS_LOCATION_IN_SPARSE, UDS_LOCATION_IN_SPARSE => true
  | _, _ => false
  end.

Inductive uds_zone_message_type : Type :=
  | UDS_MESSAGE_NONE
  | UDS_MESSAGE_SPARSE_CACHE_BARRIER
  | UDS_MESSAGE_ANNOUNCE_CHAPTER_CLOSED
  | UDS_MESSAGE_INVALID (n : Z).

Record uds_zone_message : Type := {
  message_type : uds_zone_message_type;
  message_virtual_chapter : Z
}.

Definition no_message : uds_zone_message :=
  {| message_type := UDS_MESSAGE_NONE; message_virtual_chapter := 0 |}.

(** [struct uds_request], the fields the engine reads and writes.
    [router] is the request's router pointer (indexZone.c tests it against
    NULL), [has_callback] is [request->callback != NULL]. *)
Record uds_request : Type := {
  chunk_name : uds_chunk_name;
  new_metadata : uds_chunk_data;
  old_metadata : uds_chunk_data;
  request_type : uds_request_type;
  update : bool;
  requeued : bool;
  zone_number : nat;
  location : uds_index_region;
  found : bool;
  request_status : status;
  router : bool;
  has_callback : bool;
  zone_message : uds_zone_message
}.

Definition set_location (l : uds_index_region) (r : uds_request) : uds_request :=
  {| chunk_name := chunk_name r; new_metadata := new_metadata r;
     old_metadata := old_metadata r; request_type := request_type r;
     update := update r; requeued := requeued r;
     zone_number := zone_number r; location := l; found := found r;
     request_status := request_status r; router := router r;
     has_callback := has_callback r; zone_message := zone_message r |}.

Definition set_old_metadata (m : uds_chunk_data) (r : uds_request) : uds_request :=
  {| chunk_name := chunk_name r; new_metadata := new_metadata r;
     old_metadata := m; request_type := request_type r;
     update := update r; requeued := requeued r;
     zone_number := zone_number r; location := location r; found := found r;
     request_status := request_status r; router := router r;
     has_callback := has_callback r; zone_message := zone_message r |}.

Definition set_found (b : bool) (r : uds_request) : uds_request :=
  {| chunk_name := chunk_name r; new_metadata := new_metadata r;
     old_metadata := old_metadata r; request_type := request_type r;
     update := update r; requeued := requeued r;
     zone_number := zone_number r; location := location r; found := b;
     request_status := request_status r; router := router r;
     has_callback := has_callback r; zone_message := zone_message r |}.

Definition set_zone_number (z : nat) (r : uds_request) : uds_request :=
  {| chunk_name := chunk_name r; new_metadata := new_metadata r;
     old_metadata := old_metadata r; request_type := request_type r;
     update := update r; requeued := requeued r;
     zone_number := z; location := location r; found := found r;
     request_status := request_status r; router := router r;
     has_callback := has_callback r; zone_message := zone_message r |}.

(** A control message travels the zone queues as a request of its own
    (request.c allocates one per message). *)
Definition message_request (m : uds_zone_message) (zone : nat) : uds_request :=
  {| chunk_name := 0; new_metadata := 0; old_metadata := 0;
     request_type := UDS_INVALID_TYPE 0; update := false; requeued := false;
     zone_number := zone; location := UDS_LOCATION_UNKNOWN; found := false;
     request_status := UDS_SUCCESS; router := true; has_callback := false;
     zone_message := m |}.

(** ** Geometry and the records of the volume index *)

(** [struct geometry]: the fields index.c and indexZone.c read. *)
Record geometry : Type := {
  chapters_per_volume : nat;
  index_pages_per_chapter : nat;
  record_pages_per_chapter : nat;
  records_per_page : nat;
  pages_per_chapter : nat;
  sparse_chapters_per_volume : nat
}.

Record volume_index_record : Type := {
  is_found : bool;
  is_collision : bool;
  record_virtual_chapter : Z;
  record_name : uds_chunk_name
}.

Record volume_index_triage : Type := {
  in_sampled_chapter : bool;
  triage_virtual_chapter : Z
}.

Inductive invalidation_reason : Type := INVALIDATION_EXPIRE.
Inductive index_lookup_mode : Type := LOOKUP_NORMAL | LOOKUP_FOR_REBUILD.
Inductive load_type : Type :=
  | LOAD_UNDEFINED | LOAD_CREATE | LOAD_LOAD | LOAD_REBUILD | LOAD_EMPTY.

(** [index_load_context.status]. *)
Inductive index_suspend_status : Type :=
  | INDEX_OPENING | INDEX_READY | INDEX_SUSPENDING | INDEX_SUSPENDED
  | INDEX_FREEING.

(** What a save slot holds and a load restores: the index state data
    (newest, oldest, last save), the volume index, the open chapters of the
    zones. *)
Record index_image (OC VI : Type) : Type := {
  image_newest_virtual_chapter : Z;
  image_oldest_virtual_chapter : Z;
  image_last_save : Z;
  image_volume_index : VI;
  image_open_chapters : list OC
}.
Arguments image_newest_virtual_chapter {OC VI} _.
Arguments image_oldest_virtual_chapter {OC VI} _.
Arguments image_last_save {OC VI} _.
Arguments image_volume_index {OC VI} _.
Arguments image_open_chapters {OC VI} _.

(** A record page as replay reads it: the chunk name stored in each slot. *)
Definition record_page : Type := nat -> uds_chunk_name.

(** ** The modules the engine calls

    One field per function that index.c and indexZone.c call in a module
    whose source is outside the tree.  A function that writes through a
    pointer returns the new value; a function on a shared object returns the
    object. The types say which part of the index a call can change. *)
Class Components : Type := {
  (* openChapterZone.h *)
  OpenChapterZone : Type;
  open_chapter_size : OpenChapterZone -> nat;
  put_open_chapter :
    OpenChapterZone -> uds_chunk_name -> uds_chunk_data ->
    status * nat * OpenChapterZone;
  search_open_chapter :
    OpenChapterZone -> uds_chunk_name -> option uds_chunk_data;
  remove_from_open_chapter :
    OpenChapterZone -> uds_chunk_name -> bool * OpenChapterZone;
  reset_open_chapter : OpenChapterZone -> OpenChapterZone;
  (* volumeIndexOps.h *)
  VolumeIndex : Type;
  get_volume_index_record :
    VolumeIndex -> uds_chunk_name -> status * volume_index_record;
  put_volume_index_record :
    VolumeIndex -> volume_index_record -> Z -> status * VolumeIndex;
  set_volume_index_record_chapter :
    VolumeIndex -> volume_index_record -> Z -> status * VolumeIndex;
  remove_volume_index_record :
    VolumeIndex -> volume_index_record -> status * VolumeIndex;
  is_volume_index_sample : VolumeIndex -> uds_chunk_name -> bool;
  lookup_volume_index_name :
    VolumeIndex -> uds_chunk_name -> volume_index_triage;
  set_volume_index_zone_open_chapter : VolumeIndex -> nat -> Z -> VolumeIndex;
  set_volume_index_open_chapter : VolumeIndex -> Z -> VolumeIndex;
  get_volume_index_zone : VolumeIndex -> uds_chunk_name -> nat;
  (* geometry.h *)
  is_sparse : geometry -> bool;
  is_chapter_sparse : geometry -> Z -> Z -> Z -> bool;
  chapters_to_expire : geometry -> Z -> nat;
  map_to_physical_chapter : geometry -> Z -> nat;
  map_to_physical_page : geometry -> nat -> nat -> nat;
  (* chapterWriter.h *)
  ChapterWriter : Type;
  finish_previous_chapter : ChapterWriter -> Z -> status * ChapterWriter;
  start_closing_chapter :
    ChapterWriter -> nat -> OpenChapterZone -> nat * ChapterWriter;
  (* indexCheckpoint.h, indexState.h: [process_checkpointing] is handed the
     index, the zone and its newest chapter.  It takes the checkpoint, the
     index state, what a save would write and [prev_save]; it returns the
     result, the checkpoint, the index state and ([last_save], [prev_save]),
     all of which it may have written. *)
  IndexCheckpoint : Type;
  IndexState : Type;
  process_checkpointing :
    IndexCheckpoint -> IndexState ->
    index_image OpenChapterZone VolumeIndex -> Z -> nat -> Z ->
    status * IndexCheckpoint * IndexState * (Z * Z);
  (* volume.h, sparseCache.h, indexPageMap.h *)
  Volume : Type;
  forget_chapter : Volume -> Z -> invalidation_reason -> status * Volume;
  search_volume_page_cache :
    Volume -> index_lookup_mode -> option uds_request -> uds_chunk_name -> Z ->
    status * option uds_chunk_data * Volume;
  search_cached_record_page :
    Volume -> uds_request -> uds_chunk_name -> nat -> Z ->
    status * option uds_chunk_data * Volume;
  sparse_cache_contains : Volume -> Z -> nat -> bool;
  search_sparse_cache :
    Volume -> nat -> Z -> Z -> uds_chunk_name -> Z -> status * Z * Z * Volume;
  update_sparse_cache : Volume -> nat -> Z -> Z -> Z -> status * Volume;
  get_volume_index_page :
    Volume -> index_lookup_mode -> nat -> nat -> status * (nat * nat) * Volume;
  get_volume_record_page :
    Volume -> index_lookup_mode -> nat -> nat -> status * record_page * Volume;
  prefetch_volume_pages : Volume -> nat -> nat -> Volume;
  find_volume_chapter_boundaries :
    Volume -> index_lookup_mode -> status * Z * Z * bool * Volume;
  update_index_page_map :
    Volume -> Z -> nat -> nat -> nat -> status * Volume;
  get_last_update : Volume -> Z;
  (* indexState.h *)
  load_index_state :
    IndexState -> status * index_image OpenChapterZone VolumeIndex;
  save_index_state :
    IndexState -> index_image OpenChapterZone VolumeIndex ->
    status * IndexState;
  discard_index_state_data : IndexState -> IndexState
}.

Section Engine.
Context {C : Components}.

(** ** Zones and the index *)

(** [struct index_zone].  The zone's [id] is its position in
    [index->zones] ([make_index_zone] stores the zone at [zones[id]]), so
    the functions below take the zone number where the source takes the
    zone pointer. *)
Record index_zone : Type := {
  open_chapter : OpenChapterZone;
  writing_chapter : OpenChapterZone;
  oldest_virtual_chapter : Z;
  newest_virtual_chapter : Z
}.

(** The load context of the session, as the replaying thread sees it:
    [load_status] is the value under the mutex now, [load_wakeups] the
    values it will find, in order, each time it next takes the mutex or
    returns from [uds_wait_cond] (whatever suspend, resume and destroy wrote
    in between). *)
Record index_load_context : Type := {
  load_status : index_suspend_status;
  load_wakeups : list index_suspend_status
}.

(** [struct uds_index] with, inside it, the queues the requests travel.
    [zone_count] is the length of [zones]. *)
Record uds_index : Type := {
  zones : list index_zone;
  volume_index : VolumeIndex;
  volume : Volume;
  lookup_mode : index_lookup_mode;
  index_geometry : geometry;
  chapter_writer : ChapterWriter;
  checkpoint : IndexCheckpoint;
  index_state : IndexState;
  zone_queues : list (list uds_request);
  triage_queue : option (list uds_request);
  index_oldest_virtual_chapter : Z;
  index_newest_virtual_chapter : Z;
  last_save : Z;
  prev_save : Z;
  loaded_type : load_type;
  load_context : option index_load_context;
  need_to_save : bool;
  has_saved_open_chapter : bool
}.

Definition zone_count (index : uds_index) : nat := length (zones index).

Definition with_zones (zs : list index_zone) (i : uds_index) : uds_index :=
  {| zones := zs; volume_index := volume_index i; volume := volume i;
     lookup_mode := lookup_mode i; index_geometry := index_geometry i;
     chapter_writer := chapter_writer i; checkpoint := checkpoint i;
     index_state := index_state i; zone_queues := zone_queues i;
     triage_queue := triage_queue i;
     index_oldest_virtual_chapter := index_oldest_virtual_chapter i;
     index_newest_virtual_chapter := index_newest_virtual_chapter i;
     last_save := last_save i; prev_save := prev_save i;
     loaded_type := loaded_type i; load_context := load_context i;
     need_to_save := need_to_save i;
     has_saved_open_chapter := has_saved_open_chapter i |}.

Definition with_volume_index (vi : VolumeIndex) (i : uds_index) : uds_index :=
  {| zones := zones i; volume_index := vi; volume := volume i;
     lookup_mode := lookup_mode i; index_geometry := index_geometry i;
     chapter_writer := chapter_writer i; checkpoint := checkpoint i;
     index_state := index_state i; zone_queues := zone_queues i;
     triage_queue := triage_queue i;
     index_oldest_virtual_chapter := index_oldest_virtual_chapter i;
     index_newest_virtual_chapter := index_newest_virtual_chapter i;
     last_save := last_save i; prev_save := prev_save i;
     loaded_type := loaded_type i; load_context := load_context i;
     need_to_save := need_to_save i;
     has_saved_open_chapter := has_saved_open_chapter i |}.

Definition with_volume (v : Volume) (i : uds_index) : uds_index :=
  {| zones := zones i; volume_index := volume_index i; volume := v;
     lookup_mode := lookup_mode i; index_geometry := index_geometry i;
     chapter_writer := chapter_writer i; checkpoint := checkpoint i;
     index_state := index_state i; zone_queues := zone_queues i;
     triage_queue := triage_queue i;
     index_oldest_virtual_chapter := index_oldest_virtual_chapter i;
     index_newest_virtual_chapter := index_newest_virtual_chapter i;
     last_save := last_save i; prev_save := prev_save i;
     loaded_type := loaded_type i; load_context := load_context i;
     need_to_save := need_to_save i;
     has_saved_open_chapter := has_saved_open_chapter i |}.

Definition with_lookup_mode (m : index_lookup_mode) (i : uds_index) : uds_index :=
  {| zones := zones i; volume_index := volume_index i; volume := volume i;
     lookup_mode := m; index_geometry := index_geometry i;
     chapter_writer := chapter_writer i; checkpoint := checkpoint i;
     index_state := index_state i; zone_queues := zone_queues i;
     triage_queue := triage_queue i;
     index_oldest_virtual_chapter := index_oldest_virtual_chapter i;
     index_newest_virtual_chapter := index_newest_virtual_chapter i;
     last_save := last_save i; prev_save := prev_save i;
     loaded_type := loaded_type i; load_context := load_context i;
     need_to_save := need_to_save i;
     has_saved_open_chapter := has_saved_open_chapter i |}.

Definition with_chapter_writer (w : ChapterWriter) (i : uds_index) : uds_index :=
  {| zones := zones i; volume_index := volume_index i; volume := volume i;
     lookup_mode := lookup_mode i; index_geometry := index_geometry i;
     chapter_writer := w; checkpoint := checkpoint i;
     index_state := index_state i; zone_queues := zone_queues i;
     triage_queue := triage_queue i;
     index_oldest_virtual_chapter := index_oldest_virtual_chapter i;
     index_newest_virtual_chapter := index_newest_virtual_chapter i;
     last_save := last_save i; prev_save := prev_save i;
     loaded_type := loaded_type i; load_context := load_context i;
     need_to_save := need_to_save i;
     has_saved_open_chapter := has_saved_open_chapter i |}.

Definition with_checkpoint (c : IndexCheckpoint) (i : uds_index) : uds_index :=
  {| zones := zones i; volume_index := volume_index i; volume := volume i;
     lookup_mode := lookup_mode i; index_geometry := index_geometry i;
     chapter_writer := chapter_writer i; checkpoint := c;
     index_state := index_state i; zone_queues := zone_queues i;
     triage_queue := triage_queue i;
     index_oldest_virtual_chapter := index_oldest_virtual_chapter i;
     index_newest_virtual_chapter := index_newest_virtual_chapter i;
     last_save := last_save i; prev_save := prev_save i;
     loaded_type := loaded_type i; load_context := load_context i;
     need_to_save := need_to_save i;
     has_saved_open_chapter := has_saved_open_chapter i |}.

Definition with_zone_queues (q : list (list uds_request)) (i : uds_index) : uds_index :=
  {| zones := zones i; volume_index := volume_index i; volume := volume i;
     lookup_mode := lookup_mode i; index_geometry := index_geometry i;
     chapter_writer := chapter_writer i; checkpoint := checkpoint i;
     index_state := index_state i; zone_queues := q;
     triage_queue := triage_queue i;
     index_oldest_virtual_chapter := index_oldest_virtual_chapter i;
     index_newest_virtual_chapter := index_newest_virtual_chapter i;
     last_save := last_save i; prev_save := prev_save i;
     loaded_type := loaded_type i; load_context := load_context i;
     need_to_save := need_to_save i;
     has_saved_open_chapter := has_saved_open_chapter i |}.

Definition with_active_chapters (oldest newest : Z) (i : uds_index) : uds_index :=
  {| zones := zones i; volume_index := volume_index i; volume := volume i;
     lookup_mode := lookup_mode i; index_geometry := index_geometry i;
     chapter_writer := chapter_writer i; checkpoint := checkpoint i;
     index_state := index_state i; zone_queues := zone_queues i;
     triage_queue := triage_queue i;
     index_oldest_virtual_chapter := oldest;
     index_newest_virtual_chapter := newest;
     last_save := last_save i; prev_save := prev_save i;
     loaded_type := loaded_type i; load_context := load_context i;
     need_to_save := need_to_save i;
     has_saved_open_chapter := has_saved_open_chapter i |}.

Definition with_loaded_type (t : load_type) (i : uds_index) : uds_index :=
  {| zones := zones i; volume_index := volume_index i; volume := volume i;
     lookup_mode := lookup_mode i; index_geometry := index_geometry i;
     chapter_writer := chapter_writer i; checkpoint := checkpoint i;
     index_state := index_state i; zone_queues := zone_queues i;
     triage_queue := triage_queue i;
     index_oldest_virtual_chapter := index_oldest_virtual_chapter i;
     index_newest_virtual_chapter := index_newest_virtual_chapter i;
     last_save := last_save i; prev_save := prev_save i;
     loaded_type := t; load_context := load_context i;
     need_to_save := need_to_save i;
     has_saved_open_chapter := has_saved_open_chapter i |}.

Definition with_load_context (c : option index_load_context) (i : uds_index) : uds_index :=
  {| zones := zones i; volume_index := volume_index i; volume := volume i;
     lookup_mode := lookup_mode i; index_geometry := index_geometry i;
     chapter_writer := chapter_writer i; checkpoint := checkpoint i;
     index_state := index_state i; zone_queues := zone_queues i;
     triage_queue := triage_queue i;
     index_oldest_virtual_chapter := index_oldest_virtual_chapter i;
     index_newest_virtual_chapter := index_newest_virtual_chapter i;
     last_save := last_save i; prev_save := prev_save i;
     loaded_type := loaded_type i; load_context := c;
     need_to_save := need_to_save i;
     has_saved_open_chapter := has_saved_open_chapter i |}.

(** [index->zones[z]] and the store back into it. *)
Definition set_zone (z : nat) (zone : index_zone) (i : uds_index) : uds_index :=
  with_zones (<[z := zone]> (zones i)) i.


Definition with_open_chapter (oc : OpenChapterZone) (zone : index_zone) : index_zone :=
  {| open_chapter := oc; writing_chapter := writing_chapter zone;
     oldest_virtual_chapter := oldest_virtual_chapter zone;
     newest_virtual_chapter := newest_virtual_chapter zone |}.

Definition with_newest (n : Z) (zone : index_zone) : index_zone :=
  {| open_chapter := open_chapter zone; writing_chapter := writing_chapter zone;
     oldest_virtual_chapter := oldest_virtual_chapter zone;
     newest_virtual_chapter := n |}.

Definition with_oldest (o : Z) (zone : index_zone) : index_zone :=
  {| open_chapter := open_chapter zone; writing_chapter := writing_chapter zone;
     oldest_virtual_chapter := o;
     newest_virtual_chapter := newest_virtual_chapter zone |}.

Definition with_index_state (st : IndexState) (i : uds_index) : uds_index :=
  {| zones := zones i; volume_index := volume_index i; volume := volume i;
     lookup_mode := lookup_mode i; index_geometry := index_geometry i;
     chapter_writer := chapter_writer i; checkpoint := checkpoint i;
     index_state := st; zone_queues := zone_queues i;
     triage_queue := triage_queue i;
     index_oldest_virtual_chapter := index_oldest_virtual_chapter i;
     index_newest_virtual_chapter := index_newest_virtual_chapter i;
     last_save := last_save i; prev_save := prev_save i;
     loaded_type := loaded_type i; load_context := load_context i;
     need_to_save := need_to_save i;
     has_saved_open_chapter := has_saved_open_chapter i |}.

Definition with_saves (last prev : Z) (i : uds_index) : uds_index :=
  {| zones := zones i; volume_index := volume_index i; volume := volume i;
     lookup_mode := lookup_mode i; index_geometry := index_geometry i;
     chapter_writer := chapter_writer i; checkpoint := checkpoint i;
     index_state := index_state i; zone_queues := zone_queues i;
     triage_queue := triage_queue i;
     index_oldest_virtual_chapter := index_oldest_virtual_chapter i;
     index_newest_virtual_chapter := index_newest_virtual_chapter i;
     last_save := last; prev_save := prev;
     loaded_type := loaded_type i; load_context := load_context i;
     need_to_save := need_to_save i;
     has_saved_open_chapter := has_saved_open_chapter i |}.

(** Modelled from the spec: what [save_index_state] writes and
    [load_index_state] restores passes through the component readers and
    writers of indexState.c and indexStateData.c, which are not in the tree.
    Section 4.9: a load restores the volume index and the open chapters and
    sets oldest and newest from the snapshot. *)
Definition image_of_index (index : uds_index)
    : index_image OpenChapterZone VolumeIndex :=
  {| image_newest_virtual_chapter := index_newest_virtual_chapter index;
     image_oldest_virtual_chapter := index_oldest_virtual_chapter index;
     image_last_save := last_save index;
     image_volume_index := volume_index index;
     image_open_chapters := map open_chapter (zones index) |}.

(** ** Request queues *)

(** Modelled from the spec: the request queues of requestQueue.c and
    request.c, which are not in the tree.  Section 5 of the specification
    gives them as funnels that keep enqueue order, one consumer each; a
    queue is the list of the requests waiting on it, oldest first, and an
    enqueue adds at the end. *)
Definition enqueue_on_zone (zone : nat) (r : uds_request)
    (queues : list (list uds_request)) : list (list uds_request) :=
  match queues !! zone with
  | Some q => <[zone := q ++ [r]]> queues
  | None => queues
  end.

(** Modelled from the spec: [launch_zone_message] of request.c, which is
    not in the tree.  Sections 4.4 and 4.5: a control message is enqueued on
    the queue of the zone it is for.  The request that carries it is
    allocated by the memory allocator, which the specification leaves out of
    scope; the result is [UDS_SUCCESS]. *)
Definition launch_zone_message (message : uds_zone_message) (zone : nat)
    (index : uds_index) : status * uds_index :=
  (UDS_SUCCESS,
   with_zone_queues
     (enqueue_on_zone zone (message_request message zone) (zone_queues index))
     index).

(** ** indexZone.c *)

Definition is_zone_chapter_sparse (zone : index_zone) (index : uds_index)
    (virtual_chapter : Z) : bool :=
  is_chapter_sparse (index_geometry index)
    (oldest_virtual_chapter zone) (newest_virtual_chapter zone)
    virtual_chapter.

Definition set_active_chapters (index : uds_index) (zone : index_zone) : index_zone :=
  with_newest (index_newest_virtual_chapter index)
    (with_oldest (index_oldest_virtual_chapter index) zone).

(** [None] stands for a zone number outside [index->zones], which the
    source never passes, or, in the functions that take [fuel], for the
    nesting of closures running deeper than [fuel]. *)
Definition swap_open_chapter (z : nat) (index : uds_index)
    : option (status * uds_index) :=
  zone ← zones index !! z;
  let '(result, writer) :=
    finish_previous_chapter (chapter_writer index)
      (newest_virtual_chapter zone) in
  let index := with_chapter_writer writer index in
  if negb (is_success result) then Some (result, index)
  else
    let swapped :=
      {| open_chapter := writing_chapter zone;
         writing_chapter := open_chapter zone;
         oldest_virtual_chapter := oldest_virtual_chapter zone;
         newest_virtual_chapter := newest_virtual_chapter zone |} in
    Some (UDS_SUCCESS, set_zone z swapped index).

Definition reap_oldest_chapter (z : nat) (index : uds_index)
    : option (status * uds_index) :=
  zone ← zones index !! z;
  let result :=
    ASSERT (sub64 (newest_virtual_chapter zone) (oldest_virtual_chapter zone)
            <=? Z.of_nat (chapters_per_volume (index_geometry index))) in
  if negb (is_success result) then Some (result, index)
  else
    Some (UDS_SUCCESS,
          with_volume_index
            (set_volume_index_zone_open_chapter (volume_index index) z
               (newest_virtual_chapter zone))
            index).

(** [handle_chapter_closed], over the function that closes a chapter. *)
Definition handle_chapter_closed
    (open_next : nat -> option uds_request -> uds_index -> option (status * uds_index))
    (z : nat) (virtual_chapter : Z) (index : uds_index)
    : option (status * uds_index) :=
  zone ← zones index !! z;
  if newest_virtual_chapter zone =? virtual_chapter
  then open_next z None index
  else Some (UDS_SUCCESS, index).

Definition announce_message (closed_chapter : Z) : uds_zone_message :=
  {| message_type := UDS_MESSAGE_ANNOUNCE_CHAPTER_CLOSED;
     message_virtual_chapter := closed_chapter |}.

(** The loop of [announce_chapter_closed] over the zone numbers [numbers]. *)
Fixpoint announce_loop
    (open_next : nat -> option uds_request -> uds_index -> option (status * uds_index))
    (has_router : bool) (z : nat) (closed_chapter : Z) (numbers : list nat)
    (index : uds_index) : option (status * uds_index) :=
  match numbers with
  | [] => Some (UDS_SUCCESS, index)
  | i :: rest =>
      if Nat.eqb z i
      then announce_loop open_next has_router z closed_chapter rest index
      else
        '(result, index) ←
          (if has_router
           then Some (launch_zone_message (announce_message closed_chapter) i index)
           else handle_chapter_closed open_next i closed_chapter index);
        if negb (is_success result) then Some (result, index)
        else announce_loop open_next has_router z closed_chapter rest index
  end.

Definition announce_chapter_closed
    (open_next : nat -> option uds_request -> uds_index -> option (status * uds_index))
    (request : option uds_request) (z : nat) (closed_chapter : Z)
    (index : uds_index) : option (status * uds_index) :=
  let has_router :=
    match request with Some r => router r | None => false end in
  announce_loop open_next has_router z closed_chapter
    (seq 0 (zone_count index)) index.

(** The closing loop of [open_next_chapter]:
    [while ((expired_chapters-- > 0) && (result == UDS_SUCCESS))]. *)
Fixpoint forget_expired (expired_chapters : nat) (victim : Z)
    (result : status) (v : Volume) : status * Volume :=
  match expired_chapters with
  | O => (result, v)
  | S n =>
      if is_success result
      then
        let '(result, v) := forget_chapter v victim INVALIDATION_EXPIRE in
        forget_expired n (add64 victim 1) result v
      else (result, v)
  end.

(** [open_next_chapter] in its three parts.  [close_open_chapter] is the
    part up to and with [start_closing_chapter]: it gives the result, the
    number of zones the writer reports ([finished_zones]) and the chapter
    that was closed. *)
Definition close_open_chapter (z : nat) (index : uds_index)
    : option (status * nat * Z * uds_index) :=
  '(result, index) ← swap_open_chapter z index;
  zone ← zones index !! z;
  let closed_chapter := newest_virtual_chapter zone in
  if negb (is_success result) then Some (result, O, closed_chapter, index)
  else
    let index :=
      set_zone z (with_newest (add64 closed_chapter 1) zone) index in
    '(result, index) ← reap_oldest_chapter z index;
    if negb (is_success result) then Some (result, O, closed_chapter, index)
    else
      zone ← zones index !! z;
      let zone := with_open_chapter (reset_open_chapter (open_chapter zone)) zone in
      let index := set_zone z zone index in
      let '(result, cp, st, (last, prev)) :=
        process_checkpointing (checkpoint index) (index_state index)
          (image_of_index index) (prev_save index) z
          (newest_virtual_chapter zone) in
      let index :=
        with_saves last prev (with_index_state st (with_checkpoint cp index)) in
      if negb (is_success result) then Some (result, O, closed_chapter, index)
      else
        let '(finished_zones, writer) :=
          start_closing_chapter (chapter_writer index) z
            (writing_chapter zone) in
        Some (UDS_SUCCESS, finished_zones, closed_chapter,
              with_chapter_writer writer index).

(** The part after the announcement: the oldest chapter moves on and the
    last zone to close expires the chapters in the page cache. *)
Definition expire_chapters (z : nat) (finished_zones : nat) (result : status)
    (index : uds_index) : option (status * uds_index) :=
  zone ← zones index !! z;
  let victim := oldest_virtual_chapter zone in
  let expired_chapters :=
    chapters_to_expire (index_geometry index) (newest_virtual_chapter zone) in
  let index :=
    set_zone z (with_oldest (add64 victim (Z.of_nat expired_chapters)) zone)
      index in
  if (finished_zones <? zone_count index)%nat
  then Some (UDS_SUCCESS, index)
  else
    let '(result, v) :=
      forget_expired expired_chapters victim result (volume index) in
    Some (result, with_volume v index).

(** Without a router the announcement calls [handle_chapter_closed] of the
    other zones, which calls [open_next_chapter] again: [fuel] bounds that
    nesting. *)
Fixpoint open_next_chapter (fuel : nat) (z : nat) (request : option uds_request)
    (index : uds_index) {struct fuel} : option (status * uds_index) :=
  match fuel with
  | O => None
  | S fuel =>
      '(result, finished_zones, closed_chapter, index) ←
        close_open_chapter z index;
      if negb (is_success result) then Some (result, index)
      else
        '(result, index) ←
          (if Nat.eqb finished_zones 1 && (1 <? zone_count index)%nat
           then announce_chapter_closed (open_next_chapter fuel)
                  request z closed_chapter index
           else Some (result, index));
        if negb (is_success result) then Some (result, index)
        else expire_chapters z finished_zones result index
  end.

Definition compute_index_region (zone : index_zone) (index : uds_index)
    (virtual_chapter : Z) : uds_index_region :=
  if virtual_chapter =? newest_virtual_chapter zone
  then UDS_LOCATION_IN_OPEN_CHAPTER
  else if is_zone_chapter_sparse zone index virtual_chapter
  then UDS_LOCATION_IN_SPARSE
  else UDS_LOCATION_IN_DENSE.

(** The way the source reports a search: [*found] and, when found, the
    metadata copied into [request->old_metadata]. *)
Definition record_search (r : option uds_chunk_data) (request : uds_request)
    : bool * uds_request :=
  match r with
  | Some m => (true, set_old_metadata m request)
  | None => (false, request)
  end.

(** [search_sparse_cache_in_zone].  [found] is the caller's variable: on a
    miss in the sparse cache ([virtual_chapter] comes back [UINT64_MAX]) the
    function returns without writing it. *)
Definition search_sparse_cache_in_zone (z : nat) (request : uds_request)
    (virtual_chapter : Z) (found : bool) (index : uds_index)
    : option (status * bool * uds_request * uds_index) :=
  zone ← zones index !! z;
  let '(result, virtual_chapter, record_page_number, v) :=
    search_sparse_cache (volume index) z
      (oldest_virtual_chapter zone) (newest_virtual_chapter zone)
      (chunk_name request) virtual_chapter in
  let index := with_volume v index in
  if negb (is_success result) || (virtual_chapter =? UINT64_MAX)
  then Some (result, found, request, index)
  else
    let chapter := map_to_physical_chapter (index_geometry index) virtual_chapter in
    let '(result, r, v) :=
      search_cached_record_page (volume index) request (chunk_name request)
        chapter record_page_number in
    let '(found, request) := record_search r request in
    Some (result, found, request, with_volume v index).

Definition get_record_from_zone (z : nat) (request : uds_request)
    (found : bool) (virtual_chapter : Z) (index : uds_index)
    : option (status * bool * uds_request * uds_index) :=
  zone ← zones index !! z;
  if virtual_chapter =? newest_virtual_chapter zone
  then
    let '(found, request) :=
      record_search
        (search_open_chapter (open_chapter zone) (chunk_name request)) request in
    Some (UDS_SUCCESS, found, request, index)
  else if (0 <? newest_virtual_chapter zone)
          && (virtual_chapter =? newest_virtual_chapter zone - 1)
          && (0 <? open_chapter_size (writing_chapter zone))%nat
  then
    let '(found, request) :=
      record_search
        (search_open_chapter (writing_chapter zone) (chunk_name request))
        request in
    Some (UDS_SUCCESS, found, request, index)
  else if negb (uds_index_region_eqb (location request) UDS_LOCATION_UNKNOWN)
  then
    Some (UDS_SUCCESS,
          negb (uds_index_region_eqb (location request) UDS_LOCATION_UNAVAILABLE),
          request, index)
  else if is_zone_chapter_sparse zone index virtual_chapter
          && sparse_cache_contains (volume index) virtual_chapter
               (zone_number request)
  then search_sparse_cache_in_zone z request virtual_chapter found index
  else
    let '(result, r, v) :=
      search_volume_page_cache (volume index) (lookup_mode index)
        (Some request) (chunk_name request) virtual_chapter in
    let '(found, request) := record_search r request in
    Some (result, found, request, with_volume v index).

Definition put_record_in_zone (fuel : nat) (z : nat) (request : uds_request)
    (metadata : uds_chunk_data) (index : uds_index)
    : option (status * uds_index) :=
  zone ← zones index !! z;
  let '(result, remaining, oc) :=
    put_open_chapter (open_chapter zone) (chunk_name request) metadata in
  let index := set_zone z (with_open_chapter oc zone) index in
  if negb (is_success result) then Some (result, index)
  else if Nat.eqb remaining 0
  then open_next_chapter fuel z (Some request) index
  else Some (UDS_SUCCESS, index).

Definition dispatch_index_zone_control_request (fuel : nat)
    (request : uds_request) (index : uds_index)
    : option (status * uds_index) :=
  let message := zone_message request in
  zone ← zones index !! zone_number request;
  match message_type message with
  | UDS_MESSAGE_SPARSE_CACHE_BARRIER =>
      let '(result, v) :=
        update_sparse_cache (volume index) (zone_number request)
          (oldest_virtual_chapter zone) (newest_virtual_chapter zone)
          (message_virtual_chapter message) in
      Some (result, with_volume v index)
  | UDS_MESSAGE_ANNOUNCE_CHAPTER_CLOSED =>
      handle_chapter_closed (open_next_chapter fuel) (zone_number request)
        (message_virtual_chapter message) index
  | _ => Some (UDS_INVALID_ARGUMENT, index)
  end.


(** ** index.c: triage and the zone queues *)


(** [get_request_zone] is [index->zones[request->zone_number]]; the zone is
    fetched only once the name is known to be a sample. *)
Definition triage_index_request (index : uds_index) (request : uds_request)
    : option Z :=
  let triage := lookup_volume_index_name (volume_index index) (chunk_name request) in
  if negb (in_sampled_chapter triage) then Some UINT64_MAX
  else
    zone ← zones index !! zone_number request;
    if negb (is_zone_chapter_sparse zone index (triage_virtual_chapter triage))
    then Some UINT64_MAX
    else Some (triage_virtual_chapter triage).



Definition simulate_index_zone_barrier_message (z : nat) (request : uds_request)
    (index : uds_index) : option (status * uds_index) :=
  if (1 <? zone_count index)%nat || negb (is_sparse (index_geometry index))
  then Some (UDS_SUCCESS, index)
  else
    sparse_virtual_chapter ← triage_index_request index request;
    if sparse_virtual_chapter =? UINT64_MAX then Some (UDS_SUCCESS, index)
    else
      zone ← zones index !! z;
      let '(result, v) :=
        update_sparse_cache (volume index) z
          (oldest_virtual_chapter zone) (newest_virtual_chapter zone)
          sparse_virtual_chapter in
      Some (result, with_volume v index).

Inductive request_stage : Type :=
  | STAGE_TRIAGE | STAGE_INDEX | STAGE_MESSAGE | STAGE_INVALID (n : Z).

(** What [select_index_queue] returns: the triage queue, the queue of a
    zone, or NULL. *)
Inductive selected_queue : Type :=
  | the_triage_queue
  | the_zone_queue (zone : nat)
  | no_queue.

Definition select_index_queue (index : uds_index) (request : uds_request)
    (next_stage : request_stage) : uds_request * selected_queue :=
  let to_index_stage :=
    let request :=
      set_zone_number
        (get_volume_index_zone (volume_index index) (chunk_name request))
        request in
    (request, the_zone_queue (zone_number request)) in
  match next_stage with
  | STAGE_TRIAGE =>
      match triage_queue index with
      | Some _ => (request, the_triage_queue)
      | None => to_index_stage
      end
  | STAGE_INDEX => to_index_stage
  | STAGE_MESSAGE => (request, the_zone_queue (zone_number request))
  | STAGE_INVALID _ => (request, no_queue)
  end.




(** ** index.c: searching, removing, dispatching *)

Definition is_query (t : uds_request_type) : bool :=
  match t with UDS_QUERY => true | _ => false end.
Definition is_update (t : uds_request_type) : bool :=
  match t with UDS_UPDATE => true | _ => false end.

(** The first block of [search_index_zone]:
    [if (record.is_found) { get_record_from_zone ...; if (found) location = ... }]. *)
Definition confirm_index_record (z : nat) (request : uds_request)
    (record : volume_index_record) (found : bool) (index : uds_index)
    : option (status * bool * uds_request * uds_index) :=
  if is_found record
  then
    match get_record_from_zone z request found
            (record_virtual_chapter record) index with
    | Some (result, found, request, index) =>
        if negb (is_success result) then Some (result, found, request, index)
        else
          zone ← zones index !! z;
          Some (result, found,
                (if found
                 then set_location
                        (compute_index_region zone index
                           (record_virtual_chapter record))
                        request
                 else request),
                index)
    | None => None
    end
  else Some (UDS_SUCCESS, found, request, index).

(** The probe of the cached sparse chapters for a name the volume index
    does not resolve. *)
Definition probe_sparse_cache (z : nat) (request : uds_request)
    (found : bool) (index : uds_index)
    : option (status * bool * uds_request * uds_index) :=
  if negb (is_volume_index_sample (volume_index index) (chunk_name request))
     && is_sparse (index_geometry index)
  then
    match search_sparse_cache_in_zone z request UINT64_MAX found index with
    | Some (result, found, request, index) =>
        if negb (is_success result) then Some (result, found, request, index)
        else
          Some (result, found,
                (if found
                 then set_location UDS_LOCATION_IN_SPARSE request
                 else request),
                index)
    | None => None
    end
  else Some (UDS_SUCCESS, found, request, index).

(** The volume-index write of [search_index_zone]: [inl r] returns [r] at
    once, [inr r] goes on to the checks after the write with
    [result = r]. *)
Definition update_index_record (z : nat) (request : uds_request)
    (record : volume_index_record) (found : bool) (index : uds_index)
    : option (sum status status * bool * uds_request * uds_index) :=
  zone ← zones index !! z;
  let overflow_record :=
    is_found record && is_collision record && negb found in
  let chapter := newest_virtual_chapter zone in
  if found || overflow_record
  then
    if is_query (request_type request)
       && (negb (update request) || overflow_record)
    then Some (inl UDS_SUCCESS, found, request, index)
    else if negb (record_virtual_chapter record =? chapter)
    then
      let '(result, vi) :=
        set_volume_index_record_chapter (volume_index index) record chapter in
      Some (inr result, found, request, with_volume_index vi index)
    else if negb (is_update (request_type request))
    then Some (inl UDS_SUCCESS, found, request, index)
    else Some (inr UDS_SUCCESS, found, request, index)
  else
    match probe_sparse_cache z request found index with
    | Some (result, found, request, index) =>
        if negb (is_success result)
        then Some (inl result, found, request, index)
        else if is_query (request_type request)
                && (negb found || negb (update request))
        then Some (inl UDS_SUCCESS, found, request, index)
        else
          let '(result, vi) :=
            put_volume_index_record (volume_index index) record chapter in
          Some (inr result, found, request, with_volume_index vi index)
    | None => None
    end.

Definition search_index_zone (fuel : nat) (z : nat) (request : uds_request)
    (index : uds_index) : option (status * uds_request * uds_index) :=
  let found := false in
  let '(result, record) :=
    get_volume_index_record (volume_index index) (chunk_name request) in
  if negb (is_success result) then Some (result, request, index)
  else
    match confirm_index_record z request record found index with
    | Some (result, found, request, index) =>
        if negb (is_success result) then Some (result, request, index)
        else
          match update_index_record z request record found index with
          | Some (inl result, _, request, index) =>
              Some (result, request, index)
          | Some (inr result, found, request, index) =>
              if status_eqb result UDS_OVERFLOW
              then Some (UDS_SUCCESS, request, index)
              else if negb (is_success result)
              then Some (result, request, index)
              else
                let metadata :=
                  if negb found || is_update (request_type request)
                  then new_metadata request
                  else old_metadata request in
                match put_record_in_zone fuel z request metadata index with
                | Some (result, index) => Some (result, request, index)
                | None => None
                end
          | None => None
          end
    | None => None
    end.

Definition with_zone_open_chapter (z : nat) (oc : OpenChapterZone)
    (index : uds_index) : uds_index :=
  match zones index !! z with
  | Some zone => set_zone z (with_open_chapter oc zone) index
  | None => index
  end.

(** [remove_from_index_zone].  Its [bool found;] has no initializer:
    [indeterminate] is the value the variable holds before
    [get_record_from_zone] is called with its address. *)
Definition remove_from_index_zone (indeterminate : bool) (z : nat)
    (request : uds_request) (index : uds_index)
    : option (status * uds_request * uds_index) :=
  let '(result, record) :=
    get_volume_index_record (volume_index index) (chunk_name request) in
  if negb (is_success result) then Some (result, request, index)
  else if negb (is_found record) then Some (UDS_SUCCESS, request, index)
  else
    (* [Some r]: return [r] now; [None]: go on to the removal *)
    let resolved : option (option status * uds_request * uds_index) :=
      if negb (is_collision record)
      then
        let found := indeterminate in
        match get_record_from_zone z request found
                (record_virtual_chapter record) index with
        | Some (result, found, request, index) =>
            if negb (is_success result) then Some (Some result, request, index)
            else if negb found then Some (Some UDS_SUCCESS, request, index)
            else Some (None, request, index)
        | None => None
        end
      else Some (None, request, index) in
    match resolved with
    | None => None
    | Some (Some result, request, index) => Some (result, request, index)
    | Some (None, request, index) =>
        zone ← zones index !! z;
        let request :=
          set_location
            (compute_index_region zone index (record_virtual_chapter record))
            request in
        let '(result, vi) :=
          remove_volume_index_record (volume_index index) record in
        let index := with_volume_index vi index in
        if negb (is_success result) then Some (result, request, index)
        else if uds_index_region_eqb (location request)
                  UDS_LOCATION_IN_OPEN_CHAPTER
        then
          let '(hash_exists, oc) :=
            remove_from_open_chapter (open_chapter zone) (chunk_name request) in
          let index := with_zone_open_chapter z oc index in
          let result := ASSERT hash_exists in
          if negb (is_success result) then Some (result, request, index)
          else Some (UDS_SUCCESS, request, index)
        else Some (UDS_SUCCESS, request, index)
    end.

(** [dispatch_index_request]; [indeterminate] is passed on to
    [remove_from_index_zone]. *)
Definition dispatch_index_request (fuel : nat) (indeterminate : bool)
    (request : uds_request) (index : uds_index)
    : option (status * uds_request * uds_index) :=
  let z := zone_number request in
  match (if negb (requeued request)
         then simulate_index_zone_barrier_message z request index
         else Some (UDS_SUCCESS, index)) with
  | None => None
  | Some (result, index) =>
      if negb (is_success result) then Some (result, request, index)
      else
        let request := set_location UDS_LOCATION_UNKNOWN request in
        match
          match request_type request with
          | UDS_POST | UDS_UPDATE | UDS_QUERY =>
              search_index_zone fuel z request index
          | UDS_DELETE => remove_from_index_zone indeterminate z request index
          | UDS_INVALID_TYPE _ => Some (UDS_INVALID_ARGUMENT, request, index)
          end
        with
        | None => None
        | Some (result, request, index) =>
            let request :=
              if uds_index_region_eqb (location request) UDS_LOCATION_UNKNOWN
              then set_location UDS_LOCATION_UNAVAILABLE request
              else request in
            Some (result, request, index)
        end
  end.

(** ** indexSession.c: the callback stage *)

(** [handle_callbacks]: the statistics of the session are left out, the
    request is the one handed to [request->callback]. *)
Definition handle_callbacks (request : uds_request) : uds_request :=
  if has_callback request
  then
    set_found
      (negb (uds_index_region_eqb (location request) UDS_LOCATION_UNAVAILABLE))
      request
  else request.


(** ** index.c: load, rebuild, replay, save *)

Definition with_save_flags (need saved_open : bool) (i : uds_index) : uds_index :=
  {| zones := zones i; volume_index := volume_index i; volume := volume i;
     lookup_mode := lookup_mode i; index_geometry := index_geometry i;
     chapter_writer := chapter_writer i; checkpoint := checkpoint i;
     index_state := index_state i; zone_queues := zone_queues i;
     triage_queue := triage_queue i;
     index_oldest_virtual_chapter := index_oldest_virtual_chapter i;
     index_newest_virtual_chapter := index_newest_virtual_chapter i;
     last_save := last_save i; prev_save := prev_save i;
     loaded_type := loaded_type i; load_context := load_context i;
     need_to_save := need; has_saved_open_chapter := saved_open |}.

Definition NO_LAST_SAVE : Z := 2 ^ 32 - 1.   (* UINT_MAX *)

Fixpoint restore_open_chapters (zs : list index_zone)
    (chapters : list OpenChapterZone) : list index_zone :=
  match zs, chapters with
  | zone :: zs, oc :: chapters =>
      with_open_chapter oc zone :: restore_open_chapters zs chapters
  | _, _ => zs
  end.

Definition restore_image (image : index_image OpenChapterZone VolumeIndex)
    (index : uds_index) : uds_index :=
  with_zones (restore_open_chapters (zones index) (image_open_chapters image))
    (with_volume_index (image_volume_index image)
       (with_saves (image_last_save image) (prev_save index)
          (with_active_chapters
             (image_oldest_virtual_chapter image)
             (image_newest_virtual_chapter image) index))).

Definition load_index (index : uds_index) : status * uds_index :=
  let '(result, image) := load_index_state (index_state index) in
  if negb (is_success result) then (UDS_INDEX_NOT_SAVED_CLEANLY, index)
  else
    let index := restore_image image index in
    let index := with_zones (map (set_active_chapters index) (zones index)) index in
    (UDS_SUCCESS, with_loaded_type LOAD_LOAD index).

Definition rebuild_index_page_map_loop_body (index : uds_index) (vcn : Z)
    (chapter : nat) (index_page_number : nat) (expected_list_number : nat)
    : status * nat * uds_index :=
  let '(result, (lowest_delta_list, highest_delta_list), v) :=
    get_volume_index_page (volume index) (lookup_mode index) chapter
      index_page_number in
  let index := with_volume v index in
  if negb (is_success result) then (result, expected_list_number, index)
  else if negb (Nat.eqb lowest_delta_list expected_list_number)
  then (UDS_CORRUPT_DATA, expected_list_number, index)
  else
    let '(result, v) :=
      update_index_page_map (volume index) vcn chapter index_page_number
        highest_delta_list in
    let index := with_volume v index in
    if negb (is_success result) then (result, expected_list_number, index)
    else (UDS_SUCCESS, (highest_delta_list + 1)%nat, index).

Fixpoint rebuild_index_page_map_loop (pages : list nat) (index : uds_index)
    (vcn : Z) (chapter : nat) (expected_list_number : nat)
    : status * uds_index :=
  match pages with
  | [] => (UDS_SUCCESS, index)
  | index_page_number :: rest =>
      let '(result, expected_list_number, index) :=
        rebuild_index_page_map_loop_body index vcn chapter index_page_number
          expected_list_number in
      if negb (is_success result) then (result, index)
      else rebuild_index_page_map_loop rest index vcn chapter expected_list_number
  end.

Definition rebuild_index_page_map (index : uds_index) (vcn : Z)
    : status * uds_index :=
  let g := index_geometry index in
  let chapter := map_to_physical_chapter g vcn in
  rebuild_index_page_map_loop (seq 0 (index_pages_per_chapter g)) index vcn
    chapter 0%nat.

(** The first part of [replay_record], from the lookup of the record to
    the choice between updating and inserting: [inl r] returns [r] at once,
    [inr update_record] goes on to the write. *)
Definition replay_decide (index : uds_index) (record : volume_index_record)
    (name : uds_chunk_name) (virtual_chapter : Z)
    : sum status bool * uds_index :=
  if is_found record
  then
    if is_collision record
    then
      if record_virtual_chapter record =? virtual_chapter
      then (inl UDS_SUCCESS, index)
      else (inr true, index)
    else if record_virtual_chapter record =? virtual_chapter
    then (inr false, index)
    else
      let '(result, r, v) :=
        search_volume_page_cache (volume index) (lookup_mode index)
          None name (record_virtual_chapter record) in
      let index := with_volume v index in
      if negb (is_success result) then (inl result, index)
      else (inr (match r with Some _ => true | None => false end), index)
  else (inr false, index).

(** The write of [replay_record] and the test after it. *)
Definition replay_write (index : uds_index) (record : volume_index_record)
    (update_record : bool) (virtual_chapter : Z) : status * uds_index :=
  let '(result, vi) :=
    if update_record
    then set_volume_index_record_chapter (volume_index index) record
           virtual_chapter
    else put_volume_index_record (volume_index index) record
           virtual_chapter in
  let index := with_volume_index vi index in
  if status_eqb result UDS_DUPLICATE_NAME || status_eqb result UDS_OVERFLOW
  then (UDS_SUCCESS, index)
  else (result, index).

Definition replay_record (index : uds_index) (name : uds_chunk_name)
    (virtual_chapter : Z) (will_be_sparse_chapter : bool)
    : status * uds_index :=
  if will_be_sparse_chapter
     && negb (is_volume_index_sample (volume_index index) name)
  then (UDS_SUCCESS, index)
  else
    let '(result, record) :=
      get_volume_index_record (volume_index index) name in
    if negb (is_success result) then (result, index)
    else
      let '(decided, index) :=
        replay_decide index record name virtual_chapter in
      match decided with
      | inl result => (result, index)
      | inr update_record =>
          replay_write index record update_record virtual_chapter
      end.

(** [uds_lock_mutex] on the load context: the thread sees what the other
    threads wrote since it last looked, if they wrote anything. *)
Definition lock_load_context (ctx : index_load_context) : index_load_context :=
  match load_wakeups ctx with
  | [] => ctx
  | s :: rest => {| load_status := s; load_wakeups := rest |}
  end.

(** The wait of [check_for_suspend]:
    [while (status != INDEX_OPENING && status != INDEX_FREEING) uds_wait_cond(...)].
    With no wake-up left the thread stays blocked: [None]. *)
Fixpoint wait_for_resume (wakeups : list index_suspend_status)
    (s : index_suspend_status) : option index_load_context :=
  match s with
  | INDEX_OPENING | INDEX_FREEING =>
      Some {| load_status := s; load_wakeups := wakeups |}
  | _ =>
      match wakeups with
      | [] => None
      | s' :: rest => wait_for_resume rest s'
      end
  end.

Definition check_for_suspend (index : uds_index) : option (bool * uds_index) :=
  match load_context index with
  | None => Some (false, index)
  | Some ctx =>
      let ctx := lock_load_context ctx in
      match load_status ctx with
      | INDEX_SUSPENDING =>
          ctx ← wait_for_resume (load_wakeups ctx) INDEX_SUSPENDED;
          let ret_val :=
            match load_status ctx with INDEX_FREEING => true | _ => false end in
          Some (ret_val, with_load_context (Some ctx) index)
      | _ => Some (false, with_load_context (Some ctx) index)
      end
  end.

(** The innermost loop of [replay_volume], over the slots of a record
    page. *)
Fixpoint replay_page_records (slots : list nat) (page : record_page)
    (vcn : Z) (will_be_sparse_chapter : bool) (index : uds_index)
    : status * uds_index :=
  match slots with
  | [] => (UDS_SUCCESS, index)
  | k :: rest =>
      let '(result, index) :=
        replay_record index (page k) vcn will_be_sparse_chapter in
      if negb (is_success result) then (result, index)
      else replay_page_records rest page vcn will_be_sparse_chapter index
  end.

(** The loop over the record pages of a chapter. *)
Fixpoint replay_record_pages (pages : list nat) (chapter : nat) (vcn : Z)
    (will_be_sparse_chapter : bool) (index : uds_index)
    : status * uds_index :=
  match pages with
  | [] => (UDS_SUCCESS, index)
  | j :: rest =>
      let g := index_geometry index in
      let record_page_number := (index_pages_per_chapter g + j)%nat in
      let '(result, page, v) :=
        get_volume_record_page (volume index) (lookup_mode index) chapter
          record_page_number in
      let index := with_volume v index in
      if negb (is_success result) then (result, index)
      else
        let '(result, index) :=
          replay_page_records (seq 0 (records_per_page g)) page vcn
            will_be_sparse_chapter index in
        if negb (is_success result) then (result, index)
        else replay_record_pages rest chapter vcn will_be_sparse_chapter index
  end.

(** One turn of the chapter loop of [replay_volume], after the check for
    suspension. On an error the lookup mode is put back before returning. *)
Definition replay_chapter (index : uds_index) (from_vcn upto_vcn vcn : Z)
    (old_lookup_mode : index_lookup_mode) : status * uds_index :=
  let g := index_geometry index in
  let will_be_sparse_chapter := is_chapter_sparse g from_vcn upto_vcn vcn in
  let chapter := map_to_physical_chapter g vcn in
  let index :=
    with_volume
      (prefetch_volume_pages (volume index) (map_to_physical_page g chapter 0)
         (pages_per_chapter g))
      index in
  let index :=
    with_volume_index
      (set_volume_index_open_chapter (volume_index index) vcn) index in
  let '(result, index) := rebuild_index_page_map index vcn in
  if negb (is_success result)
  then (result, with_lookup_mode old_lookup_mode index)
  else
    let '(result, index) :=
      replay_record_pages (seq 0 (record_pages_per_chapter g)) chapter vcn
        will_be_sparse_chapter index in
    if negb (is_success result)
    then (result, with_lookup_mode old_lookup_mode index)
    else (UDS_SUCCESS, index).

(** [for (vcn = from_vcn; vcn < upto_vcn; ++vcn)], [count] turns left. *)
Fixpoint replay_chapters (count : nat) (vcn : Z) (from_vcn upto_vcn : Z)
    (old_lookup_mode : index_lookup_mode) (index : uds_index)
    : option (status * uds_index) :=
  match count with
  | O => Some (UDS_SUCCESS, index)
  | S count =>
      '(suspended, index) ← check_for_suspend index;
      if (suspended : bool) then Some (EBUSY_NEG, index)
      else
        let '(result, index) :=
          replay_chapter index from_vcn upto_vcn vcn old_lookup_mode in
        if negb (is_success result) then Some (result, index)
        else replay_chapters count (vcn + 1) from_vcn upto_vcn
               old_lookup_mode index
  end.

Definition replay_volume (index : uds_index) (from_vcn : Z)
    : option (status * uds_index) :=
  let upto_vcn := index_newest_virtual_chapter index in
  let index :=
    with_volume_index
      (set_volume_index_open_chapter
         (set_volume_index_open_chapter (volume_index index) upto_vcn)
         from_vcn)
      index in
  let old_lookup_mode := lookup_mode index in
  let index := with_lookup_mode LOOKUP_FOR_REBUILD index in
  '(result, index) ←
    replay_chapters (Z.to_nat (upto_vcn - from_vcn)) from_vcn from_vcn upto_vcn
      old_lookup_mode index;
  if negb (is_success result) then Some (result, index)
  else
    let index := with_lookup_mode old_lookup_mode index in
    let index :=
      with_volume_index
        (set_volume_index_open_chapter (volume_index index) upto_vcn) index in
    Some (UDS_SUCCESS, index).

Definition rebuild_index (index : uds_index) : option (status * uds_index) :=
  let old_lookup_mode := lookup_mode index in
  let '(result, lowest_vcn, highest_vcn, is_empty, v) :=
    find_volume_chapter_boundaries (volume index) LOOKUP_FOR_REBUILD in
  let index := with_volume v index in
  if negb (is_success result) then Some (result, index)
  else if highest_vcn <? lowest_vcn then Some (UDS_CORRUPT_COMPONENT, index)
  else
    let index :=
      if (is_empty : bool)
      then with_active_chapters 0 0 index
      else
        let num_chapters := Z.of_nat (chapters_per_volume (index_geometry index)) in
        let newest := add64 highest_vcn 1 in
        let oldest := lowest_vcn in
        if newest =? add64 oldest num_chapters
        then with_active_chapters (add64 oldest 1) newest index
        else with_active_chapters oldest newest index in
    if Z.of_nat (chapters_per_volume (index_geometry index))
       <? sub64 (index_newest_virtual_chapter index)
            (index_oldest_virtual_chapter index)
    then Some (UDS_CORRUPT_COMPONENT, index)
    else
      let index :=
        with_volume_index
          (set_volume_index_open_chapter (volume_index index) 0) index in
      if is_empty then Some (UDS_SUCCESS, with_loaded_type LOAD_EMPTY index)
      else
        '(result, index) ←
          replay_volume index (index_oldest_virtual_chapter index);
        if negb (is_success result) then Some (result, index)
        else
          let index :=
            with_zones (map (set_active_chapters index) (zones index)) index in
          Some (UDS_SUCCESS, with_loaded_type LOAD_REBUILD index).

(** [save_index]; the wait for the chapter writer to be idle changes
    nothing the index holds. *)
Definition save_index (index : uds_index) : status * uds_index :=
  if negb (need_to_save index) then (UDS_SUCCESS, index)
  else
    let index :=
      with_saves
        (if index_newest_virtual_chapter index =? 0 then NO_LAST_SAVE
         else index_newest_virtual_chapter index - 1)
        (last_save index) index in
    let '(result, st) :=
      save_index_state (index_state index) (image_of_index index) in
    let index := with_index_state st index in
    if negb (is_success result)
    then (result, with_saves (prev_save index) (prev_save index) index)
    else (result, with_save_flags false true index).



Definition ready (ctx : index_load_context) : index_load_context :=
  {| load_status := INDEX_READY; load_wakeups := load_wakeups ctx |}.

(** [make_index] from the point where the index, its zones, its volume
    and its queues are allocated: the load, the rebuild or the creation, and
    the flags set at the end. *)
Definition make_index (t : load_type) (index : uds_index)
    : option (status * uds_index) :=
  '(result, index) ←
    match t with
    | LOAD_LOAD | LOAD_REBUILD =>
        let '(result, index) := load_index index in
        match result with
        | UDS_SUCCESS => Some (result, index)
        | ENOMEM_NEG => Some (result, index)
        | _ =>
            match t with
            | LOAD_REBUILD => rebuild_index index
            | _ => Some (result, index)
            end
        end
    | _ =>
        Some (UDS_SUCCESS,
              with_loaded_type LOAD_CREATE
                (with_index_state
                   (discard_index_state_data (index_state index)) index))
    end;
  if negb (is_success result) then Some (result, index)
  else
    let index := with_load_context (option_map ready (load_context index)) index in
    let loaded :=
      match loaded_type index with LOAD_LOAD => true | _ => false end in
    Some (UDS_SUCCESS, with_save_flags (negb loaded) loaded index).

(** ** The active window *)



(** A pair of chapter counters that have not wrapped and whose window
    leaves the physical chapter of the open chapter free. *)
Definition window_tight (g : geometry) (oldest newest : Z) : Prop :=
  0 <= oldest /\ oldest <= newest /\ newest <= UINT64_MAX /\
  newest - oldest < Z.of_nat (chapters_per_volume g).




(** [b] has the zones, the geometry and the chapter counters of [a]. *)
Definition same_zones (a b : uds_index) : Prop :=
  zones b = zones a /\
  index_geometry b = index_geometry a /\
  index_newest_virtual_chapter b = index_newest_virtual_chapter a /\
  index_oldest_virtual_chapter b = index_oldest_virtual_chapter a.

(** The same, and the load context of [a]. *)
Definition same_core (a b : uds_index) : Prop :=
  zones b = zones a /\
  index_geometry b = index_geometry a /\
  index_newest_virtual_chapter b = index_newest_virtual_chapter a /\
  index_oldest_virtual_chapter b = index_oldest_virtual_chapter a /\
  load_context b = load_context a.

(** *** What a chapter closure does to the counters of a zone *)

Definition zone_kept (x y : index_zone) : Prop :=
  newest_virtual_chapter y = newest_virtual_chapter x /\
  oldest_virtual_chapter y = oldest_virtual_chapter x.

(** The zone closed chapter [c] and went through the whole of
    [open_next_chapter]: the assertion of [reap_oldest_chapter] held and
    the oldest chapter moved on by [chapters_to_expire]. *)
Definition zone_closed (g : geometry) (c : Z) (x y : index_zone) : Prop :=
  newest_virtual_chapter x = c /\
  newest_virtual_chapter y = add64 c 1 /\
  sub64 (add64 c 1) (oldest_virtual_chapter x)
    <= Z.of_nat (chapters_per_volume g) /\
  oldest_virtual_chapter y
    = add64 (oldest_virtual_chapter x)
        (Z.of_nat (chapters_to_expire g (add64 c 1))).

(** The zone went into the closure of chapter [c], as far as the advance
    of its newest chapter at least. *)
Definition zone_moved (g : geometry) (c : Z) (x y : index_zone) : Prop :=
  newest_virtual_chapter x = c /\
  newest_virtual_chapter y = add64 c 1 /\
  (oldest_virtual_chapter y = oldest_virtual_chapter x \/ zone_closed g c x y).

Definition zone_step (g : geometry) (c : Z) (x y : index_zone) : Prop :=
  zone_kept x y \/ zone_moved g c x y.

Definition zone_done (g : geometry) (c : Z) (x y : index_zone) : Prop :=
  zone_kept x y \/ zone_closed g c x y.


Definition keeps_index (a b : uds_index) : Prop :=
  index_geometry b = index_geometry a /\
  index_newest_virtual_chapter b = index_newest_virtual_chapter a /\
  index_oldest_virtual_chapter b = index_oldest_virtual_chapter a.

(** The number of zones whose open chapter is [c]. *)
Definition at_chapter (c : Z) (zs : list index_zone) : nat :=
  length (List.filter (fun zone => newest_virtual_chapter zone =? c) zs).

(** What a function [open_next] that closes a chapter does to the zones,
    said of the function the announcement calls: it keeps the counters of
    the index, moves zones at the chapter of the closing zone only, and,
    when it succeeds, has closed the chapter of each zone it moved. *)
Definition closes_stepwise
    (open_next : nat -> option uds_request -> uds_index
                 -> option (status * uds_index)) : Prop :=
  forall i request index r index' zone,
    zones index !! i = Some zone ->
    open_next i request index = Some (r, index') ->
    keeps_index index index'
    /\ Forall2 (zone_step (index_geometry index) (newest_virtual_chapter zone))
         (zones index) (zones index')
    /\ (r = UDS_SUCCESS ->
        Forall2 (zone_done (index_geometry index) (newest_virtual_chapter zone))
          (zones index) (zones index')).





(** What a delete needs of [search_sparse_cache] (sparseCache.c, not in the
    tree): [UINT64_MAX] is what the caller passes to have the whole cache
    searched; asked about one chapter, the search answers for a chapter,
    never with [UINT64_MAX]. *)
Definition sparse_search_names_chapter : Prop :=
  forall v z oldest newest name chapter r chapter' page v',
    chapter <> UINT64_MAX ->
    search_sparse_cache v z oldest newest name chapter
      = (r, chapter', page, v') ->
    chapter' <> UINT64_MAX.

End Engine.

(** ** A small implementation of the interface

    Used to run the engine on concrete indexes.  The open chapter and the
    volume index keep what is put in them, as sections 4.1 and 4.2 of the
    specification describe them; the volume, the chapter writer and the
    checkpoint answer what their state says, so that a run can take any of
    the results the engine tests for. *)
Module Sample.

Record open_chapter_t : Type := {
  oc_capacity : nat;
  oc_records : list (uds_chunk_name * uds_chunk_data)
}.

Definition oc_has (name : uds_chunk_name) (e : uds_chunk_name * uds_chunk_data) : bool :=
  fst e =? name.

Definition oc_put (oc : open_chapter_t) (name : uds_chunk_name)
    (data : uds_chunk_data) : status * nat * open_chapter_t :=
  let others := List.filter (fun e => negb (oc_has name e)) (oc_records oc) in
  if (length others <? oc_capacity oc)%nat
  then
    let records := (name, data) :: others in
    (UDS_SUCCESS, (oc_capacity oc - length records)%nat,
     {| oc_capacity := oc_capacity oc; oc_records := records |})
  else (UDS_OTHER_ERROR 0, O, oc).

Definition oc_search (oc : open_chapter_t) (name : uds_chunk_name)
    : option uds_chunk_data :=
  option_map snd (find (oc_has name) (oc_records oc)).

Definition oc_remove (oc : open_chapter_t) (name : uds_chunk_name)
    : bool * open_chapter_t :=
  (existsb (oc_has name) (oc_records oc),
   {| oc_capacity := oc_capacity oc;
      oc_records := List.filter (fun e => negb (oc_has name e)) (oc_records oc) |}).

Definition oc_reset (oc : open_chapter_t) : open_chapter_t :=
  {| oc_capacity := oc_capacity oc; oc_records := [] |}.

(** The volume index: one entry per name, the chapter and the collision
    flag; [vi_limit] entries fill it (a further insert overflows);
    [vi_fault], when set, is the error the next insert or update returns. *)
Record volume_index_t : Type := {
  vi_entries : list (uds_chunk_name * (Z * bool));
  vi_limit : nat;
  vi_fault : option status;
  vi_zones : nat;
  vi_sample_rate : Z;
  vi_chapters : nat
}.

Definition vi_has (name : uds_chunk_name) (e : uds_chunk_name * (Z * bool)) : bool :=
  fst e =? name.

Definition vi_with_entries (entries : list (uds_chunk_name * (Z * bool)))
    (vi : volume_index_t) : volume_index_t :=
  {| vi_entries := entries; vi_limit := vi_limit vi; vi_fault := vi_fault vi;
     vi_zones := vi_zones vi; vi_sample_rate := vi_sample_rate vi;
     vi_chapters := vi_chapters vi |}.

Definition vi_get (vi : volume_index_t) (name : uds_chunk_name)
    : status * volume_index_record :=
  match find (vi_has name) (vi_entries vi) with
  | Some (_, (chapter, collision)) =>
      (UDS_SUCCESS,
       {| is_found := true; is_collision := collision;
          record_virtual_chapter := chapter; record_name := name |})
  | None =>
      (UDS_SUCCESS,
       {| is_found := false; is_collision := false;
          record_virtual_chapter := 0; record_name := name |})
  end.

Definition vi_put (vi : volume_index_t) (record : volume_index_record)
    (chapter : Z) : status * volume_index_t :=
  match vi_fault vi with
  | Some e => (e, vi)
  | None =>
      if (length (vi_entries vi) <? vi_limit vi)%nat
      then
        (UDS_SUCCESS,
         vi_with_entries
           ((record_name record, (chapter, is_found record)) :: vi_entries vi)
           vi)
      else (UDS_OVERFLOW, vi)
  end.

Definition vi_set_chapter (vi : volume_index_t) (record : volume_index_record)
    (chapter : Z) : status * volume_index_t :=
  match vi_fault vi with
  | Some e => (e, vi)
  | None =>
      (UDS_SUCCESS,
       vi_with_entries
         ((record_name record, (chapter, is_collision record))
            :: List.filter (fun e => negb (vi_has (record_name record) e))
                 (vi_entries vi))
         vi)
  end.

Definition vi_remove (vi : volume_index_t) (record : volume_index_record)
    : status * volume_index_t :=
  (UDS_SUCCESS,
   vi_with_entries
     (List.filter (fun e => negb (vi_has (record_name record) e)) (vi_entries vi))
     vi).

Definition vi_is_sample (vi : volume_index_t) (name : uds_chunk_name) : bool :=
  name mod vi_sample_rate vi =? 0.

Definition vi_lookup (vi : volume_index_t) (name : uds_chunk_name)
    : volume_index_triage :=
  let record := snd (vi_get vi name) in
  {| in_sampled_chapter := vi_is_sample vi name && is_found record;
     triage_virtual_chapter := record_virtual_chapter record |}.

(** Opening chapter [chapter] drops the entries of the chapters that left
    the window. *)
Definition vi_set_open_chapter (vi : volume_index_t) (chapter : Z)
    : volume_index_t :=
  vi_with_entries
    (List.filter (fun e => chapter <? fst (snd e) + Z.of_nat (vi_chapters vi))
       (vi_entries vi))
    vi.

Definition vi_zone (vi : volume_index_t) (name : uds_chunk_name) : nat :=
  Z.to_nat (name mod Z.of_nat (vi_zones vi)).

Definition geometry_is_sparse (g : geometry) : bool :=
  (0 <? sparse_chapters_per_volume g)%nat.

Definition geometry_is_chapter_sparse (g : geometry) (oldest newest chapter : Z)
    : bool :=
  geometry_is_sparse g
  && (add64 chapter
        (Z.of_nat (chapters_per_volume g - sparse_chapters_per_volume g))
      <=? newest).

Definition geometry_chapters_to_expire (g : geometry) (newest : Z) : nat :=
  if newest <? Z.of_nat (chapters_per_volume g) then O else 1%nat.

Definition geometry_physical_chapter (g : geometry) (chapter : Z) : nat :=
  Z.to_nat (chapter mod Z.of_nat (chapters_per_volume g)).

Definition geometry_physical_page (g : geometry) (chapter page : nat) : nat :=
  (1 + chapter * pages_per_chapter g + page)%nat.

(** The chapter writer: the result of the last write and the count of the
    zones that have handed in the chapter being closed. *)
Record chapter_writer_t : Type := {
  writer_result : status;
  zones_to_write : nat;
  writer_zones : nat
}.

Definition writer_finish (w : chapter_writer_t) (chapter : Z)
    : status * chapter_writer_t :=
  (writer_result w, w).

Definition writer_start_closing (w : chapter_writer_t) (zone : nat)
    (oc : open_chapter_t) : nat * chapter_writer_t :=
  let n := S (zones_to_write w) in
  (n,
   {| writer_result := writer_result w;
      zones_to_write := if Nat.eqb n (writer_zones w) then O else n;
      writer_zones := writer_zones w |}).

(** The volume: the chapters in the sparse cache and the answers of its
    searches and reads.  [sparse_search_answer] is the result, the chapter
    and the record page of a search of the whole sparse cache; the search
    of one chapter answers with that chapter and the same record page. *)
Record volume_t : Type := {
  cached_chapters : list Z;
  sparse_search_answer : status * Z * Z;
  record_page_answer : status * option uds_chunk_data;
  page_cache_answer : status * option uds_chunk_data;
  update_cache_answer : status;
  forget_answer : status;
  boundaries_answer : status * Z * Z * bool;
  page_names : record_page
}.

Definition volume_with_cached (l : list Z) (v : volume_t) : volume_t :=
  {| cached_chapters := l;
     sparse_search_answer := sparse_search_answer v;
     record_page_answer := record_page_answer v;
     page_cache_answer := page_cache_answer v;
     update_cache_answer := update_cache_answer v;
     forget_answer := forget_answer v;
     boundaries_answer := boundaries_answer v;
     page_names := page_names v |}.

(** The search of the sparse cache: of the whole cache when [chapter] is
    [UINT64_MAX], of the chapter named otherwise. *)
Definition sparse_cache_search (v : volume_t) (chapter : Z)
    : status * Z * Z * volume_t :=
  let '(result, found_in, page) := sparse_search_answer v in
  (result, (if chapter =? UINT64_MAX then found_in else chapter), page, v).

Definition empty_image : index_image open_chapter_t volume_index_t :=
  {| image_newest_virtual_chapter := 0;
     image_oldest_virtual_chapter := 0;
     image_last_save := 0;
     image_volume_index :=
       {| vi_entries := []; vi_limit := O; vi_fault := None; vi_zones := 1;
          vi_sample_rate := 1; vi_chapters := 1 |};
     image_open_chapters := [] |}.

#[export] Instance components : Components := {|
  OpenChapterZone := open_chapter_t;
  open_chapter_size := fun oc => length (oc_records oc);
  put_open_chapter := oc_put;
  search_open_chapter := oc_search;
  remove_from_open_chapter := oc_remove;
  reset_open_chapter := oc_reset;
  VolumeIndex := volume_index_t;
  get_volume_index_record := vi_get;
  put_volume_index_record := vi_put;
  set_volume_index_record_chapter := vi_set_chapter;
  remove_volume_index_record := vi_remove;
  is_volume_index_sample := vi_is_sample;
  lookup_volume_index_name := vi_lookup;
  set_volume_index_zone_open_chapter := fun vi _ chapter => vi_set_open_chapter vi chapter;
  set_volume_index_open_chapter := vi_set_open_chapter;
  get_volume_index_zone := vi_zone;
  is_sparse := geometry_is_sparse;
  is_chapter_sparse := geometry_is_chapter_sparse;
  chapters_to_expire := geometry_chapters_to_expire;
  map_to_physical_chapter := geometry_physical_chapter;
  map_to_physical_page := geometry_physical_page;
  ChapterWriter := chapter_writer_t;
  finish_previous_chapter := writer_finish;
  start_closing_chapter := writer_start_closing;
  IndexCheckpoint := status;
  IndexState := option (index_image open_chapter_t volume_index_t);
  process_checkpointing :=
    fun cp st image prev _ _ => (cp, cp, st, (image_last_save image, prev));
  Volume := volume_t;
  forget_chapter := fun v _ _ => (forget_answer v, v);
  search_volume_page_cache := fun v _ _ _ _ => (page_cache_answer v, v);
  search_cached_record_page := fun v _ _ _ _ => (record_page_answer v, v);
  sparse_cache_contains :=
    fun v chapter _ => existsb (Z.eqb chapter) (cached_chapters v);
  search_sparse_cache := fun v _ _ _ _ chapter => sparse_cache_search v chapter;
  update_sparse_cache :=
    fun v _ _ _ chapter =>
      (update_cache_answer v,
       volume_with_cached (chapter :: cached_chapters v) v);
  get_volume_index_page := fun v _ _ page => (UDS_SUCCESS, (page, page), v);
  get_volume_record_page := fun v _ _ _ => (UDS_SUCCESS, page_names v, v);
  prefetch_volume_pages := fun v _ _ => v;
  find_volume_chapter_boundaries := fun v _ => (boundaries_answer v, v);
  update_index_page_map := fun v _ _ _ _ => (UDS_SUCCESS, v);
  get_last_update := fun _ => 0;
  load_index_state :=
    fun st =>
      match st with
      | Some image => (UDS_SUCCESS, image)
      | None => (UDS_OTHER_ERROR 1, empty_image)
      end;
  save_index_state := fun _ image => (UDS_SUCCESS, Some image);
  discard_index_state_data := fun _ => None
|}.

(** Geometry of the concrete scenarios of the specification: 16 records a
    page, 4 record pages and 2 index pages a chapter, 8 chapters, 2 of them
    sparse. *)
Definition scenario_geometry : geometry :=
  {| chapters_per_volume := 8; index_pages_per_chapter := 2;
     record_pages_per_chapter := 4; records_per_page := 16;
     pages_per_chapter := 6; sparse_chapters_per_volume := 2 |}.

Definition quiet_volume : volume_t :=
  {| cached_chapters := [];
     sparse_search_answer := (UDS_SUCCESS, UINT64_MAX, 0);
     record_page_answer := (UDS_SUCCESS, None);
     page_cache_answer := (UDS_SUCCESS, None);
     update_cache_answer := UDS_SUCCESS;
     forget_answer := UDS_SUCCESS;
     boundaries_answer := (UDS_SUCCESS, 0, 0, true);
     page_names := fun k => Z.of_nat k |}.

Definition empty_volume_index (zone_count : nat) : volume_index_t :=
  {| vi_entries := []; vi_limit := 1000; vi_fault := None;
     vi_zones := zone_count; vi_sample_rate := 4; vi_chapters := 8 |}.

Definition empty_zone (capacity : nat) : index_zone :=
  {| open_chapter := {| oc_capacity := capacity; oc_records := [] |};
     writing_chapter := {| oc_capacity := capacity; oc_records := [] |};
     oldest_virtual_chapter := 0;
     newest_virtual_chapter := 0 |}.

(** A created index with [zone_count] zones of [capacity] records each and
    the writer in state [writer]. *)
Definition fresh_index (zone_count capacity : nat) (result : status)
    : uds_index :=
  {| zones := repeat (empty_zone capacity) zone_count;
     volume_index := empty_volume_index zone_count;
     volume := quiet_volume;
     lookup_mode := LOOKUP_NORMAL;
     index_geometry := scenario_geometry;
     chapter_writer :=
       {| writer_result := result; zones_to_write := O;
          writer_zones := zone_count |};
     checkpoint := UDS_SUCCESS;
     index_state := None;
     zone_queues := repeat [] zone_count;
     triage_queue := None;
     index_oldest_virtual_chapter := 0;
     index_newest_virtual_chapter := 0;
     last_save := 0; prev_save := 0;
     loaded_type := LOAD_CREATE;
     load_context := None;
     need_to_save := true;
     has_saved_open_chapter := false |}.

Definition post (name : uds_chunk_name) (data : uds_chunk_data) (zone : nat)
    : uds_request :=
  {| chunk_name := name; new_metadata := data; old_metadata := 0;
     request_type := UDS_POST; update := false; requeued := false;
     zone_number := zone; location := UDS_LOCATION_UNKNOWN; found := false;
     request_status := UDS_SUCCESS; router := true; has_callback := true;
     zone_message := no_message |}.


Definition delete (name : uds_chunk_name) (zone : nat) : uds_request :=
  {| chunk_name := name; new_metadata := 0; old_metadata := 0;
     request_type := UDS_DELETE; update := false; requeued := false;
     zone_number := zone; location := UDS_LOCATION_UNKNOWN; found := false;
     request_status := UDS_SUCCESS; router := true; has_callback := true;
     zone_message := no_message |}.

(** A single-zone index in its eighth chapter (chapters 0 and 1 are
    sparse) whose volume index holds a hint, not a collision entry, for the
    sample name 8 in chapter 0. *)
Definition hint_zone : index_zone :=
  {| open_chapter := {| oc_capacity := 64; oc_records := [] |};
     writing_chapter := {| oc_capacity := 64; oc_records := [] |};
     oldest_virtual_chapter := 0;
     newest_virtual_chapter := 7 |}.

Definition hint_volume_index : volume_index_t :=
  {| vi_entries := [(8, (0, false))]; vi_limit := 1000; vi_fault := None;
     vi_zones := 1; vi_sample_rate := 4; vi_chapters := 8 |}.

Definition hint_index (v : volume_t) : uds_index :=
  {| zones := [hint_zone];
     volume_index := hint_volume_index;
     volume := v;
     lookup_mode := LOOKUP_NORMAL;
     index_geometry := scenario_geometry;
     chapter_writer :=
       {| writer_result := UDS_SUCCESS; zones_to_write := O;
          writer_zones := 1 |};
     checkpoint := UDS_SUCCESS;
     index_state := None;
     zone_queues := [[]];
     triage_queue := None;
     index_oldest_virtual_chapter := 0;
     index_newest_virtual_chapter := 7;
     last_save := 0; prev_save := 0;
     loaded_type := LOAD_CREATE;
     load_context := None;
     need_to_save := true;
     has_saved_open_chapter := false |}.

(** The volume fails to bring chapter 0 into the sparse cache. *)
Definition failing_cache_volume : volume_t :=
  {| cached_chapters := [];
     sparse_search_answer := (UDS_SUCCESS, UINT64_MAX, 0);
     record_page_answer := (UDS_SUCCESS, None);
     page_cache_answer := (UDS_SUCCESS, None);
     update_cache_answer := UDS_OTHER_ERROR 5;
     forget_answer := UDS_SUCCESS;
     boundaries_answer := (UDS_SUCCESS, 0, 0, true);
     page_names := fun k => Z.of_nat k |}.

(** Chapter 0 is in the sparse cache and the record page its index points
    to does not hold the name searched for. *)
Definition cached_miss_volume : volume_t :=
  {| cached_chapters := [0];
     sparse_search_answer := (UDS_SUCCESS, UINT64_MAX, 0);
     record_page_answer := (UDS_SUCCESS, None);
     page_cache_answer := (UDS_SUCCESS, None);
     update_cache_answer := UDS_SUCCESS;
     forget_answer := UDS_SUCCESS;
     boundaries_answer := (UDS_SUCCESS, 0, 0, true);
     page_names := fun k => Z.of_nat k |}.




(** An index rebuilt up to chapter 1 whose load context sees, one after
    the other, the values of [wakeups]. *)
Definition replaying_index (wakeups : list index_suspend_status) : uds_index :=
  with_load_context
    (Some {| load_status := INDEX_OPENING; load_wakeups := wakeups |})
    (with_active_chapters 0 1 (fresh_index 1 64 UDS_SUCCESS)).

(** A volume that holds the chapters [lowest] to [highest]. *)
Definition scanned_volume (lowest highest : Z) (is_empty : bool) : volume_t :=
  {| cached_chapters := [];
     sparse_search_answer := (UDS_SUCCESS, UINT64_MAX, 0);
     record_page_answer := (UDS_SUCCESS, None);
     page_cache_answer := (UDS_SUCCESS, None);
     update_cache_answer := UDS_SUCCESS;
     forget_answer := UDS_SUCCESS;
     boundaries_answer := (UDS_SUCCESS, lowest, highest, is_empty);
     page_names := fun k => Z.of_nat k |}.

Definition allocated_index (v : volume_t) : uds_index :=
  with_volume v (with_loaded_type LOAD_UNDEFINED (fresh_index 2 64 UDS_SUCCESS)).




End Sample.

(** * More of index.c and indexRouter.c *)

Section EngineMore.
Context {C : Components}.




(** What the dispatch of a request leaves alone in the index: the
    geometry, the chapter counters of the index itself, the lookup mode,
    the loaded type, the load context, the triage queue and the two flags
    of the saves.  The saved state, [last_save] and [prev_save] are not in
    the list: a request that closes a chapter runs
    [process_checkpointing], which is handed the index and may write
    them. *)
Definition settings_kept (a b : uds_index) : Prop :=
  index_geometry b = index_geometry a /\
  index_newest_virtual_chapter b = index_newest_virtual_chapter a /\
  index_oldest_virtual_chapter b = index_oldest_virtual_chapter a /\
  lookup_mode b = lookup_mode a /\
  triage_queue b = triage_queue a /\
  loaded_type b = loaded_type a /\
  load_context b = load_context a /\
  need_to_save b = need_to_save a /\
  has_saved_open_chapter b = has_saved_open_chapter a.

(** [struct index_router] of indexRouter.c: the index and the queues. *)
Record index_router : Type := {
  router_index : uds_index;
  router_zone_queues : list (list uds_request);
  router_triage_queue : option (list uds_request);
  router_need_to_save : bool
}.

(** [select_index_router_queue] of indexRouter.c. *)
Definition select_index_router_queue (r : index_router)
    (request : uds_request) (next_stage : request_stage)
    : uds_request * selected_queue :=
  let to_zone :=
    let request :=
      set_zone_number
        (get_volume_index_zone (volume_index (router_index r))
           (chunk_name request))
        request in
    (request, the_zone_queue (zone_number request)) in
  match next_stage with
  | STAGE_MESSAGE => (request, the_zone_queue (zone_number request))
  | STAGE_TRIAGE =>
      match router_triage_queue r with
      | Some _ => (request, the_triage_queue)
      | None => to_zone
      end
  | STAGE_INDEX => to_zone
  | STAGE_INVALID _ => (request, no_queue)
  end.

End EngineMore.

(** * indexSession.c: the state of a session *)

(** The flags of [index_session->state].  indexSession.h, which declares
    them, is not in the tree: the bit each flag occupies is a parameter,
    and so are [uds_map_to_system_error] (errors.c of this release) and
    the range of the counter [request_count]. *)
Inductive index_session_flag : Type :=
  | IS_LOADED | IS_LOADING | IS_DISABLED | IS_SUSPENDED | IS_WAITING
  | IS_CLOSING | IS_DESTROYING.

Class SessionConstants : Type := {
  flag_bit : index_session_flag -> Z;
  uds_map_to_system_error : status -> status;
  REQUEST_COUNT_MODULUS : Z
}.

(** [UDS_DISABLED] and [UDS_NO_INDEX]: entries 5 and 37 of [error_list] in
    errors.c. *)
Definition UDS_DISABLED : status := UDS_OTHER_ERROR 5.
Definition UDS_NO_INDEX : status := UDS_OTHER_ERROR 37.

Section IndexSession.
Context {C : Components} {K : SessionConstants}.

Definition IS_FLAG (f : index_session_flag) : Z := Z.shiftl 1 (flag_bit f).

(** [struct uds_index_session]: the fields indexSession.c reads and
    writes.  [session_load_context] is the load context as the thread that
    suspends or resumes sees it (the status now, and the values it finds
    each time it returns from [uds_wait_cond]). *)
Record uds_index_session : Type := {
  state : Z;
  request_count : Z;
  session_index : option uds_index;
  session_load_context : index_load_context
}.

Definition with_state (st : Z) (s : uds_index_session) : uds_index_session :=
  {| state := st; request_count := request_count s;
     session_index := session_index s;
     session_load_context := session_load_context s |}.

Definition with_request_count (n : Z) (s : uds_index_session)
    : uds_index_session :=
  {| state := state s; request_count := n;
     session_index := session_index s;
     session_load_context := session_load_context s |}.

Definition with_session_index (i : option uds_index) (s : uds_index_session)
    : uds_index_session :=
  {| state := state s; request_count := request_count s;
     session_index := i;
     session_load_context := session_load_context s |}.

Definition with_session_load_context (ctx : index_load_context)
    (s : uds_index_session) : uds_index_session :=
  {| state := state s; request_count := request_count s;
     session_index := session_index s;
     session_load_context := ctx |}.

(** [state & FLAG], [state |= FLAG], [state &= ~FLAG]. *)
Definition has_flag (f : index_session_flag) (s : uds_index_session) : bool :=
  negb (Z.land (state s) (IS_FLAG f) =? 0).

Definition set_flag (f : index_session_flag) (s : uds_index_session)
    : uds_index_session :=
  with_state (Z.lor (state s) (IS_FLAG f)) s.

Definition clear_flag (f : index_session_flag) (s : uds_index_session)
    : uds_index_session :=
  with_state (Z.ldiff (state s) (IS_FLAG f)) s.

Definition check_index_session (s : uds_index_session) : status :=
  if state s =? IS_FLAG IS_LOADED then UDS_SUCCESS
  else if has_flag IS_DISABLED s then UDS_DISABLED
  else if has_flag IS_LOADING s || has_flag IS_SUSPENDED s
          || has_flag IS_WAITING s
  then EBUSY_NEG
  else UDS_NO_INDEX.

(** [release_index_session]; the broadcast wakes the threads in
    [wait_for_no_requests_in_progress], which read the count. *)
Definition release_index_session (s : uds_index_session) : uds_index_session :=
  with_request_count ((request_count s - 1) mod REQUEST_COUNT_MODULUS) s.

Definition get_index_session (s : uds_index_session)
    : status * uds_index_session :=
  let s :=
    with_request_count ((request_count s + 1) mod REQUEST_COUNT_MODULUS) s in
  let result := check_index_session s in
  if negb (is_success result) then (result, release_index_session s)
  else (UDS_SUCCESS, s).

Definition start_loading_index_session (s : uds_index_session)
    : status * uds_index_session :=
  if has_flag IS_SUSPENDED s then (EBUSY_NEG, s)
  else if negb (state s =? 0) then (EBUSY_NEG, s)
  else (UDS_SUCCESS, set_flag IS_LOADING s).

Definition finish_loading_index_session (s : uds_index_session)
    (result : status) : uds_index_session :=
  let s := clear_flag IS_LOADING s in
  if is_success result then set_flag IS_LOADED s else s.

Definition disable_index_session (s : uds_index_session) : uds_index_session :=
  set_flag IS_DISABLED s.

(** A wait on the condition variable of the load context, until the
    status is one of [wanted]: [None] when no wake-up brings one. *)
Fixpoint wait_for_load_status (wanted : index_suspend_status -> bool)
    (wakeups : list index_suspend_status) (now : index_suspend_status)
    : option index_load_context :=
  if wanted now then Some {| load_status := now; load_wakeups := wakeups |}
  else
    match wakeups with
    | [] => None
    | next :: rest => wait_for_load_status wanted rest next
    end.

(** [wait_for_no_requests_in_progress]: the thread stays in the wait while
    requests are in progress ([None]: the requests of other threads are
    not part of this model). *)
Definition wait_for_no_requests_in_progress (s : uds_index_session)
    : option uds_index_session :=
  if 0 <? request_count s then None else Some s.

(** [uds_flush_index_session]; [wait_for_idle_index] changes nothing the
    session holds. *)
Definition uds_flush_index_session (s : uds_index_session)
    : option (status * uds_index_session) :=
  s ← wait_for_no_requests_in_progress s;
  Some (UDS_SUCCESS, s).

(** [uds_save_index]; it reads [index_session->index] without a test:
    with no index there is no result. *)
Definition uds_save_index (s : uds_index_session)
    : option (status * uds_index_session) :=
  s ← wait_for_no_requests_in_progress s;
  index ← session_index s;
  let '(result, index) := save_index index in
  Some (result, with_session_index (Some index) s).

(** The end of the three paths of [uds_suspend_index_session] that change
    the state after the lock was dropped. *)
Definition now_suspended (s : uds_index_session) : uds_index_session :=
  set_flag IS_SUSPENDED (clear_flag IS_WAITING s).

(** [uds_suspend_index_session].  A wait for [IS_FLAG_CLOSING] to be
    cleared by the closing thread gives [None]. *)
Definition uds_suspend_index_session (save : bool) (s : uds_index_session)
    : option (status * uds_index_session) :=
  if has_flag IS_CLOSING s then None
  else if has_flag IS_WAITING s || has_flag IS_DESTROYING s
  then Some (uds_map_to_system_error EBUSY_NEG, s)
  else if has_flag IS_SUSPENDED s
  then Some (uds_map_to_system_error UDS_SUCCESS, s)
  else if has_flag IS_LOADING s
  then
    (* suspend_index *)
    let s := set_flag IS_WAITING s in
    let ctx := session_load_context s in
    ctx ←
      match load_status ctx with
      | INDEX_OPENING =>
          wait_for_load_status
            (fun st => match st with
                       | INDEX_SUSPENDED | INDEX_READY => true
                       | _ => false
                       end)
            (load_wakeups ctx) INDEX_SUSPENDING
      | _ => Some ctx
      end;
    Some (UDS_SUCCESS, now_suspended (with_session_load_context ctx s))
  else
    let flush (s : uds_index_session) :=
      match session_index s with
      | Some _ =>
          '(result, s) ← uds_flush_index_session (set_flag IS_WAITING s);
          Some (uds_map_to_system_error result, now_suspended s)
      | None =>
          Some (uds_map_to_system_error UDS_SUCCESS, set_flag IS_SUSPENDED s)
      end in
    if negb (has_flag IS_LOADED s) then flush s
    else if save
    then
      '(result, s) ← uds_save_index (set_flag IS_WAITING s);
      Some (uds_map_to_system_error result, now_suspended s)
    else flush s.

Definition uds_resume_index_session (s : uds_index_session)
    : status * uds_index_session :=
  if has_flag IS_WAITING s then (EBUSY_NEG, s)
  else if negb (has_flag IS_SUSPENDED s) then (UDS_SUCCESS, s)
  else if negb (has_flag IS_LOADING s)
  then (UDS_SUCCESS, clear_flag IS_SUSPENDED s)
  else
    let s := set_flag IS_WAITING s in
    let ctx := session_load_context s in
    let ctx :=
      match load_status ctx with
      | INDEX_SUSPENDED =>
          {| load_status := INDEX_OPENING; load_wakeups := load_wakeups ctx |}
      | _ => ctx
      end in
    (UDS_SUCCESS,
     clear_flag IS_SUSPENDED
       (clear_flag IS_WAITING (with_session_load_context ctx s))).

(** [save_and_free_index]: the index is saved unless the session is
    suspended, then freed; of the state only the suspend bit stays. *)
Definition save_and_free_index (s : uds_index_session)
    : status * uds_index_session :=
  match session_index s with
  | None => (UDS_SUCCESS, s)
  | Some index =>
      let result :=
        if has_flag IS_SUSPENDED s then UDS_SUCCESS
        else fst (save_index index) in
      let s := with_session_index None s in
      let s :=
        with_session_load_context
          {| load_status := INDEX_OPENING;
             load_wakeups := load_wakeups (session_load_context s) |} s in
      (result, with_state (Z.land (state s) (IS_FLAG IS_SUSPENDED)) s)
  end.

(** [uds_close_index].  The wait for a pending suspend, resume or close
    gives [None]. *)
Definition uds_close_index (s : uds_index_session)
    : option (status * uds_index_session) :=
  if has_flag IS_WAITING s || has_flag IS_CLOSING s then None
  else if has_flag IS_SUSPENDED s
  then Some (uds_map_to_system_error EBUSY_NEG, s)
  else if has_flag IS_DESTROYING s || negb (has_flag IS_LOADED s)
  then Some (uds_map_to_system_error UDS_NO_INDEX, s)
  else
    let s := set_flag IS_CLOSING s in
    s ← wait_for_no_requests_in_progress s;
    let '(result, s) := save_and_free_index s in
    Some (uds_map_to_system_error result, clear_flag IS_CLOSING s).

(** The flags are distinct bits of the state word. *)
Definition flags_are_bits : Prop :=
  (forall f, 0 <= flag_bit f) /\
  (forall f g, flag_bit f = flag_bit g -> f = g).

End IndexSession.

(** * errors.c: the registry of error blocks *)

From Stdlib Require String.
Import String.StringSyntax.

(** [struct error_info] and [struct error_block].  [block_infos] is the
    array [infos] points to. *)
Record error_info : Type := {
  info_name : String.string;
  info_message : String.string
}.

Record error_block : Type := {
  block_name : String.string;
  block_base : Z;
  block_last : Z;
  block_max : Z;
  block_infos : list error_info
}.

(** [registered_errors]: [count] is the length of [blocks]. *)
Record error_information : Type := {
  blocks_allocated : nat;
  blocks : list error_block
}.

Local Open Scope string_scope.

Definition successful : error_info :=
  {| info_name := "UDS_SUCCESS"; info_message := "Success" |}.

Local Close Scope string_scope.

(** [UDS_ALREADY_REGISTERED]: entry 20 of [internal_error_list]; the
    codes of that list are written 1000 + their entry here. *)
Definition UDS_ALREADY_REGISTERED : status := UDS_OTHER_ERROR 1020.

(** The loop of [get_error_info] over the registered blocks: the name of
    the block and [*info_ptr]. *)
Fixpoint find_error_block (errnum : Z) (bs : list error_block)
    : option String.string * option error_info :=
  match bs with
  | [] => (None, None)
  | block :: rest =>
      if (block_base block <=? errnum) && (errnum <? block_last block)
      then (Some (block_name block),
            nth_error (block_infos block)
              (Z.to_nat (errnum - block_base block)))
      else if (block_last block <=? errnum) && (errnum <? block_max block)
      then (Some (block_name block), None)
      else find_error_block errnum rest
  end.

(** [get_error_info]; [UDS_SUCCESS] is 0. *)
Definition get_error_info (errnum : Z) (registered : error_information)
    : option String.string * option error_info :=
  if errnum =? 0 then (None, Some successful)
  else find_error_block errnum (blocks registered).

(** The loop of [register_error_block] over the registered blocks: the
    error it stops with, if any. *)
Fixpoint check_error_blocks (name : String.string)
    (first_error last_reserved_error : Z) (bs : list error_block)
    : option status :=
  match bs with
  | [] => None
  | block :: rest =>
      if String.eqb name (block_name block) then Some UDS_DUPLICATE_NAME
      else if (first_error <? block_max block)
              && (block_base block <? last_reserved_error)
      then Some UDS_ALREADY_REGISTERED
      else check_error_blocks name first_error last_reserved_error rest
  end.

(** [register_error_block]; [info_size / sizeof(struct error_info)] is the
    length of [infos]. *)
Definition register_error_block (name : String.string)
    (first_error last_reserved_error : Z) (infos : list error_info)
    (registered : error_information) : status * error_information :=
  let result := ASSERT (first_error <? last_reserved_error) in
  if negb (is_success result) then (result, registered)
  else if Nat.eqb (length (blocks registered)) (blocks_allocated registered)
  then (UDS_OVERFLOW, registered)
  else
    match check_error_blocks name first_error last_reserved_error
            (blocks registered) with
    | Some e => (e, registered)
    | None =>
        (UDS_SUCCESS,
         {| blocks_allocated := blocks_allocated registered;
            blocks :=
              blocks registered
              ++ [{| block_name := name;
                     block_base := first_error;
                     block_last := first_error + Z.of_nat (length infos);
                     block_max := last_reserved_error;
                     block_infos := infos |}] |})
    end.

(** A block whose infos fill the start of its reserved range. *)
Definition block_ok (b : error_block) : Prop :=
  block_last b = block_base b + Z.of_nat (length (block_infos b))
  /\ block_last b <= block_max b.

(** The reserved ranges of two blocks do not meet, and their names
    differ. *)
Definition blocks_apart (a b : error_block) : Prop :=
  (block_max a <= block_base b \/ block_max b <= block_base a)
  /\ block_name a <> block_name b.

Fixpoint registry_ok (bs : list error_block) : Prop :=
  match bs with
  | [] => True
  | b :: rest =>
      block_ok b /\ Forall (blocks_apart b) rest /\ registry_ok rest
  end.

(** * memoryAlloc.h: the size of an allocation *)

(** [uds_do_allocation]: the size it asks [uds_allocate_memory] for.
    [size_t] arithmetic wraps at [SIZE_MAX + 1]; [SIZE_MAX] is the
    platform's and [allocate] stands for [uds_allocate_memory], which is
    only declared in the tree. *)
Definition uds_do_allocation {A : Type} (SIZE_MAX : Z) (allocate : Z -> A)
    (count size extra : Z) : A :=
  let total_size := (count * size + extra) mod (SIZE_MAX + 1) in
  let total_size :=
    if (0 <? size) && ((SIZE_MAX - extra) / size <? count)
    then SIZE_MAX
    else total_size in
  allocate total_size.

(** * Concrete inputs for the further properties *)

Module MoreSamples.
Import Sample.

Definition query (name : uds_chunk_name) (zone : nat) : uds_request :=
  {| chunk_name := name; new_metadata := 0; old_metadata := 0;
     request_type := UDS_QUERY; update := false; requeued := false;
     zone_number := zone; location := UDS_LOCATION_UNKNOWN; found := false;
     request_status := UDS_SUCCESS; router := true; has_callback := true;
     zone_message := no_message |}.


Definition sample_router : index_router :=
  {| router_index := fresh_index 2 64 UDS_SUCCESS;
     router_zone_queues := [[]; []];
     router_triage_queue := None;
     router_need_to_save := false |}.

(** The flags in the bits 0 to 6 of the state word, a 32-bit count of
    requests, and a [uds_map_to_system_error] that maps [UDS_QUEUED] and
    the codes of the index to themselves. *)
#[export] Instance session_constants : SessionConstants := {|
  flag_bit :=
    fun f =>
      match f with
      | IS_LOADED => 0 | IS_LOADING => 1 | IS_DISABLED => 2
      | IS_SUSPENDED => 3 | IS_WAITING => 4 | IS_CLOSING => 5
      | IS_DESTROYING => 6
      end;
  uds_map_to_system_error := fun r => r;
  REQUEST_COUNT_MODULUS := 2 ^ 32
|}.

(** A session in the state [st] with no request in progress. *)
Definition session_in (st : Z) (index : option uds_index)
    (wakeups : list index_suspend_status) : uds_index_session :=
  {| state := st; request_count := 0; session_index := index;
     session_load_context :=
       {| load_status := INDEX_OPENING; load_wakeups := wakeups |} |}.

Definition info (n : nat) : error_info :=
  {| info_name := String.String (Ascii.ascii_of_nat (65 + n)) String.EmptyString;
     info_message := String.EmptyString |}.

Definition block (name : nat) (base last max : Z) (infos : list error_info)
    : error_block :=
  {| block_name := String.String (Ascii.ascii_of_nat (65 + name)) String.EmptyString;
     block_base := base; block_last := last; block_max := max;
     block_infos := infos |}.

(** A registry of two blocks, as errors.c starts with, with room for
    four more. *)
Definition two_blocks : error_information :=
  {| blocks_allocated := 6;
     blocks := [block 0 1024 1026 2048 [info 0; info 1];
                block 1 66560 66561 67584 [info 2]] |}.

End MoreSamples.

(** The interface implemented as in [Sample], over a store that refuses
    every save. *)
Module FullDisk.
Import Sample.

#[export] Instance components : Components := {|
  OpenChapterZone := open_chapter_t;
  open_chapter_size := fun oc => length (oc_records oc);
  put_open_chapter := oc_put;
  search_open_chapter := oc_search;
  remove_from_open_chapter := oc_remove;
  reset_open_chapter := oc_reset;
  VolumeIndex := volume_index_t;
  get_volume_index_record := vi_get;
  put_volume_index_record := vi_put;
  set_volume_index_record_chapter := vi_set_chapter;
  remove_volume_index_record := vi_remove;
  is_volume_index_sample := vi_is_sample;
  lookup_volume_index_name := vi_lookup;
  set_volume_index_zone_open_chapter :=
    fun vi _ chapter => vi_set_open_chapter vi chapter;
  set_volume_index_open_chapter := vi_set_open_chapter;
  get_volume_index_zone := vi_zone;
  is_sparse := geometry_is_sparse;
  is_chapter_sparse := geometry_is_chapter_sparse;
  chapters_to_expire := geometry_chapters_to_expire;
  map_to_physical_chapter := geometry_physical_chapter;
  map_to_physical_page := geometry_physical_page;
  ChapterWriter := chapter_writer_t;
  finish_previous_chapter := writer_finish;
  start_closing_chapter := writer_start_closing;
  IndexCheckpoint := status;
  IndexState := unit;
  process_checkpointing :=
    fun cp st image prev _ _ => (cp, cp, st, (image_last_save image, prev));
  Volume := volume_t;
  forget_chapter := fun v _ _ => (forget_answer v, v);
  search_volume_page_cache := fun v _ _ _ _ => (page_cache_answer v, v);
  search_cached_record_page := fun v _ _ _ _ => (record_page_answer v, v);
  sparse_cache_contains :=
    fun v chapter _ => existsb (Z.eqb chapter) (cached_chapters v);
  search_sparse_cache := fun v _ _ _ _ chapter => sparse_cache_search v chapter;
  update_sparse_cache :=
    fun v _ _ _ chapter =>
      (update_cache_answer v,
       volume_with_cached (chapter :: cached_chapters v) v);
  get_volume_index_page := fun v _ _ page => (UDS_SUCCESS, (page, page), v);
  get_volume_record_page := fun v _ _ _ => (UDS_SUCCESS, page_names v, v);
  prefetch_volume_pages := fun v _ _ => v;
  find_volume_chapter_boundaries := fun v _ => (boundaries_answer v, v);
  update_index_page_map := fun v _ _ _ _ => (UDS_SUCCESS, v);
  get_last_update := fun _ => 0;
  load_index_state := fun _ => (UDS_OTHER_ERROR 1, empty_image);
  save_index_state := fun st _ => (UDS_OTHER_ERROR 28, st);
  discard_index_state_data := fun st => st
|}.

(** A one-zone index in its fourth chapter, last saved at chapter 1. *)
Definition unsaved_index : uds_index :=
  {| zones :=
       [{| open_chapter := {| oc_capacity := 64; oc_records := [] |};
           writing_chapter := {| oc_capacity := 64; oc_records := [] |};
           oldest_virtual_chapter := 0;
           newest_virtual_chapter := 3 |}];
     volume_index := empty_volume_index 1;
     volume := quiet_volume;
     lookup_mode := LOOKUP_NORMAL;
     index_geometry := scenario_geometry;
     chapter_writer :=
       {| writer_result := UDS_SUCCESS; zones_to_write := O;
          writer_zones := 1 |};
     checkpoint := UDS_SUCCESS;
     index_state := tt;
     zone_queues := [[]];
     triage_queue := None;
     index_oldest_virtual_chapter := 0;
     index_newest_virtual_chapter := 3;
     last_save := 1; prev_save := 0;
     loaded_type := LOAD_LOAD;
     load_context := None;
     need_to_save := true;
     has_saved_open_chapter := true |}.

End FullDisk.


(** * Properties *)

Section EngineFacts.
Context {C : Components}.

Lemma is_success_true r : is_success r = true <-> r = UDS_SUCCESS.
Proof. destruct r; simpl; split; intros H; try discriminate; reflexivity. Qed.

Lemma is_success_false r : is_success r = false <-> r <> UDS_SUCCESS.
Proof.
  destruct r; simpl; split; intros H; try discriminate; try congruence;
    exfalso; apply H; reflexivity.
Qed.

Lemma region_eqb_eq a b : uds_index_region_eqb a b = true <-> a = b.
Proof. destruct a, b; simpl; split; intros H; try discriminate; reflexivity. Qed.

Lemma region_eqb_neq a b : uds_index_region_eqb a b = false <-> a <> b.
Proof.
  destruct a, b; simpl; split; intros H; try discriminate; try congruence;
    exfalso; apply H; reflexivity.
Qed.

(** ** What replay leaves alone *)

Lemma same_core_refl a : same_core a a.
Proof. repeat split. Qed.

Lemma same_core_trans a b c : same_core a b -> same_core b c -> same_core a c.
Proof.
  intros (H1 & H2 & H3 & H4 & H5) (G1 & G2 & G3 & G4 & G5).
  repeat split; congruence.
Qed.

Lemma same_zones_refl a : same_zones a a.
Proof. repeat split. Qed.

Lemma same_zones_trans a b c : same_zones a b -> same_zones b c -> same_zones a c.
Proof.
  intros (H1 & H2 & H3 & H4) (G1 & G2 & G3 & G4).
  repeat split; congruence.
Qed.

Lemma same_core_zones a b : same_core a b -> same_zones a b.
Proof. intros (H1 & H2 & H3 & H4 & H5). repeat split; assumption. Qed.

Lemma rebuild_index_page_map_loop_body_same index vcn chapter page expected
    r expected' index' :
  rebuild_index_page_map_loop_body index vcn chapter page expected
    = (r, expected', index') ->
  same_core index index'.
Proof.
  unfold rebuild_index_page_map_loop_body. intros H.
  repeat
    match type of H with
    | context [let '(_, _) := ?e in _] => destruct e
    | context [if ?b then _ else _] => destruct b
    | (_, _) = (_, _) => inversion H; subst; clear H
    end; repeat split; reflexivity.
Qed.

Lemma rebuild_index_page_map_loop_same pages :
  forall index vcn chapter expected r index',
    rebuild_index_page_map_loop pages index vcn chapter expected = (r, index') ->
    same_core index index'.
Proof.
  induction pages as [| p rest IH]; intros index vcn chapter expected r index' H;
    simpl in H.
  - inversion H; subst. apply same_core_refl.
  - destruct (rebuild_index_page_map_loop_body index vcn chapter p expected)
      as [[r1 e1] i1] eqn:Hbody.
    apply rebuild_index_page_map_loop_body_same in Hbody.
    destruct (negb (is_success r1)).
    + inversion H; subst. exact Hbody.
    + apply IH in H. eapply same_core_trans; eassumption.
Qed.

Lemma replay_decide_same index record name vcn d index' :
  replay_decide index record name vcn = (d, index') -> same_core index index'.
Proof.
  unfold replay_decide. intros H.
  destruct (is_found record); [| inversion H; subst; apply same_core_refl].
  destruct (is_collision record).
  - destruct (record_virtual_chapter record =? vcn); inversion H; subst;
      apply same_core_refl.
  - destruct (record_virtual_chapter record =? vcn);
      [inversion H; subst; apply same_core_refl |].
    destruct (search_volume_page_cache _ _ _ _ _) as [[r1 o] v].
    destruct (negb (is_success r1)); inversion H; subst; repeat split.
Qed.

Lemma replay_write_same index record u vcn r index' :
  replay_write index record u vcn = (r, index') -> same_core index index'.
Proof.
  unfold replay_write. intros H.
  destruct (if u then _ else _) as [r1 vi].
  destruct (status_eqb r1 UDS_DUPLICATE_NAME || status_eqb r1 UDS_OVERFLOW);
    inversion H; subst; repeat split.
Qed.

Lemma replay_record_same index name vcn sparse r index' :
  replay_record index name vcn sparse = (r, index') -> same_core index index'.
Proof.
  unfold replay_record. intros H.
  destruct (sparse && _); [inversion H; subst; apply same_core_refl |].
  destruct (get_volume_index_record _ _) as [r1 record].
  destruct (negb (is_success r1)); [inversion H; subst; apply same_core_refl |].
  destruct (replay_decide index record name vcn) as [d i1] eqn:Hd.
  apply replay_decide_same in Hd.
  destruct d as [r2 | u].
  - inversion H; subst. exact Hd.
  - apply replay_write_same in H. eapply same_core_trans; eassumption.
Qed.

Lemma replay_page_records_same slots : forall page vcn sparse index r index',
  replay_page_records slots page vcn sparse index = (r, index') ->
  same_core index index'.
Proof.
  induction slots as [| k rest IH]; intros page vcn sparse index r index' H;
    simpl in H.
  - inversion H; subst. apply same_core_refl.
  - destruct (replay_record index (page k) vcn sparse) as [r1 i1] eqn:Hrec.
    apply replay_record_same in Hrec.
    destruct (negb (is_success r1)).
    + inversion H; subst. exact Hrec.
    + apply IH in H. eapply same_core_trans; eassumption.
Qed.

Lemma replay_record_pages_same pages : forall chapter vcn sparse index r index',
  replay_record_pages pages chapter vcn sparse index = (r, index') ->
  same_core index index'.
Proof.
  induction pages as [| j rest IH]; intros chapter vcn sparse index r index' H;
    simpl in H.
  - inversion H; subst. apply same_core_refl.
  - destruct (get_volume_record_page _ _ _ _) as [[r1 page] v].
    destruct (negb (is_success r1)).
    + inversion H; subst. repeat split.
    + destruct (replay_page_records _ _ _ _ _) as [r2 i2] eqn:Hp.
      apply replay_page_records_same in Hp.
      destruct (negb (is_success r2)).
      * inversion H; subst. eapply same_core_trans; [| exact Hp]. repeat split.
      * apply IH in H.
        eapply same_core_trans; [| exact H].
        eapply same_core_trans; [| exact Hp]. repeat split.
Qed.

Lemma replay_chapter_same index from_vcn upto_vcn vcn mode r index' :
  replay_chapter index from_vcn upto_vcn vcn mode = (r, index') ->
  same_core index index'.
Proof.
  unfold replay_chapter, rebuild_index_page_map. intros H.
  destruct (rebuild_index_page_map_loop _ _ _ _ _) as [r1 i1] eqn:H1.
  apply rebuild_index_page_map_loop_same in H1.
  assert (Hstart : same_core index i1).
  { eapply same_core_trans; [| exact H1]. repeat split. }
  destruct (negb (is_success r1)).
  - inversion H; subst. eapply same_core_trans; [exact Hstart |]. repeat split.
  - simpl in H.
    destruct (replay_record_pages _ _ _ _ _) as [r2 i2] eqn:H2.
    apply replay_record_pages_same in H2.
    assert (Hmid : same_core index i2)
      by (eapply same_core_trans; eassumption).
    destruct (negb (is_success r2)); inversion H; subst.
    + eapply same_core_trans; [exact Hmid |]. repeat split.
    + exact Hmid.
Qed.

Lemma check_for_suspend_same index b index' :
  check_for_suspend index = Some (b, index') -> same_zones index index'.
Proof.
  unfold check_for_suspend. intros H.
  destruct (load_context index) as [ctx |]; [| inversion H; subst; repeat split].
  destruct (load_status (lock_load_context ctx));
    try (inversion H; subst; repeat split; reflexivity).
  destruct (wait_for_resume _ _) as [ctx' |]; simpl in H; [| discriminate].
  inversion H; subst. repeat split.
Qed.

Lemma replay_chapters_same count :
  forall vcn from_vcn upto_vcn mode index r index',
    replay_chapters count vcn from_vcn upto_vcn mode index = Some (r, index') ->
    same_zones index index'.
Proof.
  induction count as [| n IH]; intros vcn from_vcn upto_vcn mode index r index' H;
    simpl in H.
  - inversion H; subst. apply same_zones_refl.
  - destruct (check_for_suspend index) as [[b i1] |] eqn:Hc; simpl in H;
      [| discriminate].
    apply check_for_suspend_same in Hc.
    destruct b; [inversion H; subst; exact Hc |].
    destruct (replay_chapter i1 from_vcn upto_vcn vcn mode) as [r2 i2] eqn:H2.
    apply replay_chapter_same, same_core_zones in H2.
    destruct (negb (is_success r2)).
    + inversion H; subst. eapply same_zones_trans; eassumption.
    + apply IH in H.
      eapply same_zones_trans; [| exact H].
      eapply same_zones_trans; eassumption.
Qed.

Lemma replay_volume_same index from_vcn r index' :
  replay_volume index from_vcn = Some (r, index') -> same_zones index index'.
Proof.
  unfold replay_volume. intros H.
  destruct (replay_chapters _ _ _ _ _ _) as [[r1 i1] |] eqn:H1; simpl in H;
    [| discriminate].
  apply replay_chapters_same in H1.
  assert (Hstart : same_zones index i1).
  { eapply same_zones_trans; [| exact H1]. repeat split. }
  destruct (negb (is_success r1)); inversion H; subst.
  - exact Hstart.
  - eapply same_zones_trans; [exact Hstart |]. repeat split.
Qed.



(** ** Rebuild: the window taken from the chapter boundaries *)

Lemma wrap64_range x : 0 <= wrap64 x <= UINT64_MAX.
Proof.
  unfold wrap64, UINT64_MAX.
  pose proof (Z.mod_pos_bound x (2 ^ 64) ltac:(lia)). lia.
Qed.

Lemma wrap64_small x : is_u64 x -> wrap64 x = x.
Proof.
  unfold is_u64, wrap64, UINT64_MAX. intros H. apply Z.mod_small. lia.
Qed.

(** The test [newest == oldest + num_chapters] of [rebuild_index] is the
    test that the window [newest - oldest] equals [num_chapters]. *)
Lemma shadow_test newest oldest n :
  is_u64 newest -> is_u64 oldest -> is_u64 n ->
  (newest =? add64 oldest n) = (sub64 newest oldest =? n).
Proof.
  unfold is_u64, add64, sub64, wrap64, UINT64_MAX.
  change (2 ^ 64) with 18446744073709551616.
  intros Hn Ho Hc.
  destruct (Z.eqb_spec newest ((oldest + n) mod 18446744073709551616))
    as [E | E];
    destruct (Z.eqb_spec ((newest - oldest) mod 18446744073709551616) n)
      as [F | F]; try reflexivity; exfalso.
  - apply F. clear F. Z.div_mod_to_equations. lia.
  - apply E. clear E. Z.div_mod_to_equations. lia.
Qed.


(** ** Triage: barriers before the request *)

Lemma enqueue_on_zone_lookup z r (queues : list (list uds_request)) i :
  enqueue_on_zone z r queues !! i
  = if Nat.eqb i z
    then option_map (fun q => q ++ [r]) (queues !! i)
    else queues !! i.
Proof.
  unfold enqueue_on_zone.
  destruct (Nat.eqb_spec i z) as [-> | Hne].
  - destruct (queues !! z) as [q |] eqn:Hq; simpl.
    + apply list_lookup_insert_eq. eapply lookup_lt_Some. exact Hq.
    + exact Hq.
  - destruct (queues !! z) as [q |]; [| reflexivity].
    apply list_lookup_insert_ne. congruence.
Qed.




(** ** Dispatch: the location of a completed request *)

Lemma handle_callbacks_found request :
  has_callback request = true ->
  found (handle_callbacks request)
    = negb (uds_index_region_eqb (location request) UDS_LOCATION_UNAVAILABLE)
  /\ location (handle_callbacks request) = location request.
Proof. intros H. unfold handle_callbacks. rewrite H. split; reflexivity. Qed.

(** What [dispatch_index_request] does to the location.  A request handed
    to its callback has [found] equal to
    [location != UDS_LOCATION_UNAVAILABLE].  When the dispatch gets past
    the simulated barrier (the request was requeued, or
    [simulate_index_zone_barrier_message] returned [UDS_SUCCESS]) the
    location it returns is not [UDS_LOCATION_UNKNOWN].  When the simulated
    barrier fails, the dispatch returns its error at once and leaves the
    request, its location included, as it was on entry. *)
Lemma dispatch_location_past_barrier fuel indeterminate request index
    result request' index' :
  dispatch_index_request fuel indeterminate request index
    = Some (result, request', index') ->
  (has_callback request' = true ->
   found (handle_callbacks request')
     = negb (uds_index_region_eqb (location request')
               UDS_LOCATION_UNAVAILABLE))
  /\ (requeued request = true \/
      (exists i, simulate_index_zone_barrier_message (zone_number request)
                   request index = Some (UDS_SUCCESS, i)) ->
      location request' <> UDS_LOCATION_UNKNOWN)
  /\ (forall r i,
        requeued request = false ->
        simulate_index_zone_barrier_message (zone_number request)
          request index = Some (r, i) ->
        r <> UDS_SUCCESS ->
        result = r /\ request' = request /\ index' = i).
Proof.
  intros Hrun.
  split; [intros Hcb; apply (handle_callbacks_found _ Hcb) |].
  unfold dispatch_index_request in Hrun.
  split.
  - intros Hpast.
    assert (Hgo :
      exists i, (if negb (requeued request)
                 then simulate_index_zone_barrier_message (zone_number request)
                        request index
                 else Some (UDS_SUCCESS, index)) = Some (UDS_SUCCESS, i)).
    { destruct Hpast as [Hq | [i Hi]].
      - rewrite Hq. simpl. eauto.
      - destruct (requeued request); simpl; eauto. }
    destruct Hgo as [i Hi]. rewrite Hi in Hrun. simpl in Hrun.
    match type of Hrun with
    | match ?m with _ => _ end = _ => destruct m as [[[r q] j]|] eqn:Hm
    end; [| discriminate].
    destruct (uds_index_region_eqb (location q) UDS_LOCATION_UNKNOWN) eqn:Hloc;
      inversion Hrun; subst; simpl.
    + discriminate.
    + apply region_eqb_neq. exact Hloc.
  - intros r i Hq Hsim Hr.
    rewrite Hq, Hsim in Hrun. simpl in Hrun.
    apply is_success_false in Hr. rewrite Hr in Hrun. simpl in Hrun.
    inversion Hrun; subst. auto.
Qed.

(** ** Delete: what a request that finds nothing leaves alone *)

Lemma search_sparse_cache_in_zone_frame z request vcn f index r f' request' index' :
  search_sparse_cache_in_zone z request vcn f index
    = Some (r, f', request', index') ->
  volume_index index' = volume_index index /\ zones index' = zones index.
Proof.
  unfold search_sparse_cache_in_zone. intros H.
  destruct (zones index !! z) as [zone |]; simpl in H; [| discriminate].
  destruct (search_sparse_cache _ _ _ _ _ _) as [[[r1 c] p] v].
  destruct (negb (is_success r1) || (c =? UINT64_MAX)).
  - inversion H; subst. split; reflexivity.
  - destruct (search_cached_record_page _ _ _ _ _) as [[r2 o] v2].
    destruct (record_search o request) as [f2 q2].
    inversion H; subst. split; reflexivity.
Qed.

Lemma get_record_from_zone_frame z request f vcn index r f' request' index' :
  get_record_from_zone z request f vcn index = Some (r, f', request', index') ->
  volume_index index' = volume_index index /\ zones index' = zones index.
Proof.
  unfold get_record_from_zone. intros H.
  destruct (zones index !! z) as [zone |]; simpl in H; [| discriminate].
  destruct (vcn =? newest_virtual_chapter zone).
  { destruct (record_search _ request). inversion H; subst. auto. }
  destruct (_ && _ && _).
  { destruct (record_search _ request). inversion H; subst. auto. }
  destruct (negb (uds_index_region_eqb _ _)).
  { inversion H; subst. auto. }
  destruct (_ && _).
  { eapply search_sparse_cache_in_zone_frame. exact H. }
  destruct (search_volume_page_cache _ _ _ _ _) as [[r1 o] v].
  destruct (record_search o request). inversion H; subst. auto.
Qed.

(** A delete that does not find the name in the volume index, or that, for
    an entry that is no collision entry, gets [found = false] back from the
    search of the chapter, returns [UDS_SUCCESS] and leaves the volume index
    and the zones, the open chapters with them, as they were. *)
Lemma remove_from_index_zone_frame indeterminate z request index record :
  get_volume_index_record (volume_index index) (chunk_name request)
    = (UDS_SUCCESS, record) ->
  (is_found record = false ->
   remove_from_index_zone indeterminate z request index
     = Some (UDS_SUCCESS, request, index))
  /\ (forall request' index',
        is_found record = true -> is_collision record = false ->
        get_record_from_zone z request indeterminate
          (record_virtual_chapter record) index
          = Some (UDS_SUCCESS, false, request', index') ->
        remove_from_index_zone indeterminate z request index
          = Some (UDS_SUCCESS, request', index')
        /\ volume_index index' = volume_index index
        /\ zones index' = zones index).
Proof.
  intros Hget. unfold remove_from_index_zone. rewrite Hget. simpl.
  split.
  - intros Hf. rewrite Hf. reflexivity.
  - intros request' index' Hf Hc Hsearch.
    rewrite Hf, Hc, Hsearch. simpl.
    split; [reflexivity |].
    eapply get_record_from_zone_frame. exact Hsearch.
Qed.

(** The value [found] holds on entry does not matter to a search of a
    named chapter that succeeds: every path writes it, the search of the
    sparse cache too once it answers for a chapter. *)
Lemma search_sparse_cache_in_zone_flag z request chapter b b' index :
  sparse_search_names_chapter ->
  chapter <> UINT64_MAX ->
  match search_sparse_cache_in_zone z request chapter b index,
        search_sparse_cache_in_zone z request chapter b' index with
  | Some (r, f, q, i), Some (r', f', q', i') =>
      r' = r /\ q' = q /\ i' = i /\ (r = UDS_SUCCESS -> f' = f)
  | None, None => True
  | _, _ => False
  end.
Proof.
  intros Hnames Hchapter. unfold search_sparse_cache_in_zone.
  destruct (zones index !! z) as [zone |]; simpl; [| exact I].
  destruct (search_sparse_cache _ _ _ _ _ _) as [[[r1 c] p] v] eqn:Hs.
  apply Hnames in Hs; [| exact Hchapter].
  apply Z.eqb_neq in Hs. rewrite Hs, orb_false_r.
  destruct (is_success r1) eqn:Hr1; simpl.
  - destruct (search_cached_record_page _ _ _ _ _) as [[r2 o] v2].
    destruct (record_search o request) as [f2 q2]. auto.
  - repeat split. intros E. subst r1. discriminate.
Qed.

Lemma get_record_from_zone_flag z request chapter b b' index :
  sparse_search_names_chapter ->
  chapter <> UINT64_MAX ->
  match get_record_from_zone z request b chapter index,
        get_record_from_zone z request b' chapter index with
  | Some (r, f, q, i), Some (r', f', q', i') =>
      r' = r /\ q' = q /\ i' = i /\ (r = UDS_SUCCESS -> f' = f)
  | None, None => True
  | _, _ => False
  end.
Proof.
  intros Hnames Hchapter. unfold get_record_from_zone.
  destruct (zones index !! z) as [zone |]; simpl; [| exact I].
  destruct (chapter =? newest_virtual_chapter zone).
  { destruct (record_search _ request). auto. }
  destruct (_ && _ && _).
  { destruct (record_search _ request). auto. }
  destruct (negb (uds_index_region_eqb _ _)); [auto |].
  destruct (_ && _).
  { apply search_sparse_cache_in_zone_flag; assumption. }
  destruct (search_volume_page_cache _ _ _ _ _) as [[r1 o] v].
  destruct (record_search o request). auto.
Qed.

Lemma get_record_from_zone_total z request f chapter index zone :
  zones index !! z = Some zone ->
  exists r f' q i, get_record_from_zone z request f chapter index = Some (r, f', q, i).
Proof.
  intros Hz. unfold get_record_from_zone, search_sparse_cache_in_zone.
  rewrite Hz. simpl.
  destruct (chapter =? _); [destruct (record_search _ _); eauto |].
  destruct (_ && _ && _); [destruct (record_search _ _); eauto |].
  destruct (negb _); [eauto |].
  destruct (_ && _).
  - destruct (search_sparse_cache _ _ _ _ _ _) as [[[r1 c] p] v].
    destruct (_ || _); [eauto |].
    destruct (search_cached_record_page _ _ _ _ _) as [[r2 o] v2].
    destruct (record_search _ _). eauto.
  - destruct (search_volume_page_cache _ _ _ _ _) as [[r1 o] v].
    destruct (record_search _ _). eauto.
Qed.

(** C10. A DELETE, for a sparse cache that answers for a chapter when it
    is asked about one and a volume-index record whose chapter is not
    [UINT64_MAX].  [remove_from_index_zone] returns, and what it returns
    does not depend on the value its variable [found], which has no
    initializer, holds on entry.  When the volume index does not hold the
    name, it returns [UDS_SUCCESS] with the request and the index as they
    were.  When the volume index holds a hint (no collision entry) and the
    search of the cited chapter finds no record, it returns [UDS_SUCCESS]
    and the volume index and the zones, the open chapters with them, are as
    they were.  The volume index or a zone is changed only when the volume
    index holds the name and either the entry is a collision entry or the
    search of the cited chapter found the record. *)
Theorem delete_without_record_changes_nothing indeterminate z request index
    zone record :
  sparse_search_names_chapter ->
  zones index !! z = Some zone ->
  get_volume_index_record (volume_index index) (chunk_name request)
    = (UDS_SUCCESS, record) ->
  record_virtual_chapter record <> UINT64_MAX ->
  exists r request' index',
    remove_from_index_zone indeterminate z request index
      = Some (r, request', index')
    /\ remove_from_index_zone (negb indeterminate) z request index
       = Some (r, request', index')
    /\ (is_found record = false ->
        r = UDS_SUCCESS /\ request' = request /\ index' = index)
    /\ (forall q i,
          is_found record = true -> is_collision record = false ->
          get_record_from_zone z request indeterminate
            (record_virtual_chapter record) index
            = Some (UDS_SUCCESS, false, q, i) ->
          r = UDS_SUCCESS /\ request' = q /\ index' = i
          /\ volume_index index' = volume_index index
          /\ zones index' = zones index)
    /\ (volume_index index' <> volume_index index
        \/ zones index' <> zones index ->
        is_found record = true
        /\ (is_collision record = true
            \/ exists q i,
                 get_record_from_zone z request indeterminate
                   (record_virtual_chapter record) index
                   = Some (UDS_SUCCESS, true, q, i))).
Proof.
  intros Hnames Hz Hget Hchapter.
  unfold remove_from_index_zone. rewrite Hget. simpl.
  destruct (is_found record) eqn:Hfound; simpl.
  2:{ do 3 eexists. split; [reflexivity |]. split; [reflexivity |].
      split; [auto |]. split; [intros q i E; discriminate |].
      intros [E | E]; contradiction. }
  destruct (is_collision record) eqn:Hcollision; simpl.
  - (* a collision entry: the removal *)
    rewrite Hz. simpl.
    destruct (remove_volume_index_record _ _) as [r1 vi].
    destruct (negb (is_success r1));
      [| destruct (uds_index_region_eqb _ _);
         [destruct (remove_from_open_chapter _ _) as [h oc];
          destruct (negb (is_success (ASSERT h))) |]];
      (do 3 eexists; split; [reflexivity |]; split; [reflexivity |];
       split; [discriminate |]; split; [intros q i _ E; discriminate |];
       intros _; split; [reflexivity | left; reflexivity]).
  - pose proof (get_record_from_zone_flag z request
                  (record_virtual_chapter record) indeterminate
                  (negb indeterminate) index Hnames Hchapter) as Hflag.
    destruct (get_record_from_zone_total z request indeterminate
                (record_virtual_chapter record) index zone Hz)
      as (rs & fs & qs & is_ & Hsearch).
    rewrite Hsearch in Hflag.
    destruct (get_record_from_zone z request (negb indeterminate) _ index)
      as [[[[rs' fs'] qs'] is'] |] eqn:Hsearch'; [| contradiction].
    destruct Hflag as (-> & -> & -> & Hsame).
    rewrite Hsearch.
    destruct (get_record_from_zone_frame _ _ _ _ _ _ _ _ _ Hsearch)
      as [Hvi Hzones].
    destruct (is_success rs) eqn:Hrs; simpl.
    2:{ do 3 eexists. split; [reflexivity |]. split; [reflexivity |].
        split; [discriminate |]. split.
        - intros q i _ _ E. inversion E; subst. discriminate.
        - intros [E | E]; contradiction. }
    apply is_success_true in Hrs. subst rs.
    rewrite (Hsame eq_refl).
    destruct fs; simpl.
    + (* the record is there: the removal *)
      assert (Hzi : zones is_ !! z = Some zone) by (rewrite Hzones; exact Hz).
      rewrite Hzi. simpl.
      destruct (remove_volume_index_record _ _) as [r1 vi].
      destruct (negb (is_success r1));
        [| destruct (uds_index_region_eqb _ _);
           [destruct (remove_from_open_chapter _ _) as [h oc];
            destruct (negb (is_success (ASSERT h))) |]];
        (do 3 eexists; split; [reflexivity |]; split; [reflexivity |];
         split; [discriminate |]; split; [intros q i _ _ E; discriminate |];
         intros _; split; [reflexivity |]; right; eauto).
    + do 3 eexists. split; [reflexivity |]. split; [reflexivity |].
      split; [discriminate |]. split.
      * intros q i _ _ E. inversion E; subst. auto.
      * intros [E | E]; contradiction.
Qed.

(** ** Overflow and duplicate names from the volume index *)

Lemma probe_sparse_cache_frame z request f index r f' request' index' :
  probe_sparse_cache z request f index = Some (r, f', request', index') ->
  volume_index index' = volume_index index /\ zones index' = zones index.
Proof.
  unfold probe_sparse_cache. intros H.
  destruct (_ && _); [| inversion H; subst; auto].
  destruct (search_sparse_cache_in_zone _ _ _ _ _)
    as [[[[r1 f1] q1] i1] |] eqn:Hs; [| discriminate].
  apply search_sparse_cache_in_zone_frame in Hs.
  destruct (negb (is_success r1)); inversion H; subst; exact Hs.
Qed.



(** ** Closing a chapter *)

Lemma add64_succ_neq c : add64 c 1 <> c.
Proof.
  unfold add64, wrap64. change (2 ^ 64) with 18446744073709551616.
  intros H. Z.div_mod_to_equations. lia.
Qed.

Lemma zone_step_trans g c x y w :
  zone_step g c x y -> zone_step g c y w -> zone_step g c x w.
Proof.
  intros [[H1 H2] | (H1 & H2 & H3)] [[G1 G2] | (G1 & G2 & G3)].
  - left. split; congruence.
  - right. repeat split; try congruence.
    destruct G3 as [G3 | (K1 & K2 & K3 & K4)]; [left; congruence |].
    right. repeat split; congruence.
  - right. repeat split; try congruence.
    destruct H3 as [H3 | (K1 & K2 & K3 & K4)]; [left; congruence |].
    right. repeat split; congruence.
  - exfalso. apply (add64_succ_neq c). congruence.
Qed.

Lemma zone_done_trans g c x y w :
  zone_done g c x y -> zone_done g c y w -> zone_done g c x w.
Proof.
  intros [[H1 H2] | (H1 & H2 & H3 & H4)] [[G1 G2] | (G1 & G2 & G3 & G4)].
  - left. split; congruence.
  - right. repeat split; congruence.
  - right. repeat split; congruence.
  - exfalso. apply (add64_succ_neq c). congruence.
Qed.

Lemma zone_done_step g c x y : zone_done g c x y -> zone_step g c x y.
Proof.
  intros [H | H]; [left; exact H |].
  right. destruct H as (H1 & H2 & H3 & H4).
  repeat split; try assumption. right. repeat split; assumption.
Qed.

Lemma Forall2_zone_step_refl g c (zs : list index_zone) :
  Forall2 (zone_step g c) zs zs.
Proof. apply Forall_Forall2_diag, Forall_forall. intros x _. left. split; reflexivity. Qed.

Lemma Forall2_zone_done_refl g c (zs : list index_zone) :
  Forall2 (zone_done g c) zs zs.
Proof. apply Forall_Forall2_diag, Forall_forall. intros x _. left. split; reflexivity. Qed.

Lemma at_chapter_step g c (a b : list index_zone) :
  Forall2 (zone_step g c) a b -> (at_chapter c b <= at_chapter c a)%nat.
Proof.
  unfold at_chapter. induction 1 as [| x y a b Hxy _ IH]; simpl; [lia |].
  destruct Hxy as [[H1 H2] | (H1 & H2 & _)].
  - rewrite H1. destruct (newest_virtual_chapter x =? c); simpl; lia.
  - rewrite H1, H2, Z.eqb_refl.
    replace (add64 c 1 =? c) with false
      by (symmetry; apply Z.eqb_neq, add64_succ_neq).
    simpl. lia.
Qed.

Lemma at_chapter_leave c (zs : list index_zone) z x y :
  zs !! z = Some x ->
  newest_virtual_chapter x = c ->
  newest_virtual_chapter y <> c ->
  S (at_chapter c (<[z := y]> zs)) = at_chapter c zs.
Proof.
  unfold at_chapter. revert z.
  induction zs as [| a zs IH]; intros z Hz Hx Hy; [discriminate |].
  destruct z as [| z]; simpl in *.
  - inversion Hz; subst a.
    rewrite Hx, Z.eqb_refl.
    replace (newest_virtual_chapter y =? c) with false
      by (symmetry; apply Z.eqb_neq; exact Hy).
    reflexivity.
  - destruct (newest_virtual_chapter a =? c); simpl; rewrite <- (IH z); auto.
Qed.


Lemma keeps_index_refl a : keeps_index a a.
Proof. repeat split. Qed.

Lemma keeps_index_trans a b c :
  keeps_index a b -> keeps_index b c -> keeps_index a c.
Proof. intros (H1 & H2 & H3) (G1 & G2 & G3). repeat split; congruence. Qed.

(** [close_open_chapter] on a zone of the index: it returns; either the
    wait for the previous chapter failed and the zones are as they were, or
    the zone holds the next chapter number, with the oldest it had. *)
Lemma close_open_chapter_spec z index zone :
  zones index !! z = Some zone ->
  exists r n index1,
    close_open_chapter z index
      = Some (r, n, newest_virtual_chapter zone, index1)
    /\ keeps_index index index1
    /\ zone_queues index1 = zone_queues index
    /\ ((is_success
           (fst (finish_previous_chapter (chapter_writer index)
                   (newest_virtual_chapter zone))) = false
         /\ r <> UDS_SUCCESS /\ zones index1 = zones index)
        \/ (is_success
              (fst (finish_previous_chapter (chapter_writer index)
                      (newest_virtual_chapter zone))) = true
            /\ exists zone1,
                 zones index1 = <[z := zone1]> (zones index)
                 /\ newest_virtual_chapter zone1
                    = add64 (newest_virtual_chapter zone) 1
                 /\ oldest_virtual_chapter zone1 = oldest_virtual_chapter zone
                 /\ writing_chapter zone1 = open_chapter zone
                 /\ (r = UDS_SUCCESS ->
                     sub64 (add64 (newest_virtual_chapter zone) 1)
                       (oldest_virtual_chapter zone)
                     <= Z.of_nat (chapters_per_volume (index_geometry index))))).
Proof.
  intros Hz.
  assert (Hlt : (z < length (zones index))%nat)
    by (eapply lookup_lt_Some; exact Hz).
  unfold close_open_chapter, swap_open_chapter. rewrite Hz. simpl.
  destruct (finish_previous_chapter (chapter_writer index)
              (newest_virtual_chapter zone)) as [r0 w0] eqn:Hfinish.
  simpl.
  destruct (is_success r0) eqn:Hr0; simpl.
  2:{ rewrite Hz. simpl. rewrite Hr0. simpl.
      do 3 eexists. split; [reflexivity |].
      split; [repeat split |]. split; [reflexivity |].
      left. split; [reflexivity |]. split; [| reflexivity].
      apply is_success_false. exact Hr0. }
  rewrite list_lookup_insert_eq by exact Hlt. simpl.
  unfold reap_oldest_chapter. simpl.
  rewrite list_lookup_insert_eq by (rewrite length_insert; exact Hlt).
  simpl.
  destruct (sub64 (add64 (newest_virtual_chapter zone) 1)
              (oldest_virtual_chapter zone)
            <=? Z.of_nat (chapters_per_volume (index_geometry index)))
    eqn:Hassert; simpl.
  2:{ do 3 eexists. split; [reflexivity |].
      split; [repeat split |]. split; [reflexivity |].
      right. split; [reflexivity |].
      eexists. split; [simpl; rewrite list_insert_insert_eq; reflexivity |].
      simpl. repeat split; try reflexivity. discriminate. }
  rewrite list_lookup_insert_eq
    by (rewrite !length_insert; exact Hlt).
  simpl.
  destruct (process_checkpointing _ _ _ _ _ _) as [[[r1 cp] st] [sl sp]].
  apply Z.leb_le in Hassert.
  destruct (is_success r1) eqn:Hr1; simpl.
  2:{ do 3 eexists. split; [reflexivity |].
      split; [repeat split |]. split; [reflexivity |].
      right. split; [reflexivity |].
      eexists. split; [simpl; rewrite !list_insert_insert_eq; reflexivity |].
      simpl. repeat split; try reflexivity. intros _. exact Hassert. }
  destruct (start_closing_chapter _ _ _) as [n w1].
  do 3 eexists. split; [reflexivity |].
  split; [repeat split |]. split; [reflexivity |].
  right. split; [reflexivity |].
  eexists. split; [simpl; rewrite !list_insert_insert_eq; reflexivity |].
  simpl. repeat split; try reflexivity. intros _. exact Hassert.
Qed.

Lemma forget_expired_total n : forall victim r v,
  exists r' v', forget_expired n victim r v = (r', v').
Proof.
  induction n as [| n IH]; intros victim r v; simpl; [eauto |].
  destruct (is_success r); [| eauto].
  destruct (forget_chapter v victim INVALIDATION_EXPIRE) as [r1 v1].
  apply IH.
Qed.

(** [expire_chapters] on a zone of the index: it returns, and the zone has
    its oldest chapter moved on by [chapters_to_expire]. *)
Lemma expire_chapters_spec z n r index zone :
  zones index !! z = Some zone ->
  exists r' index',
    expire_chapters z n r index = Some (r', index')
    /\ keeps_index index index'
    /\ zone_queues index' = zone_queues index
    /\ zones index'
       = <[z := with_oldest
                  (add64 (oldest_virtual_chapter zone)
                     (Z.of_nat (chapters_to_expire (index_geometry index)
                                  (newest_virtual_chapter zone))))
                  zone]> (zones index).
Proof.
  intros Hz. unfold expire_chapters. rewrite Hz. simpl.
  destruct (n <? _)%nat.
  - do 2 eexists. split; [reflexivity |]. repeat split.
  - destruct (forget_expired_total
                (chapters_to_expire (index_geometry index)
                   (newest_virtual_chapter zone))
                (oldest_virtual_chapter zone) r (volume index))
      as (r' & v' & Hf).
    rewrite Hf. do 2 eexists. split; [reflexivity |]. repeat split.
Qed.

Lemma launch_zone_message_frame m i index :
  zones (snd (launch_zone_message m i index)) = zones index
  /\ keeps_index index (snd (launch_zone_message m i index)).
Proof. split; [reflexivity | repeat split]. Qed.


Lemma handle_chapter_closed_step open_next :
  closes_stepwise open_next ->
  forall i c index r index',
    handle_chapter_closed open_next i c index = Some (r, index') ->
    keeps_index index index'
    /\ Forall2 (zone_step (index_geometry index) c) (zones index) (zones index')
    /\ (r = UDS_SUCCESS ->
        Forall2 (zone_done (index_geometry index) c) (zones index) (zones index')).
Proof.
  intros Hopen i c index r index' H.
  unfold handle_chapter_closed in H.
  destruct (zones index !! i) as [zone |] eqn:Hz; simpl in H; [| discriminate].
  destruct (Z.eqb_spec (newest_virtual_chapter zone) c) as [Hc | Hc].
  - subst c. eapply Hopen; eassumption.
  - inversion H; subst. split; [apply keeps_index_refl |].
    split; [apply Forall2_zone_step_refl |].
    intros _. apply Forall2_zone_done_refl.
Qed.

Lemma announce_loop_step open_next has_router z c numbers :
  closes_stepwise open_next ->
  forall index r index',
    announce_loop open_next has_router z c numbers index = Some (r, index') ->
    keeps_index index index'
    /\ Forall2 (zone_step (index_geometry index) c) (zones index) (zones index')
    /\ (r = UDS_SUCCESS ->
        Forall2 (zone_done (index_geometry index) c) (zones index) (zones index')).
Proof.
  intros Hopen.
  induction numbers as [| i rest IH]; intros index r index' H; simpl in H.
  - inversion H; subst. split; [apply keeps_index_refl |].
    split; [apply Forall2_zone_step_refl |].
    intros _. apply Forall2_zone_done_refl.
  - destruct (Nat.eqb z i); [apply IH; exact H |].
    destruct (if has_router
              then Some (launch_zone_message (announce_message c) i index)
              else handle_chapter_closed open_next i c index)
      as [[r1 i1] |] eqn:Hone; simpl in H; [| discriminate].
    assert (Hfirst :
      keeps_index index i1
      /\ Forall2 (zone_step (index_geometry index) c) (zones index) (zones i1)
      /\ (r1 = UDS_SUCCESS ->
          Forall2 (zone_done (index_geometry index) c) (zones index) (zones i1))).
    { destruct has_router.
      - inversion Hone; subst. split; [repeat split |].
        split; [apply Forall2_zone_step_refl |].
        intros _. apply Forall2_zone_done_refl.
      - eapply handle_chapter_closed_step; eassumption. }
    destruct Hfirst as (Hk & Hs & Hd).
    destruct (is_success r1) eqn:Hr1; simpl in H.
    + apply IH in H. destruct H as (Hk2 & Hs2 & Hd2).
      assert (Hg : index_geometry i1 = index_geometry index) by apply Hk.
      rewrite Hg in Hs2, Hd2.
      split; [eapply keeps_index_trans; eassumption |].
      split.
      * eapply Forall2_trans; [| exact Hs | exact Hs2].
        intros x y w. apply zone_step_trans.
      * intros Hr. apply is_success_true in Hr1.
        eapply Forall2_trans; [| exact (Hd Hr1) | exact (Hd2 Hr)].
        intros x y w. apply zone_done_trans.
    + inversion H; subst. split; [exact Hk |]. split; [exact Hs |].
      intros Hr. apply is_success_false in Hr1. contradiction.
Qed.

(** The zone that is closing: what [open_next_chapter] makes of it and of
    the others, whatever it returns. *)
Lemma open_next_chapter_step fuel :
  forall z request index r index' zone,
    zones index !! z = Some zone ->
    open_next_chapter fuel z request index = Some (r, index') ->
    keeps_index index index'
    /\ Forall2 (zone_step (index_geometry index) (newest_virtual_chapter zone))
         (zones index) (zones index')
    /\ (r = UDS_SUCCESS ->
        Forall2 (zone_done (index_geometry index) (newest_virtual_chapter zone))
          (zones index) (zones index')
        /\ exists y,
             zones index' !! z = Some y
             /\ zone_closed (index_geometry index)
                  (newest_virtual_chapter zone) zone y)
    /\ (is_success
          (fst (finish_previous_chapter (chapter_writer index)
                  (newest_virtual_chapter zone))) = true ->
        exists y,
          zones index' !! z = Some y
          /\ newest_virtual_chapter y
             = add64 (newest_virtual_chapter zone) 1)
    /\ (is_success
          (fst (finish_previous_chapter (chapter_writer index)
                  (newest_virtual_chapter zone))) = false ->
        r <> UDS_SUCCESS /\ zones index' = zones index).
Proof.
  induction fuel as [| fuel IH]; intros z request index r index' zone Hz Hrun;
    [discriminate |].
  assert (Hopen : closes_stepwise (open_next_chapter fuel)).
  { intros i rq idx r0 idx' zn Hzn Hr0.
    destruct (IH i rq idx r0 idx' zn Hzn Hr0) as (H1 & H2 & H3 & _).
    split; [exact H1 |]. split; [exact H2 |]. intros E. apply H3. exact E. }
  simpl in Hrun.
  destruct (close_open_chapter_spec z index zone Hz)
    as (r1 & n & index1 & Hclose & Hk1 & Hq1 & Hcases).
  rewrite Hclose in Hrun. simpl in Hrun.
  set (c := newest_virtual_chapter zone) in *.
  set (g := index_geometry index) in *.
  assert (Hlt : (z < length (zones index))%nat)
    by (eapply lookup_lt_Some; exact Hz).
  destruct Hcases as [(Hswap & Hr1 & Hzones) | (Hswap & zone1 & Hzones & Hn1 & Ho1 & _ & Hassert)].
  - (* the wait for the previous chapter failed *)
    apply is_success_false in Hr1. rewrite Hr1 in Hrun. simpl in Hrun.
    inversion Hrun; subst r index'. clear Hrun.
    apply is_success_false in Hr1.
    split; [exact Hk1 |].
    rewrite Hzones.
    split; [apply Forall2_zone_step_refl |].
    split; [intros E; contradiction |].
    split; [intros E; congruence |].
    intros _. split; [exact Hr1 | reflexivity].
  - (* the zone holds the next chapter *)
    assert (Hz1 : zones index1 !! z = Some zone1).
    { rewrite Hzones. apply list_lookup_insert_eq. exact Hlt. }
    assert (Hmoved : zone_step g c zone zone1).
    { right. repeat split; try assumption. left. exact Ho1. }
    assert (Hstep1 : Forall2 (zone_step g c) (zones index) (zones index1)).
    { rewrite Hzones.
      rewrite <- (list_insert_id (zones index) z zone Hz) at 1.
      apply Forall2_insert; [apply Forall2_zone_step_refl | exact Hmoved]. }
    assert (Hg1 : index_geometry index1 = g) by apply Hk1.
    destruct (is_success r1) eqn:Hr1; simpl in Hrun.
    2:{ inversion Hrun; subst r index'. clear Hrun.
        apply is_success_false in Hr1.
        split; [exact Hk1 |]. split; [exact Hstep1 |].
        split; [intros E; contradiction |].
        split; [intros _; eauto |].
        intros E. congruence. }
    apply is_success_true in Hr1. subst r1.
    specialize (Hassert eq_refl).
    destruct (if Nat.eqb n 1 && (1 <? zone_count index1)%nat
              then announce_chapter_closed (open_next_chapter fuel) request z
                     c index1
              else Some (UDS_SUCCESS, index1))
      as [[r2 index2] |] eqn:Hannounce; simpl in Hrun; [| discriminate].
    assert (Hloop :
      keeps_index index1 index2
      /\ Forall2 (zone_step g c) (zones index1) (zones index2)
      /\ (r2 = UDS_SUCCESS ->
          Forall2 (zone_done g c) (zones index1) (zones index2))).
    { destruct (Nat.eqb n 1 && (1 <? zone_count index1)%nat).
      - unfold announce_chapter_closed in Hannounce.
        apply announce_loop_step in Hannounce; [| exact Hopen].
        rewrite Hg1 in Hannounce. exact Hannounce.
      - inversion Hannounce; subst. split; [apply keeps_index_refl |].
        split; [apply Forall2_zone_step_refl |].
        intros _. apply Forall2_zone_done_refl. }
    destruct Hloop as (Hk2 & Hstep2 & Hdone2).
    assert (Hg2 : index_geometry index2 = g)
      by (destruct Hk2 as (E & _); congruence).
    (* the closing zone is past chapter [c]: the announcement leaves it *)
    destruct (Forall2_lookup_l _ _ _ _ _ Hstep2 Hz1) as (zone2 & Hz2 & Hrel2).
    assert (Hkept2 : zone_kept zone1 zone2).
    { destruct Hrel2 as [E | (E & _)]; [exact E |].
      exfalso. apply (add64_succ_neq c). congruence. }
    destruct Hkept2 as [Hn2 Ho2].
    assert (Hstep02 : Forall2 (zone_step g c) (zones index) (zones index2)).
    { eapply Forall2_trans; [| exact Hstep1 | exact Hstep2].
      intros x y w. apply zone_step_trans. }
    destruct (is_success r2) eqn:Hr2; simpl in Hrun.
    2:{ inversion Hrun; subst r index'. clear Hrun.
        apply is_success_false in Hr2.
        split; [eapply keeps_index_trans; eassumption |].
        split; [exact Hstep02 |].
        split; [intros E; contradiction |].
        split; [intros _; exists zone2; split; [exact Hz2 | congruence] |].
        intros E. congruence. }
    apply is_success_true in Hr2. subst r2.
    specialize (Hdone2 eq_refl).
    destruct (expire_chapters_spec z n UDS_SUCCESS index2 zone2 Hz2)
      as (r3 & index3 & Hexpire & Hk3 & _ & Hzones3).
    rewrite Hexpire in Hrun. inversion Hrun; subst r3 index3. clear Hrun.
    rewrite Hg2, Hn2, Hn1, Ho2, Ho1 in Hzones3.
    set (zone3 :=
           with_oldest
             (add64 (oldest_virtual_chapter zone)
                (Z.of_nat (chapters_to_expire g (add64 c 1)))) zone2) in *.
    assert (Hclosed : zone_closed g c zone zone3).
    { repeat split; try reflexivity; simpl; try assumption. congruence. }
    assert (Hlt2 : (z < length (zones index2))%nat)
      by (eapply lookup_lt_Some; exact Hz2).
    assert (Hz3 : zones index' !! z = Some zone3).
    { rewrite Hzones3. apply list_lookup_insert_eq. exact Hlt2. }
    (* the zones from the start to the end: the closing zone apart, they
       are what the announcement made of them *)
    assert (Hback : zones index = <[z := zone]> (zones index1)).
    { rewrite Hzones, list_insert_insert_eq.
      symmetry. apply list_insert_id. exact Hz. }
    split; [eapply keeps_index_trans; [| exact Hk3];
            eapply keeps_index_trans; eassumption |].
    split.
    { rewrite Hzones3, Hback.
      apply Forall2_insert; [exact Hstep2 |].
      apply zone_done_step. right. exact Hclosed. }
    split.
    { intros _. split; [| exists zone3; split; [exact Hz3 | exact Hclosed]].
      rewrite Hzones3, Hback.
      apply Forall2_insert; [exact Hdone2 |]. right. exact Hclosed. }
    split.
    { intros _. exists zone3. split; [exact Hz3 |]. simpl. congruence. }
    intros E. congruence.
Qed.

Lemma at_chapter_length c (zs : list index_zone) :
  (at_chapter c zs <= length zs)%nat.
Proof.
  unfold at_chapter. induction zs as [| x zs IH]; simpl; [lia |].
  destruct (newest_virtual_chapter x =? c); simpl; lia.
Qed.

Lemma open_next_chapter_closes fuel : closes_stepwise (open_next_chapter fuel).
Proof.
  intros i rq idx r0 idx' zn Hzn Hr0.
  destruct (open_next_chapter_step fuel i rq idx r0 idx' zn Hzn Hr0)
    as (H1 & H2 & H3 & _).
  split; [exact H1 |]. split; [exact H2 |]. intros E. apply H3. exact E.
Qed.

Lemma announce_loop_total fuel has_router z c numbers :
  (forall i request index zone,
      zones index !! i = Some zone ->
      (at_chapter (newest_virtual_chapter zone) (zones index) <= fuel)%nat ->
      exists r index', open_next_chapter fuel i request index = Some (r, index')) ->
  forall index,
    Forall (fun i => (i < length (zones index))%nat) numbers ->
    (at_chapter c (zones index) <= fuel)%nat ->
    exists r index',
      announce_loop (open_next_chapter fuel) has_router z c numbers index
        = Some (r, index').
Proof.
  intros Hopen.
  induction numbers as [| i rest IH]; intros index Hin Hcount; simpl; [eauto |].
  inversion Hin as [| ? ? Hi Hrest]; subst.
  destruct (Nat.eqb z i); [apply IH; assumption |].
  assert (Hone :
    exists r1 i1,
      (if has_router
       then Some (launch_zone_message (announce_message c) i index)
       else handle_chapter_closed (open_next_chapter fuel) i c index)
        = Some (r1, i1)
      /\ length (zones i1) = length (zones index)
      /\ (at_chapter c (zones i1) <= at_chapter c (zones index))%nat).
  { destruct has_router.
    - do 2 eexists. split; [reflexivity |]. split; reflexivity.
    - destruct (lookup_lt_is_Some_2 _ _ Hi) as [zone Hz].
      destruct (Z.eqb_spec (newest_virtual_chapter zone) c) as [Hc | Hc].
      + destruct (Hopen i None index zone Hz) as (r1 & i1 & Hrun);
          [rewrite Hc; exact Hcount |].
        exists r1, i1.
        assert (Hh : handle_chapter_closed (open_next_chapter fuel) i c index
                     = Some (r1, i1)).
        { unfold handle_chapter_closed. rewrite Hz. simpl.
          replace (newest_virtual_chapter zone =? c) with true
            by (symmetry; apply Z.eqb_eq; exact Hc).
          exact Hrun. }
        split; [exact Hh |].
        apply handle_chapter_closed_step in Hh;
          [| apply open_next_chapter_closes].
        destruct Hh as (_ & Hs & _).
        split; [symmetry; eapply Forall2_length; exact Hs |].
        eapply at_chapter_step. exact Hs.
      + exists UDS_SUCCESS, index.
        unfold handle_chapter_closed. rewrite Hz. simpl.
        replace (newest_virtual_chapter zone =? c) with false
          by (symmetry; apply Z.eqb_neq; exact Hc).
        split; [reflexivity |]. split; reflexivity. }
  destruct Hone as (r1 & i1 & Hone & Hlen & Hle).
  rewrite Hone. simpl.
  destruct (negb (is_success r1)); [eauto |].
  apply IH; [| lia].
  rewrite Hlen. exact Hrest.
Qed.

(** [open_next_chapter] returns when [fuel] covers the zones that are at
    the chapter being closed. *)
Lemma open_next_chapter_total fuel :
  forall z request index zone,
    zones index !! z = Some zone ->
    (at_chapter (newest_virtual_chapter zone) (zones index) <= fuel)%nat ->
    exists r index', open_next_chapter fuel z request index = Some (r, index').
Proof.
  induction fuel as [| fuel IH]; intros z request index zone Hz Hcount.
  - exfalso.
    pose proof (at_chapter_leave (newest_virtual_chapter zone) (zones index) z
                  zone (with_newest (add64 (newest_virtual_chapter zone) 1) zone)
                  Hz eq_refl (add64_succ_neq _)) as H.
    lia.
  - simpl.
    destruct (close_open_chapter_spec z index zone Hz)
      as (r1 & n & index1 & Hclose & Hk1 & _ & Hcases).
    rewrite Hclose. simpl.
    destruct (negb (is_success r1)) eqn:Hr1; [eauto |].
    destruct Hcases as [(_ & Hfail & _) | (_ & zone1 & Hzones & Hn1 & _)].
    { apply negb_false_iff, is_success_true in Hr1. contradiction. }
    assert (Hlt : (z < length (zones index))%nat)
      by (eapply lookup_lt_Some; exact Hz).
    assert (Hcount1 :
      (at_chapter (newest_virtual_chapter zone) (zones index1) <= fuel)%nat).
    { rewrite Hzones.
      pose proof (at_chapter_leave (newest_virtual_chapter zone) (zones index)
                    z zone zone1 Hz eq_refl) as H.
      rewrite <- H in Hcount; [lia |].
      rewrite Hn1. apply add64_succ_neq. }
    assert (Hannounce :
      exists r2 index2,
        (if Nat.eqb n 1 && (1 <? zone_count index1)%nat
         then announce_chapter_closed (open_next_chapter fuel) request z
                (newest_virtual_chapter zone) index1
         else Some (r1, index1)) = Some (r2, index2)
        /\ length (zones index2) = length (zones index1)).
    { destruct (Nat.eqb n 1 && (1 <? zone_count index1)%nat).
      - unfold announce_chapter_closed.
        edestruct (announce_loop_total fuel
                     (match request with Some r => router r | None => false end)
                     z (newest_virtual_chapter zone)
                     (seq 0 (zone_count index1)) IH index1)
          as (r2 & index2 & Hloop).
        + apply Forall_forall. intros i Hi.
          apply elem_of_seq in Hi. unfold zone_count in Hi. lia.
        + exact Hcount1.
        + exists r2, index2. split; [exact Hloop |].
          apply announce_loop_step in Hloop;
            [| apply open_next_chapter_closes].
          destruct Hloop as (_ & Hs & _).
          symmetry. eapply Forall2_length. exact Hs.
      - eauto. }
    destruct Hannounce as (r2 & index2 & Hannounce & Hlen2).
    rewrite Hannounce. simpl.
    destruct (negb (is_success r2)); [eauto |].
    assert (Hz2 : is_Some (zones index2 !! z)).
    { apply lookup_lt_is_Some_2. rewrite Hlen2, Hzones, length_insert.
      exact Hlt. }
    destruct Hz2 as [zone2 Hz2].
    destruct (expire_chapters_spec z n r2 index2 zone2 Hz2)
      as (r3 & index3 & Hexpire & _).
    eauto.
Qed.

(** More fuel than the index has zones is enough. *)
Lemma open_next_chapter_returns fuel z request index zone :
  zones index !! z = Some zone ->
  (zone_count index <= fuel)%nat ->
  exists r index', open_next_chapter fuel z request index = Some (r, index').
Proof.
  intros Hz Hfuel.
  eapply open_next_chapter_total; [exact Hz |].
  pose proof (at_chapter_length (newest_virtual_chapter zone) (zones index)).
  unfold zone_count in Hfuel. lia.
Qed.

(** ** A put that fills the open chapter *)

(** C1, as amended. A put that leaves no slot in the open chapter makes
    the zone run [open_next_chapter]; unless the wait for the write of the
    previous chapter fails (then [open_next_chapter] returns that error and
    the newest chapter of the zone is as it was), the newest virtual chapter
    of the zone is advanced by exactly 1, in 64-bit arithmetic.  A put that
    leaves one slot or more returns [UDS_SUCCESS] and does not change the
    newest chapter.  With at least as much fuel as the index has zones the
    put returns. *)
Theorem put_record_in_zone_closes_full_chapter
    fuel z request metadata index zone remaining oc :
  zones index !! z = Some zone ->
  put_open_chapter (open_chapter zone) (chunk_name request) metadata
    = (UDS_SUCCESS, remaining, oc) ->
  (zone_count index <= fuel)%nat ->
  let index1 := set_zone z (with_open_chapter oc zone) index in
  let waited :=
    is_success
      (fst (finish_previous_chapter (chapter_writer index)
              (newest_virtual_chapter zone))) in
  exists r index' zone',
    put_record_in_zone fuel z request metadata index = Some (r, index')
    /\ zones index' !! z = Some zone'
    /\ (remaining = 0%nat ->
        put_record_in_zone fuel z request metadata index
          = open_next_chapter fuel z (Some request) index1
        /\ (waited = true ->
            newest_virtual_chapter zone'
              = add64 (newest_virtual_chapter zone) 1)
        /\ (waited = false ->
            r <> UDS_SUCCESS
            /\ newest_virtual_chapter zone' = newest_virtual_chapter zone))
    /\ (remaining <> 0%nat ->
        r = UDS_SUCCESS /\ index' = index1
        /\ newest_virtual_chapter zone' = newest_virtual_chapter zone).
Proof.
  intros Hz Hput Hfuel index1 waited.
  assert (Hlt : (z < length (zones index))%nat)
    by (eapply lookup_lt_Some; exact Hz).
  assert (Hz1 : zones index1 !! z = Some (with_open_chapter oc zone)).
  { subst index1. simpl. apply list_lookup_insert_eq. exact Hlt. }
  unfold put_record_in_zone. rewrite Hz. simpl. rewrite Hput. simpl.
  fold index1.
  destruct remaining as [| k]; simpl.
  - assert (Hcount : (zone_count index1 <= fuel)%nat).
    { subst index1. unfold zone_count. simpl. rewrite length_insert.
      exact Hfuel. }
    destruct (open_next_chapter_returns fuel z (Some request) index1 _ Hz1 Hcount)
      as (r & index' & Hrun).
    destruct (open_next_chapter_step fuel z (Some request) index1 r index' _
                Hz1 Hrun) as (_ & Hstep & _ & Hok & Hfail).
    simpl in Hok, Hfail. fold waited in Hok, Hfail.
    destruct (Forall2_lookup_l _ _ _ _ _ Hstep Hz1) as (zone' & Hz' & _).
    exists r, index', zone'.
    split; [exact Hrun |]. split; [exact Hz' |].
    split; [| intros E; contradiction].
    intros _. split; [reflexivity |].
    split.
    + intros Hw. destruct (Hok Hw) as (y & Hy & Hn). congruence.
    + intros Hw. destruct (Hfail Hw) as (Hr & Hzs).
      split; [exact Hr |].
      assert (E : Some zone' = Some (with_open_chapter oc zone))
        by (rewrite <- Hz', Hzs; exact Hz1).
      inversion E. reflexivity.
  - exists UDS_SUCCESS, index1, (with_open_chapter oc zone).
    split; [reflexivity |]. split; [exact Hz1 |].
    split; [intros E; discriminate |].
    intros _. repeat split.
Qed.

(** ** Announcing a closed chapter *)

Lemma announce_loop_router open_next z c len : forall start index,
  exists index',
    announce_loop open_next true z c (seq start len) index
      = Some (UDS_SUCCESS, index')
    /\ zones index' = zones index
    /\ volume index' = volume index
    /\ keeps_index index index'
    /\ forall i,
         zone_queues index' !! i
         = if (start <=? i)%nat && (i <? start + len)%nat && negb (Nat.eqb i z)
           then option_map
                  (fun q => q ++ [message_request (announce_message c) i])
                  (zone_queues index !! i)
           else zone_queues index !! i.
Proof.
  induction len as [| len IH]; intros start index.
  - exists index. split; [reflexivity |]. repeat split.
    intros i.
    destruct (Nat.leb_spec start i), (Nat.ltb_spec i (start + 0));
      simpl; try reflexivity; lia.
  - cbn [seq announce_loop].
    destruct (Nat.eqb_spec z start) as [Heq | Hne].
    + destruct (IH (S start) index) as (index' & Hrun & Hz & Hv & Hk & Hq).
      exists index'. split; [exact Hrun |]. repeat split; try assumption;
        try apply Hk.
      intros i. rewrite Hq.
      destruct (Nat.eqb_spec i z) as [Hi | Hi];
        destruct (Nat.leb_spec (S start) i), (Nat.leb_spec start i),
          (Nat.ltb_spec i (S start + len)), (Nat.ltb_spec i (start + S len));
        cbn [andb negb]; try reflexivity; lia.
    + set (index1 :=
             with_zone_queues
               (enqueue_on_zone start
                  (message_request (announce_message c) start)
                  (zone_queues index)) index).
      destruct (IH (S start) index1) as (index' & Hrun & Hz & Hv & Hk & Hq).
      exists index'. split.
      { unfold launch_zone_message. simpl. fold index1. exact Hrun. }
      repeat split; try assumption; try apply Hk.
      intros i. rewrite Hq. subst index1. cbn [zone_queues with_zone_queues].
      rewrite enqueue_on_zone_lookup.
      destruct (Nat.eqb_spec i start) as [Hs | Hs];
        destruct (Nat.eqb_spec i z) as [Hi | Hi];
        destruct (Nat.leb_spec (S start) i), (Nat.leb_spec start i),
          (Nat.ltb_spec i (S start + len)), (Nat.ltb_spec i (start + S len));
        cbn [andb negb]; try reflexivity; try lia.
      rewrite Hs. reflexivity.
Qed.

(** C6. A zone closes a chapter, in an index of more than one zone with a
    queue per zone, for a request that came through the router, and the
    chapter writer reports it as the first zone to hand in the chapter
    ([finished_zones == 1]): an [ANNOUNCE_CHAPTER_CLOSED] message for the
    closed chapter is put on the queue of every zone but the closing one.
    A zone that handles the message runs [open_next_chapter] if and only if
    its newest chapter is the announced one, and otherwise leaves the index
    as it is. *)
Theorem closed_chapter_announced fuel z request index zone index1 :
  zones index !! z = Some zone ->
  length (zone_queues index) = zone_count index ->
  (1 < zone_count index)%nat ->
  router request = true ->
  close_open_chapter z index
    = Some (UDS_SUCCESS, 1%nat, newest_virtual_chapter zone, index1) ->
  (exists r index',
      open_next_chapter (S fuel) z (Some request) index = Some (r, index')
      /\ forall i q,
           zone_queues index !! i = Some q ->
           zone_queues index' !! i
           = Some (q ++ (if Nat.eqb i z then []
                         else [message_request
                                 (announce_message (newest_virtual_chapter zone))
                                 i])))
  /\ (forall fuel' i c idx zone_i,
        zones idx !! i = Some zone_i ->
        dispatch_index_zone_control_request fuel'
          (message_request (announce_message c) i) idx
          = handle_chapter_closed (open_next_chapter fuel') i c idx
        /\ handle_chapter_closed (open_next_chapter fuel') i c idx
           = if newest_virtual_chapter zone_i =? c
             then open_next_chapter fuel' i None idx
             else Some (UDS_SUCCESS, idx)).
Proof.
  intros Hz Hqueues Hmany Hrouter Hclose.
  split.
  - destruct (close_open_chapter_spec z index zone Hz)
      as (r1 & n & i1 & Hclose' & Hk1 & Hq1 & Hcases).
    rewrite Hclose in Hclose'. inversion Hclose'; subst r1 n i1. clear Hclose'.
    destruct Hcases as [(_ & Hfail & _) | (_ & zone1 & Hzones & _)];
      [contradiction |].
    assert (Hcount : zone_count index1 = zone_count index).
    { unfold zone_count. rewrite Hzones. apply length_insert. }
    cbn [open_next_chapter]. rewrite Hclose. simpl.
    rewrite Hcount.
    replace (1 <? zone_count index)%nat with true
      by (symmetry; apply Nat.ltb_lt; exact Hmany).
    unfold announce_chapter_closed. rewrite Hrouter, Hcount.
    destruct (announce_loop_router (open_next_chapter fuel) z
                (newest_virtual_chapter zone) (zone_count index) 0%nat index1)
      as (index2 & Hloop & Hz2 & _ & _ & Hq2).
    rewrite Hloop. simpl.
    assert (Hlt : (z < length (zones index))%nat)
      by (eapply lookup_lt_Some; exact Hz).
    assert (Hzone2 : zones index2 !! z = Some zone1).
    { rewrite Hz2, Hzones. apply list_lookup_insert_eq. exact Hlt. }
    destruct (expire_chapters_spec z 1 UDS_SUCCESS index2 zone1 Hzone2)
      as (r3 & index3 & Hexpire & _ & Hq3 & _).
    rewrite Hexpire. exists r3, index3. split; [reflexivity |].
    intros i q Hi.
    rewrite Hq3, Hq2, Hq1, Hi.
    assert (Hrange : (i <? 0 + zone_count index)%nat = true).
    { apply Nat.ltb_lt. rewrite <- Hqueues. simpl.
      eapply lookup_lt_Some. exact Hi. }
    rewrite Hrange. simpl.
    destruct (Nat.eqb i z); simpl; [rewrite app_nil_r |]; reflexivity.
  - intros fuel' i c idx zone_i Hi.
    split.
    + unfold dispatch_index_zone_control_request. simpl. rewrite Hi. reflexivity.
    + unfold handle_chapter_closed. rewrite Hi. reflexivity.
Qed.

(** ** The active window in the reachable states *)


Lemma add64_small a b : 0 <= a + b <= UINT64_MAX -> add64 a b = a + b.
Proof.
  intros H. unfold add64, wrap64. apply Z.mod_small.
  unfold UINT64_MAX in H. lia.
Qed.

Lemma sub64_small a b : 0 <= a - b <= UINT64_MAX -> sub64 a b = a - b.
Proof.
  intros H. unfold sub64, wrap64. apply Z.mod_small.
  unfold UINT64_MAX in H. lia.
Qed.



Lemma Forall_set_active_chapters g index :
  window_tight g (index_oldest_virtual_chapter index)
    (index_newest_virtual_chapter index) ->
  Forall (fun zone => window_tight g (oldest_virtual_chapter zone)
                        (newest_virtual_chapter zone))
    (map (set_active_chapters index) (zones index)).
Proof.
  intros H. apply Forall_forall. intros zone Hin.
  apply list_elem_of_fmap in Hin. destruct Hin as (x & -> & _).
  exact H.
Qed.














Lemma wait_for_resume_status wakeups s ctx :
  wait_for_resume wakeups s = Some ctx ->
  load_status ctx = INDEX_OPENING \/ load_status ctx = INDEX_FREEING.
Proof.
  revert s. induction wakeups as [| s' rest IH]; intros s H;
    destruct s; simpl in H; try discriminate;
    try (inversion H; subst ctx; simpl; tauto);
    exact (IH _ H).
Qed.

Lemma check_for_suspend_spec index ctx :
  load_context index = Some ctx ->
  check_for_suspend index =
    match load_status (lock_load_context ctx) with
    | INDEX_SUSPENDING =>
        match wait_for_resume (load_wakeups (lock_load_context ctx))
                INDEX_SUSPENDED with
        | Some ctx' =>
            Some (match load_status ctx' with
                  | INDEX_FREEING => true
                  | _ => false
                  end, with_load_context (Some ctx') index)
        | None => None
        end
    | _ => Some (false, with_load_context (Some (lock_load_context ctx)) index)
    end.
Proof.
  intros Hctx. unfold check_for_suspend. rewrite Hctx.
  destruct (load_status (lock_load_context ctx)); reflexivity.
Qed.

(** C8, as the code has it. One turn of the replay loop, with a load
    context [ctx] whose status is read under the lock:
    - a status other than [INDEX_SUSPENDING] (also [INDEX_FREEING]) lets
      the turn replay its chapter;
    - on [INDEX_SUSPENDING] the replay parks until the status is
      [INDEX_OPENING] or [INDEX_FREEING]; woken with [INDEX_FREEING] the
      loop exits with [-EBUSY], and so does [replay_volume] when this is
      its first turn; woken with [INDEX_OPENING] the turn replays its
      chapter. *)
Theorem replay_interrupted_only_when_freed
    count vcn from_vcn upto_vcn mode index ctx :
  load_context index = Some ctx ->
  let turn (i : uds_index) :=
    let '(result, i') := replay_chapter i from_vcn upto_vcn vcn mode in
    if negb (is_success result) then Some (result, i')
    else replay_chapters count (vcn + 1) from_vcn upto_vcn mode i' in
  let seen := lock_load_context ctx in
  (load_status seen <> INDEX_SUSPENDING ->
   replay_chapters (S count) vcn from_vcn upto_vcn mode index
     = turn (with_load_context (Some seen) index))
  /\ (load_status seen = INDEX_SUSPENDING ->
      forall ctx',
        wait_for_resume (load_wakeups seen) INDEX_SUSPENDED = Some ctx' ->
        (load_status ctx' = INDEX_FREEING ->
         replay_chapters (S count) vcn from_vcn upto_vcn mode index
           = Some (EBUSY_NEG, with_load_context (Some ctx') index)
         /\ (from_vcn < index_newest_virtual_chapter index ->
             exists index',
               replay_volume index from_vcn = Some (EBUSY_NEG, index')
               /\ load_context index' = Some ctx'))
        /\ (load_status ctx' <> INDEX_FREEING ->
            load_status ctx' = INDEX_OPENING
            /\ replay_chapters (S count) vcn from_vcn upto_vcn mode index
                 = turn (with_load_context (Some ctx') index))).
Proof.
  intros Hctx turn seen. split.
  - intros Hseen. cbn [replay_chapters].
    rewrite (check_for_suspend_spec index ctx Hctx). fold seen.
    destruct (load_status seen); try reflexivity.
    exfalso. apply Hseen. reflexivity.
  - intros Hseen ctx' Hwait. split.
    + intros Hfree. split.
      * cbn [replay_chapters].
        rewrite (check_for_suspend_spec index ctx Hctx). fold seen.
        rewrite Hseen, Hwait, Hfree. reflexivity.
      * intros Hlt. unfold replay_volume.
        destruct (Z.to_nat (index_newest_virtual_chapter index - from_vcn))
          as [| n] eqn:Hn; [lia |].
        cbn [replay_chapters].
        erewrite check_for_suspend_spec by (simpl; exact Hctx).
        fold seen. rewrite Hseen, Hwait, Hfree. simpl.
        eexists. split; reflexivity.
    + intros Hnot.
      destruct (wait_for_resume_status _ _ _ Hwait) as [Hopen | Hfree];
        [| contradiction].
      split; [exact Hopen |].
      cbn [replay_chapters].
      rewrite (check_for_suspend_spec index ctx Hctx). fold seen.
      rewrite Hseen, Hwait, Hopen. reflexivity.
Qed.

(** ** The chapters of a zone through a closure *)







Lemma probe_sparse_cache_miss z request index r request' index' :
  probe_sparse_cache z request false index = Some (r, false, request', index') ->
  request' = request.
Proof.
  unfold probe_sparse_cache, search_sparse_cache_in_zone. intros H.
  destruct (_ && _); [| inversion H; reflexivity].
  destruct (zones index !! z) as [zone |]; simpl in H; [| discriminate].
  destruct (search_sparse_cache _ _ _ _ _ _) as [[[r1 c] p] v].
  destruct (negb (is_success r1) || (c =? UINT64_MAX)).
  - destruct (negb (is_success r1)); inversion H; reflexivity.
  - destruct (search_cached_record_page _ _ _ _ _) as [[r2 o] v2].
    destruct o as [m |]; simpl in H;
      destruct (negb (is_success r2)); inversion H; reflexivity.
Qed.







End EngineFacts.

(** * The claims on concrete indexes *)

Import Sample.

(** [run_as H term]: [H] states that [term] is its value. *)
Ltac run_as H term :=
  let v := eval vm_compute in term in
  assert (H : term = v) by exact (eq_refl v).

(** Witness of C1: the put of a record in the one-record open chapter of
    zone 1 closes chapter 0. *)
Lemma put_record_in_zone_closes_full_chapter_witness :
  exists r index' zone',
    put_record_in_zone 2 1 (post 7 100 1) 100 (fresh_index 2 1 UDS_SUCCESS)
      = Some (r, index')
    /\ zones index' !! 1%nat = Some zone'
    /\ newest_virtual_chapter zone' = 1.
Proof.
  destruct (put_record_in_zone_closes_full_chapter 2 1 (post 7 100 1) 100
              (fresh_index 2 1 UDS_SUCCESS) (empty_zone 1) 0
              {| oc_capacity := 1; oc_records := [(7, 100)] |}
              eq_refl eq_refl (le_n 2))
    as (r & index' & zone' & Hrun & Hzone & Hfull & _).
  exists r, index', zone'.
  split; [exact Hrun |]. split; [exact Hzone |].
  destruct (Hfull eq_refl) as (_ & Hnewest & _).
  exact (Hnewest eq_refl).
Defined.

(** The claim C1 fails where the wait for the previous chapter fails: the
    put leaves no slot, [open_next_chapter] runs and returns the error of
    the chapter writer, and the newest chapter of the zone is still 0. *)
Lemma put_record_in_zone_failed_wait :
  exists oc index' zone',
    put_open_chapter (open_chapter (empty_zone 1)) 7 100
      = (UDS_SUCCESS, 0%nat, oc)
    /\ put_record_in_zone 2 1 (post 7 100 1) 100
         (fresh_index 2 1 (UDS_OTHER_ERROR 5))
       = Some (UDS_OTHER_ERROR 5, index')
    /\ zones index' !! 1%nat = Some zone'
    /\ newest_virtual_chapter zone' = 0
    /\ newest_virtual_chapter zone' <> add64 0 1.
Proof.
  eexists. eexists. eexists.
  split; [reflexivity |]. split; [reflexivity |]. split; [reflexivity |].
  split; [reflexivity |]. vm_compute. discriminate.
Qed.










(** Witness of C6: zone 0 of a two-zone index is the first to close
    chapter 0, for a request that came through the router; zone 1 finds
    the announcement on its queue. *)
Lemma closed_chapter_announced_witness :
  exists r index',
    open_next_chapter 3 0 (Some (post 7 100 0)) (fresh_index 2 64 UDS_SUCCESS)
      = Some (r, index')
    /\ zone_queues index' !! 0%nat = Some []
    /\ zone_queues index' !! 1%nat
       = Some [message_request (announce_message 0) 1].
Proof.
  pose (closing := close_open_chapter 0 (fresh_index 2 64 UDS_SUCCESS)).
  let v := eval vm_compute in closing in
  assert (Hclose : closing = v) by exact (eq_refl v).
  destruct (closed_chapter_announced 2 0 (post 7 100 0)
              (fresh_index 2 64 UDS_SUCCESS) (empty_zone 64) _
              eq_refl eq_refl (le_n 2) eq_refl Hclose)
    as [(r & index' & Hrun & Hqueues) _].
  exists r, index'. split; [exact Hrun |]. split.
  - exact (Hqueues 0%nat [] eq_refl).
  - exact (Hqueues 1%nat [] eq_refl).
Defined.



(** Witness of C8: the session is suspended while chapter 0 is about to
    be replayed, and then freed. *)
Lemma replay_interrupted_only_when_freed_witness :
  exists index',
    replay_volume (replaying_index [INDEX_SUSPENDING; INDEX_FREEING]) 0
      = Some (EBUSY_NEG, index')
    /\ load_context index'
       = Some {| load_status := INDEX_FREEING; load_wakeups := [] |}.
Proof.
  destruct (replay_interrupted_only_when_freed 0 0 0 1 LOOKUP_NORMAL
              (replaying_index [INDEX_SUSPENDING; INDEX_FREEING])
              {| load_status := INDEX_OPENING;
                 load_wakeups := [INDEX_SUSPENDING; INDEX_FREEING] |}
              eq_refl) as [_ Hsuspending].
  destruct (Hsuspending eq_refl
              {| load_status := INDEX_FREEING; load_wakeups := [] |} eq_refl)
    as [Hfreed _].
  destruct (Hfreed eq_refl) as [_ Hvolume].
  apply Hvolume. simpl. lia.
Defined.

(** The claim C8 fails for a session that is suspended and then resumed:
    the replay sees [INDEX_SUSPENDING] before chapter 0, parks, is woken
    with [INDEX_OPENING], replays the chapter, and [replay_volume] returns
    [UDS_SUCCESS]. *)
Lemma replay_resumed_after_suspend :
  exists index',
    load_status
      (lock_load_context
         {| load_status := INDEX_OPENING;
            load_wakeups := [INDEX_SUSPENDING; INDEX_OPENING] |})
      = INDEX_SUSPENDING
    /\ replay_volume (replaying_index [INDEX_SUSPENDING; INDEX_OPENING]) 0
       = Some (UDS_SUCCESS, index')
    /\ UDS_SUCCESS <> EBUSY_NEG.
Proof.
  pose (replay :=
          replay_volume (replaying_index [INDEX_SUSPENDING; INDEX_OPENING]) 0).
  let v := eval vm_compute in replay in
  assert (Hreplay : replay = v) by exact (eq_refl v).
  eexists. split; [reflexivity |]. split; [exact Hreplay | discriminate].
Qed.

(** C9. Where the simulated barrier fails, [dispatch_index_request]
    completes the request with its location still
    [UDS_LOCATION_UNKNOWN]: on a single-zone sparse index the POST of the
    hook 8, which needs chapter 0 in the sparse cache, returns the error of
    [update_sparse_cache] before [request->location] is assigned, and the
    callback is given the location [UDS_LOCATION_UNKNOWN] and
    [found = true] for a name the index never looked up.
    [simulate_index_zone_barrier_message], whose result this is, is
    documented to return [UDS_SUCCESS] always. *)
Theorem dispatch_leaves_location_unknown :
  simulate_index_zone_barrier_message 0 (post 8 1 0)
    (hint_index failing_cache_volume)
    = Some (UDS_OTHER_ERROR 5,
            with_volume
              (volume_with_cached [0] failing_cache_volume)
              (hint_index failing_cache_volume))
  /\ exists request' index',
       dispatch_index_request 2 false (post 8 1 0)
         (hint_index failing_cache_volume)
         = Some (UDS_OTHER_ERROR 5, request', index')
       /\ location request' = UDS_LOCATION_UNKNOWN
       /\ location (handle_callbacks request') = UDS_LOCATION_UNKNOWN
       /\ found (handle_callbacks request') = true.
Proof.
  split; [reflexivity |].
  eexists. eexists. split; [reflexivity |]. repeat split.
Qed.

Lemma sample_sparse_search_names_chapter : sparse_search_names_chapter.
Proof.
  intros v z oldest newest name chapter r chapter' page v' Hchapter Hsearch.
  simpl in Hsearch. unfold sparse_cache_search in Hsearch.
  destruct (sparse_search_answer v) as [[r0 c0] p0].
  apply Z.eqb_neq in Hchapter. rewrite Hchapter in Hsearch.
  inversion Hsearch; subst. apply Z.eqb_neq. exact Hchapter.
Qed.

(** Witness of C10: the DELETE of the name 8, for which the volume index
    holds a hint to the sparse chapter 0, on an index whose sparse cache
    holds chapter 0 without a record of the name, with [found] holding
    [true] on entry. *)
Lemma delete_without_record_changes_nothing_witness :
  exists request' index',
    remove_from_index_zone true 0 (delete 8 0) (hint_index cached_miss_volume)
      = Some (UDS_SUCCESS, request', index')
    /\ volume_index index' = hint_volume_index
    /\ zones index' = [hint_zone].
Proof.
  assert (Hchapter : record_virtual_chapter
                       {| is_found := true; is_collision := false;
                          record_virtual_chapter := 0; record_name := 8 |}
                     <> UINT64_MAX) by (simpl; discriminate).
  destruct (delete_without_record_changes_nothing true 0 (delete 8 0)
              (hint_index cached_miss_volume) hint_zone _
              sample_sparse_search_names_chapter eq_refl eq_refl Hchapter)
    as (r & request' & index' & Hrun & _ & _ & Hhint & _).
  pose (searching :=
          get_record_from_zone 0 (delete 8 0) true 0
            (hint_index cached_miss_volume)).
  let v := eval vm_compute in searching in
  assert (Hsearch : searching = v) by exact (eq_refl v).
  destruct (Hhint _ _ eq_refl eq_refl Hsearch) as (-> & _ & _ & Hvi & Hzones).
  exists request', index'.
  split; [exact Hrun |]. split; [exact Hvi | exact Hzones].
Defined.

(** * Further properties of the engine *)

Section EngineFactsMore.
Context {C : Components}.

(** X1. Replaying the volume, whatever it returns, writes to no zone: the
    open and writing chapters and the chapter counters of every zone, the
    geometry and the chapter counters of the index are as before. *)
Theorem replay_volume_writes_no_zone index from_vcn r index' :
  replay_volume index from_vcn = Some (r, index') ->
  zones index' = zones index
  /\ index_geometry index' = index_geometry index
  /\ index_newest_virtual_chapter index' = index_newest_virtual_chapter index
  /\ index_oldest_virtual_chapter index' = index_oldest_virtual_chapter index.
Proof.
  intros Hrun. exact (replay_volume_same index from_vcn r index' Hrun).
Qed.

(** X2. Closing the open chapter of a zone returns as soon as the depth
    allowed to the calls between [open_next_chapter] and
    [handle_chapter_closed] is the number of zones.  Whatever it returns,
    the index has as many zones as before and the same geometry and
    chapter counters of its own, and each zone either keeps its counters or
    was at the chapter being closed and is now one chapter further. *)
Theorem chapter_close_moves_zones_by_one fuel z request index zone :
  zones index !! z = Some zone ->
  (zone_count index <= fuel)%nat ->
  exists r index',
    open_next_chapter fuel z request index = Some (r, index')
    /\ keeps_index index index'
    /\ length (zones index') = length (zones index)
    /\ forall i x y,
         zones index !! i = Some x ->
         zones index' !! i = Some y ->
         (newest_virtual_chapter y = newest_virtual_chapter x
          /\ oldest_virtual_chapter y = oldest_virtual_chapter x)
         \/ (newest_virtual_chapter x = newest_virtual_chapter zone
             /\ newest_virtual_chapter y
                = add64 (newest_virtual_chapter zone) 1).
Proof.
  intros Hz Hfuel.
  destruct (open_next_chapter_returns fuel z request index zone Hz Hfuel)
    as (r & index' & Hrun).
  exists r, index'. split; [exact Hrun |].
  destruct (open_next_chapter_step fuel z request index r index' zone Hz Hrun)
    as (Hkeeps & Hsteps & _).
  split; [exact Hkeeps |].
  split; [symmetry; eapply Forall2_length; exact Hsteps |].
  intros i x y Hx Hy.
  destruct (Forall2_lookup_lr _ _ _ _ _ _ Hsteps Hx Hy) as [Hkept | Hmoved].
  - left. exact Hkept.
  - right. destruct Hmoved as (Hc & Hn & _). split; assumption.
Qed.

(** X3. A zone that has gone through [open_next_chapter] for chapter [c]
    (the wait for the chapter writer succeeded) ignores a later
    [ANNOUNCE_CHAPTER_CLOSED] message for [c]: the message returns
    [UDS_SUCCESS] and leaves the index as it is. *)
Theorem stale_announcement_ignored fuel fuel' z request index zone r index' :
  zones index !! z = Some zone ->
  open_next_chapter fuel z request index = Some (r, index') ->
  is_success
    (fst (finish_previous_chapter (chapter_writer index)
            (newest_virtual_chapter zone))) = true ->
  dispatch_index_zone_control_request fuel'
    (message_request (announce_message (newest_virtual_chapter zone)) z)
    index'
  = Some (UDS_SUCCESS, index').
Proof.
  intros Hz Hrun Hwait.
  destruct (open_next_chapter_step fuel z request index r index' zone Hz Hrun)
    as (_ & _ & _ & Hadvanced & _).
  destruct (Hadvanced Hwait) as (y & Hy & Hnewest).
  unfold dispatch_index_zone_control_request. simpl. rewrite Hy. simpl.
  unfold handle_chapter_closed. rewrite Hy. simpl.
  rewrite Hnewest.
  destruct (Z.eqb_spec (add64 (newest_virtual_chapter zone) 1)
              (newest_virtual_chapter zone)) as [E | _]; [| reflexivity].
  exfalso. exact (add64_succ_neq _ E).
Qed.

Lemma record_search_kind o request f request' :
  record_search o request = (f, request') ->
  request_type request' = request_type request
  /\ update request' = update request.
Proof.
  destruct o; simpl; intros H; inversion H; subst; split; reflexivity.
Qed.

Lemma search_sparse_cache_in_zone_kind z request vcn f index r f' request' index' :
  search_sparse_cache_in_zone z request vcn f index
    = Some (r, f', request', index') ->
  request_type request' = request_type request
  /\ update request' = update request.
Proof.
  unfold search_sparse_cache_in_zone. intros H.
  destruct (zones index !! z) as [zone |]; simpl in H; [| discriminate].
  destruct (search_sparse_cache _ _ _ _ _ _) as [[[r1 c] p] v].
  destruct (negb (is_success r1) || (c =? UINT64_MAX)).
  - inversion H; subst. split; reflexivity.
  - destruct (search_cached_record_page _ _ _ _ _) as [[r2 o] v2].
    destruct (record_search o request) as [f2 q2] eqn:Hs.
    inversion H; subst. eapply record_search_kind. exact Hs.
Qed.

Lemma get_record_from_zone_kind z request f vcn index r f' request' index' :
  get_record_from_zone z request f vcn index = Some (r, f', request', index') ->
  request_type request' = request_type request
  /\ update request' = update request.
Proof.
  unfold get_record_from_zone. intros H.
  destruct (zones index !! z) as [zone |]; simpl in H; [| discriminate].
  destruct (vcn =? newest_virtual_chapter zone).
  { destruct (record_search _ request) eqn:Hs. inversion H; subst.
    eapply record_search_kind. exact Hs. }
  destruct (_ && _ && _).
  { destruct (record_search _ request) eqn:Hs. inversion H; subst.
    eapply record_search_kind. exact Hs. }
  destruct (negb (uds_index_region_eqb _ _)).
  { inversion H; subst. split; reflexivity. }
  destruct (_ && _).
  { eapply search_sparse_cache_in_zone_kind. exact H. }
  destruct (search_volume_page_cache _ _ _ _ _) as [[r1 o] v].
  destruct (record_search o request) eqn:Hs. inversion H; subst.
  eapply record_search_kind. exact Hs.
Qed.

Lemma confirm_index_record_kind z request record f index r f' request' index' :
  confirm_index_record z request record f index
    = Some (r, f', request', index') ->
  request_type request' = request_type request
  /\ update request' = update request
  /\ volume_index index' = volume_index index
  /\ zones index' = zones index.
Proof.
  unfold confirm_index_record. intros H.
  destruct (is_found record); [| inversion H; subst; repeat split].
  destruct (get_record_from_zone _ _ _ _ _) as [[[[r1 f1] q1] i1] |] eqn:Hg;
    [| discriminate].
  destruct (get_record_from_zone_kind _ _ _ _ _ _ _ _ _ Hg) as [Ht Hu].
  destruct (get_record_from_zone_frame _ _ _ _ _ _ _ _ _ Hg) as [Hv Hz].
  destruct (negb (is_success r1)).
  - inversion H; subst. repeat split; assumption.
  - destruct (zones i1 !! z) as [zone |]; simpl in H; [| discriminate].
    inversion H; subst.
    destruct f'; simpl; repeat split; assumption.
Qed.

Lemma probe_sparse_cache_kind z request f index r f' request' index' :
  probe_sparse_cache z request f index = Some (r, f', request', index') ->
  request_type request' = request_type request
  /\ update request' = update request.
Proof.
  unfold probe_sparse_cache. intros H.
  destruct (_ && _); [| inversion H; subst; split; reflexivity].
  destruct (search_sparse_cache_in_zone _ _ _ _ _)
    as [[[[r1 f1] q1] i1] |] eqn:Hs; [| discriminate].
  apply search_sparse_cache_in_zone_kind in Hs.
  destruct (negb (is_success r1)); inversion H; subst; [exact Hs |].
  destruct f'; simpl; exact Hs.
Qed.

(** X4. A QUERY that does not ask for an update only reads the index:
    whatever [search_index_zone] returns for it, the volume index and the
    zones (their open chapters and counters) are as before. *)
Theorem query_without_update_reads_only fuel z request index
    r request' index' :
  request_type request = UDS_QUERY ->
  update request = false ->
  search_index_zone fuel z request index = Some (r, request', index') ->
  volume_index index' = volume_index index /\ zones index' = zones index.
Proof.
  intros Htype Hupdate Hrun. unfold search_index_zone in Hrun.
  destruct (get_volume_index_record _ _) as [r0 record].
  destruct (negb (is_success r0)); [inversion Hrun; subst; auto |].
  destruct (confirm_index_record _ _ _ _ _) as [[[[r1 f1] q1] i1] |] eqn:Hc;
    [| discriminate].
  destruct (confirm_index_record_kind _ _ _ _ _ _ _ _ _ Hc)
    as (Ht1 & Hu1 & Hv1 & Hz1).
  destruct (negb (is_success r1)); [inversion Hrun; subst; auto |].
  rewrite Htype in Ht1. rewrite Hupdate in Hu1.
  unfold update_index_record in Hrun.
  destruct (zones i1 !! z) as [zone |]; simpl in Hrun; [| discriminate].
  rewrite Ht1, Hu1 in Hrun. simpl in Hrun.
  destruct (f1 || _).
  - inversion Hrun; subst. auto.
  - destruct (probe_sparse_cache _ _ _ _) as [[[[r2 f2] q2] i2] |] eqn:Hp;
      [| discriminate].
    destruct (probe_sparse_cache_kind _ _ _ _ _ _ _ _ Hp) as [Ht2 Hu2].
    destruct (probe_sparse_cache_frame _ _ _ _ _ _ _ _ Hp) as [Hv2 Hz2].
    rewrite Ht1 in Ht2. rewrite Hu1 in Hu2.
    destruct (negb (is_success r2)).
    + inversion Hrun; subst. split; congruence.
    + rewrite Ht2, Hu2 in Hrun. simpl in Hrun.
      rewrite orb_true_r in Hrun.
      inversion Hrun; subst. split; congruence.
Qed.

(** X5. The DELETE of a name the volume index does not hold, once past the
    simulated barrier, returns [UDS_SUCCESS], changes nothing in the index,
    leaves the location [UDS_LOCATION_UNAVAILABLE] and is handed to its
    callback with [found = false]; the unset variable of
    [remove_from_index_zone] is not read on this path. *)
Theorem delete_of_absent_name fuel indeterminate request index index1 record :
  request_type request = UDS_DELETE ->
  (if negb (requeued request)
   then simulate_index_zone_barrier_message (zone_number request) request index
   else Some (UDS_SUCCESS, index)) = Some (UDS_SUCCESS, index1) ->
  get_volume_index_record (volume_index index1) (chunk_name request)
    = (UDS_SUCCESS, record) ->
  is_found record = false ->
  dispatch_index_request fuel indeterminate request index
    = Some (UDS_SUCCESS,
            set_location UDS_LOCATION_UNAVAILABLE request, index1)
  /\ (has_callback request = true ->
      found (handle_callbacks
               (set_location UDS_LOCATION_UNAVAILABLE request)) = false).
Proof.
  intros Htype Hbarrier Hget Habsent. split.
  - unfold dispatch_index_request. rewrite Hbarrier. simpl.
    rewrite Htype.
    unfold remove_from_index_zone. simpl. rewrite Hget. simpl.
    rewrite Habsent. reflexivity.
  - intros Hcb. unfold handle_callbacks. simpl. rewrite Hcb. reflexivity.
Qed.

(** X6. A save that fails leaves [last_save], [need_to_save] and
    [has_saved_open_chapter] as they were: the index still needs saving
    and still names the chapter of the last good save.  [prev_save] is not
    put back: it is left equal to [last_save]. *)
Theorem failed_save_is_undone index r index' :
  save_index index = (r, index') ->
  r <> UDS_SUCCESS ->
  need_to_save index = true
  /\ last_save index' = last_save index
  /\ prev_save index' = last_save index
  /\ need_to_save index' = true
  /\ has_saved_open_chapter index' = has_saved_open_chapter index.
Proof.
  unfold save_index. intros Hrun Hfail.
  destruct (need_to_save index) eqn:Hneed; simpl in Hrun.
  - destruct (save_index_state _ _) as [r1 st].
    destruct (is_success r1) eqn:Hr1; simpl in Hrun;
      inversion Hrun; subst.
    + exfalso. apply is_success_true in Hr1. contradiction.
    + simpl. rewrite Hneed. repeat split.
  - inversion Hrun; subst. contradiction.
Qed.

(** X7. A save that succeeds records the chapter before the newest one as
    [last_save] ([NO_LAST_SAVE] when no chapter was closed yet) and the
    former [last_save] as [prev_save], and clears [need_to_save]; saving
    again at once does nothing. *)
Theorem save_index_twice index index' :
  save_index index = (UDS_SUCCESS, index') ->
  need_to_save index' = false
  /\ save_index index' = (UDS_SUCCESS, index')
  /\ (need_to_save index = true ->
      last_save index'
        = (if index_newest_virtual_chapter index =? 0 then NO_LAST_SAVE
           else index_newest_virtual_chapter index - 1)
      /\ prev_save index' = last_save index
      /\ has_saved_open_chapter index' = true).
Proof.
  unfold save_index at 1. intros Hrun.
  destruct (need_to_save index) eqn:Hneed; simpl in Hrun.
  - destruct (save_index_state _ _) as [r1 st].
    destruct (is_success r1) eqn:Hr1; simpl in Hrun;
      inversion Hrun; subst.
    + split; [reflexivity |]. split; [reflexivity |].
      intros _. repeat split.
    + discriminate.
  - inversion Hrun; subst. split; [exact Hneed |].
    split; [| intros H; discriminate].
    unfold save_index. rewrite Hneed. reflexivity.
Qed.

Lemma rebuild_index_loaded_type index index' :
  rebuild_index index = Some (UDS_SUCCESS, index') ->
  loaded_type index' = LOAD_REBUILD \/ loaded_type index' = LOAD_EMPTY.
Proof.
  unfold rebuild_index. intros Hrun.
  destruct (find_volume_chapter_boundaries _ _) as [[[[r lo] hi] e] v].
  destruct (is_success r) eqn:Hr; simpl in Hrun;
    [| inversion Hrun; subst r; discriminate].
  destruct (hi <? lo); [discriminate |].
  destruct (_ <? sub64 _ _); [discriminate |].
  destruct e.
  - inversion Hrun; subst. right. reflexivity.
  - destruct (replay_volume _ _) as [[r1 i1] |]; simpl in Hrun;
      [| discriminate].
    destruct (is_success r1) eqn:Hr1; simpl in Hrun;
      [| inversion Hrun; subst r1; discriminate].
    inversion Hrun; subst. left. reflexivity.
Qed.

(** X8. An index that [make_index] hands back was created, loaded or
    rebuilt as asked: [LOAD_LOAD] gives a loaded index, [LOAD_REBUILD] a
    loaded one or, when the load failed, a rebuilt one (empty or
    replayed), every other type a created one.  The index needs saving
    exactly when it was not loaded from a save, has a saved open chapter
    exactly when it was, and its load context, if any, is
    [INDEX_READY]. *)
Theorem make_index_marks_what_it_did t fresh index :
  make_index t fresh = Some (UDS_SUCCESS, index) ->
  match t with
  | LOAD_LOAD => loaded_type index = LOAD_LOAD
  | LOAD_REBUILD =>
      loaded_type index = LOAD_LOAD \/ loaded_type index = LOAD_REBUILD
      \/ loaded_type index = LOAD_EMPTY
  | _ => loaded_type index = LOAD_CREATE
  end
  /\ need_to_save index
     = negb match loaded_type index with LOAD_LOAD => true | _ => false end
  /\ has_saved_open_chapter index
     = match loaded_type index with LOAD_LOAD => true | _ => false end
  /\ (forall ctx, load_context index = Some ctx ->
                  load_status ctx = INDEX_READY).
Proof.
  intros Hrun. unfold make_index in Hrun.
  assert (Hload : forall r i,
            load_index fresh = (r, i) ->
            (r = UDS_SUCCESS /\ loaded_type i = LOAD_LOAD)
            \/ (r = UDS_INDEX_NOT_SAVED_CLEANLY /\ i = fresh)).
  { intros r i H. unfold load_index in H.
    destruct (load_index_state _) as [lr image].
    destruct (negb (is_success lr)); inversion H; subst; auto. }
  assert (Hctx : forall i ctx,
            option_map ready (load_context i) = Some ctx ->
            load_status ctx = INDEX_READY).
  { intros i ctx H. destruct (load_context i); inversion H. reflexivity. }
  destruct t; simpl in Hrun;
    try (inversion Hrun; subst; simpl;
         repeat split; try reflexivity; apply Hctx).
  - (* LOAD_LOAD *)
    destruct (load_index fresh) as [r i] eqn:Hli.
    destruct (Hload r i eq_refl) as [[-> Ht] | [-> ->]]; simpl in Hrun;
      [| discriminate].
    inversion Hrun; subst. simpl. rewrite Ht.
    repeat split; try reflexivity. apply Hctx.
  - (* LOAD_REBUILD *)
    destruct (load_index fresh) as [r i] eqn:Hli.
    destruct (Hload r i eq_refl) as [[-> Ht] | [-> ->]]; simpl in Hrun.
    + inversion Hrun; subst. simpl. rewrite Ht.
      repeat split; try reflexivity; [left; reflexivity | apply Hctx].
    + destruct (rebuild_index fresh) as [[r' i'] |] eqn:Hrb;
        simpl in Hrun; [| discriminate].
      destruct (is_success r') eqn:Hr'; simpl in Hrun;
        [| inversion Hrun; subst r'; discriminate].
      apply is_success_true in Hr'. subst r'.
      inversion Hrun; subst. simpl.
      destruct (rebuild_index_loaded_type _ _ Hrb) as [Ht | Ht]; rewrite Ht;
        repeat split; try reflexivity; try apply Hctx; auto.
Qed.

(** X9. Chapter boundaries that cannot be the window of the volume are
    refused: when the scan reports a highest chapter below the lowest one,
    or chapters [lo .. hi] that are more than [chapters_per_volume],
    [rebuild_index] returns [UDS_CORRUPT_COMPONENT] without replaying
    anything (the volume index and the zones are as before). *)
Theorem rebuild_index_refuses_bad_boundaries index lo hi e v :
  find_volume_chapter_boundaries (volume index) LOOKUP_FOR_REBUILD
    = (UDS_SUCCESS, lo, hi, e, v) ->
  0 <= lo -> hi < UINT64_MAX ->
  Z.of_nat (chapters_per_volume (index_geometry index)) <= UINT64_MAX ->
  hi < lo
  \/ (e = false
      /\ Z.of_nat (chapters_per_volume (index_geometry index)) < hi + 1 - lo) ->
  exists index',
    rebuild_index index = Some (UDS_CORRUPT_COMPONENT, index')
    /\ volume_index index' = volume_index index
    /\ zones index' = zones index.
Proof.
  intros Hscan Hlo Hhi Hcpv Hbad. unfold rebuild_index. rewrite Hscan.
  simpl.
  destruct (Z.ltb_spec hi lo) as [Hlt | Hle].
  - eexists. split; [reflexivity |]. split; reflexivity.
  - destruct Hbad as [Hbad | [-> Hwide]]; [lia |].
    set (cpv := Z.of_nat (chapters_per_volume (index_geometry index))) in *.
    assert (Hu_lo : is_u64 lo) by (unfold is_u64; lia).
    assert (Hu_cpv : is_u64 cpv) by (unfold is_u64; lia).
    rewrite (shadow_test (add64 hi 1) lo cpv (wrap64_range _) Hu_lo Hu_cpv).
    rewrite !(add64_small hi 1) by lia.
    rewrite (sub64_small (hi + 1) lo) by lia.
    destruct (Z.eqb_spec (hi + 1 - lo) cpv) as [E | _]; [lia |].
    simpl. fold cpv.
    rewrite (sub64_small (hi + 1) lo) by lia.
    destruct (Z.ltb_spec cpv (hi + 1 - lo)) as [_ | Hno]; [| lia].
    eexists. split; [reflexivity |]. split; reflexivity.
Qed.

Ltac kept :=
  repeat match goal with
         | H : settings_kept _ _ |- _ =>
             unfold settings_kept in H; decompose [and] H; clear H
         end;
  unfold settings_kept; simpl in *; repeat split; congruence.

Lemma settings_kept_refl a : settings_kept a a.
Proof. kept. Qed.

Lemma settings_kept_trans a b c :
  settings_kept a b -> settings_kept b c -> settings_kept a c.
Proof. intros H1 H2. kept. Qed.

Lemma swap_open_chapter_kept z index r index' :
  swap_open_chapter z index = Some (r, index') -> settings_kept index index'.
Proof.
  unfold swap_open_chapter. intros H.
  destruct (zones index !! z) as [zone |]; simpl in H; [| discriminate].
  destruct (finish_previous_chapter _ _) as [r1 w].
  destruct (negb (is_success r1)); inversion H; subst; kept.
Qed.

Lemma reap_oldest_chapter_kept z index r index' :
  reap_oldest_chapter z index = Some (r, index') -> settings_kept index index'.
Proof.
  unfold reap_oldest_chapter. intros H.
  destruct (zones index !! z) as [zone |]; simpl in H; [| discriminate].
  destruct (negb (is_success _)); inversion H; subst; kept.
Qed.

Lemma close_open_chapter_kept z index r n c index' :
  close_open_chapter z index = Some (r, n, c, index') ->
  settings_kept index index'.
Proof.
  unfold close_open_chapter. intros H.
  destruct (swap_open_chapter z index) as [[r1 i1] |] eqn:Hs; simpl in H;
    [| discriminate].
  apply swap_open_chapter_kept in Hs.
  destruct (zones i1 !! z) as [zone |]; simpl in H; [| discriminate].
  destruct (negb (is_success r1)); [inversion H; subst; exact Hs |].
  destruct (reap_oldest_chapter _ _) as [[r2 i2] |] eqn:Hr; simpl in H;
    [| discriminate].
  apply reap_oldest_chapter_kept in Hr.
  assert (Hi2 : settings_kept index i2) by kept.
  clear Hs Hr.
  destruct (negb (is_success r2)); [inversion H; subst; exact Hi2 |].
  destruct (zones i2 !! z) as [zone2 |]; simpl in H; [| discriminate].
  destruct (process_checkpointing _ _ _ _ _ _) as [[[r3 cp] st] [sl sp]].
  destruct (negb (is_success r3)); [inversion H; subst; kept |].
  destruct (start_closing_chapter _ _ _) as [fz w].
  inversion H; subst. kept.
Qed.

Lemma expire_chapters_kept z n r0 index r index' :
  expire_chapters z n r0 index = Some (r, index') -> settings_kept index index'.
Proof.
  unfold expire_chapters. intros H.
  destruct (zones index !! z) as [zone |]; simpl in H; [| discriminate].
  destruct (_ <? _)%nat; [inversion H; subst; kept |].
  destruct (forget_expired _ _ _ _) as [r1 v].
  inversion H; subst. kept.
Qed.

Lemma handle_chapter_closed_kept open_next z c index r index' :
  (forall i q idx r0 idx',
      open_next i q idx = Some (r0, idx') -> settings_kept idx idx') ->
  handle_chapter_closed open_next z c index = Some (r, index') ->
  settings_kept index index'.
Proof.
  intros Hopen. unfold handle_chapter_closed. intros H.
  destruct (zones index !! z) as [zone |]; simpl in H; [| discriminate].
  destruct (_ =? _).
  - eapply Hopen. exact H.
  - inversion H; subst. apply settings_kept_refl.
Qed.

Lemma announce_loop_kept open_next has_router z c numbers :
  (forall i q idx r0 idx',
      open_next i q idx = Some (r0, idx') -> settings_kept idx idx') ->
  forall index r index',
    announce_loop open_next has_router z c numbers index = Some (r, index') ->
    settings_kept index index'.
Proof.
  intros Hopen. induction numbers as [| i rest IH]; intros index r index' H.
  - inversion H; subst. apply settings_kept_refl.
  - cbn [announce_loop] in H.
    destruct (Nat.eqb z i); [exact (IH _ _ _ H) |].
    destruct has_router.
    + simpl in H. apply IH in H.
      eapply settings_kept_trans; [| exact H]. kept.
    + destruct (handle_chapter_closed _ _ _ _) as [[r1 i1] |] eqn:Hh;
        simpl in H; [| discriminate].
      apply (handle_chapter_closed_kept _ _ _ _ _ _ Hopen) in Hh.
      destruct (negb (is_success r1)); [inversion H; subst; exact Hh |].
      eapply settings_kept_trans; [exact Hh | exact (IH _ _ _ H)].
Qed.

Lemma open_next_chapter_kept fuel :
  forall z request index r index',
    open_next_chapter fuel z request index = Some (r, index') ->
    settings_kept index index'.
Proof.
  induction fuel as [| fuel IH]; intros z request index r index' H;
    [discriminate |].
  cbn [open_next_chapter] in H.
  destruct (close_open_chapter z index) as [[[[r1 n] c] i1] |] eqn:Hc;
    simpl in H; [| discriminate].
  apply close_open_chapter_kept in Hc.
  destruct (negb (is_success r1)); [inversion H; subst; exact Hc |].
  destruct (Nat.eqb n 1 && _).
  - destruct (announce_chapter_closed _ _ _ _ _) as [[r2 i2] |] eqn:Ha;
      simpl in H; [| discriminate].
    unfold announce_chapter_closed in Ha.
    apply announce_loop_kept in Ha; [| exact IH].
    destruct (negb (is_success r2)).
    + inversion H; subst. eapply settings_kept_trans; eassumption.
    + apply expire_chapters_kept in H.
      eapply settings_kept_trans; [| exact H].
      eapply settings_kept_trans; eassumption.
  - simpl in H.
    destruct (negb (is_success r1)); [inversion H; subst; exact Hc |].
    apply expire_chapters_kept in H.
    eapply settings_kept_trans; eassumption.
Qed.

Lemma search_sparse_cache_in_zone_kept z request vcn f index r f' request' index' :
  search_sparse_cache_in_zone z request vcn f index
    = Some (r, f', request', index') ->
  settings_kept index index'.
Proof.
  unfold search_sparse_cache_in_zone. intros H.
  destruct (zones index !! z) as [zone |]; simpl in H; [| discriminate].
  destruct (search_sparse_cache _ _ _ _ _ _) as [[[r1 c] p] v].
  destruct (negb (is_success r1) || (c =? UINT64_MAX)).
  - inversion H; subst. kept.
  - destruct (search_cached_record_page _ _ _ _ _) as [[r2 o] v2].
    destruct (record_search o request) as [f2 q2].
    inversion H; subst. kept.
Qed.

Lemma get_record_from_zone_kept z request f vcn index r f' request' index' :
  get_record_from_zone z request f vcn index = Some (r, f', request', index') ->
  settings_kept index index'.
Proof.
  unfold get_record_from_zone. intros H.
  destruct (zones index !! z) as [zone |]; simpl in H; [| discriminate].
  destruct (vcn =? newest_virtual_chapter zone).
  { destruct (record_search _ request). inversion H; subst. kept. }
  destruct (_ && _ && _).
  { destruct (record_search _ request). inversion H; subst. kept. }
  destruct (negb (uds_index_region_eqb _ _)).
  { inversion H; subst. kept. }
  destruct (_ && _).
  { eapply search_sparse_cache_in_zone_kept. exact H. }
  destruct (search_volume_page_cache _ _ _ _ _) as [[r1 o] v].
  destruct (record_search o request). inversion H; subst. kept.
Qed.

Lemma confirm_index_record_kept z request record f index r f' request' index' :
  confirm_index_record z request record f index
    = Some (r, f', request', index') ->
  settings_kept index index'.
Proof.
  unfold confirm_index_record. intros H.
  destruct (is_found record); [| inversion H; subst; kept].
  destruct (get_record_from_zone _ _ _ _ _) as [[[[r1 f1] q1] i1] |] eqn:Hg;
    [| discriminate].
  apply get_record_from_zone_kept in Hg.
  destruct (negb (is_success r1)); [inversion H; subst; exact Hg |].
  destruct (zones i1 !! z) as [zone |]; simpl in H; [| discriminate].
  inversion H; subst. exact Hg.
Qed.

Lemma probe_sparse_cache_kept z request f index r f' request' index' :
  probe_sparse_cache z request f index = Some (r, f', request', index') ->
  settings_kept index index'.
Proof.
  unfold probe_sparse_cache. intros H.
  destruct (_ && _); [| inversion H; subst; kept].
  destruct (search_sparse_cache_in_zone _ _ _ _ _)
    as [[[[r1 f1] q1] i1] |] eqn:Hs; [| discriminate].
  apply search_sparse_cache_in_zone_kept in Hs.
  destruct (negb (is_success r1)); inversion H; subst; exact Hs.
Qed.

Lemma update_index_record_kept z request record f index o f' request' index' :
  update_index_record z request record f index = Some (o, f', request', index') ->
  settings_kept index index'.
Proof.
  unfold update_index_record. intros H.
  destruct (zones index !! z) as [zone |]; simpl in H; [| discriminate].
  destruct (f || _).
  - destruct (_ && _); [inversion H; subst; kept |].
    destruct (negb (_ =? _)).
    + destruct (set_volume_index_record_chapter _ _ _).
      inversion H; subst. kept.
    + destruct (negb (is_update _)); inversion H; subst; kept.
  - destruct (probe_sparse_cache _ _ _ _) as [[[[r1 f1] q1] i1] |] eqn:Hp;
      [| discriminate].
    apply probe_sparse_cache_kept in Hp.
    destruct (negb (is_success r1)); [inversion H; subst; exact Hp |].
    destruct (_ && _); [inversion H; subst; exact Hp |].
    destruct (put_volume_index_record _ _ _).
    inversion H; subst. kept.
Qed.

Lemma put_record_in_zone_kept fuel z request metadata index r index' :
  put_record_in_zone fuel z request metadata index = Some (r, index') ->
  settings_kept index index'.
Proof.
  unfold put_record_in_zone. intros H.
  destruct (zones index !! z) as [zone |]; simpl in H; [| discriminate].
  destruct (put_open_chapter _ _ _) as [[r1 n] oc].
  destruct (negb (is_success r1)); [inversion H; subst; kept |].
  destruct (Nat.eqb n 0).
  - apply open_next_chapter_kept in H. kept.
  - inversion H; subst. kept.
Qed.

Lemma search_index_zone_kept fuel z request index r request' index' :
  search_index_zone fuel z request index = Some (r, request', index') ->
  settings_kept index index'.
Proof.
  unfold search_index_zone. intros H.
  destruct (get_volume_index_record _ _) as [r0 record].
  destruct (negb (is_success r0)); [inversion H; subst; kept |].
  destruct (confirm_index_record _ _ _ _ _) as [[[[r1 f1] q1] i1] |] eqn:Hc;
    [| discriminate].
  apply confirm_index_record_kept in Hc.
  destruct (negb (is_success r1)); [inversion H; subst; exact Hc |].
  destruct (update_index_record _ _ _ _ _) as [[[[o f2] q2] i2] |] eqn:Hu;
    [| discriminate].
  apply update_index_record_kept in Hu.
  assert (Hi2 : settings_kept index i2)
    by (eapply settings_kept_trans; eassumption).
  destruct o as [r2 | r2]; [inversion H; subst; exact Hi2 |].
  destruct (status_eqb r2 UDS_OVERFLOW); [inversion H; subst; exact Hi2 |].
  destruct (negb (is_success r2)); [inversion H; subst; exact Hi2 |].
  destruct (put_record_in_zone _ _ _ _ _) as [[r3 i3] |] eqn:Hp;
    [| discriminate].
  apply put_record_in_zone_kept in Hp.
  inversion H; subst. eapply settings_kept_trans; eassumption.
Qed.

Lemma remove_from_index_zone_kept indeterminate z request index
    r request' index' :
  remove_from_index_zone indeterminate z request index
    = Some (r, request', index') ->
  settings_kept index index'.
Proof.
  unfold remove_from_index_zone. intros H.
  destruct (get_volume_index_record _ _) as [r0 record].
  destruct (negb (is_success r0)); [inversion H; subst; kept |].
  destruct (negb (is_found record)); [inversion H; subst; kept |].
  assert (Hres : forall o q i,
    (if negb (is_collision record)
     then
       match get_record_from_zone z request indeterminate
               (record_virtual_chapter record) index with
       | Some (result, found, request, index) =>
           if negb (is_success result) then Some (Some result, request, index)
           else if negb found then Some (Some UDS_SUCCESS, request, index)
           else Some (@None status, request, index)
       | None => None
       end
     else Some (None, request, index)) = Some (o, q, i) ->
    settings_kept index i).
  { intros o q i Hr.
    destruct (negb (is_collision record)); [| inversion Hr; subst; kept].
    destruct (get_record_from_zone _ _ _ _ _) as [[[[r1 f1] q1] i1] |] eqn:Hg;
      [| discriminate].
    apply get_record_from_zone_kept in Hg.
    destruct (negb (is_success r1)); [inversion Hr; subst; exact Hg |].
    destruct (negb f1); inversion Hr; subst; exact Hg. }
  match type of H with
  | match ?resolved with _ => _ end = _ =>
      destruct resolved as [[[o q] i] |] eqn:Hr; [| discriminate]
  end.
  clear Hr. pose proof (Hres o q i eq_refl) as Hr. clear Hres.
  destruct o as [r1 |]; [inversion H; subst; exact Hr |].
  destruct (zones i !! z) as [zone |] eqn:Hz; simpl in H; [| discriminate].
  destruct (remove_volume_index_record _ _) as [r2 vi].
  destruct (negb (is_success r2)); [inversion H; subst; kept |].
  destruct (uds_index_region_eqb _ _).
  - destruct (remove_from_open_chapter _ _) as [hx oc].
    assert (Hw : forall j, settings_kept j (with_zone_open_chapter z oc j)).
    { intros j. unfold with_zone_open_chapter.
      destruct (zones j !! z); kept. }
    pose proof (Hw (with_volume_index vi i)) as Hwi.
    destruct (negb (is_success (ASSERT hx))); inversion H; subst;
      (eapply settings_kept_trans; [| exact Hwi]); kept.
  - inversion H; subst. kept.
Qed.

Lemma simulate_index_zone_barrier_message_kept z request index r index' :
  simulate_index_zone_barrier_message z request index = Some (r, index') ->
  settings_kept index index'.
Proof.
  unfold simulate_index_zone_barrier_message. intros H.
  destruct (_ || _); [inversion H; subst; kept |].
  destruct (triage_index_request index request) as [c |]; simpl in H;
    [| discriminate].
  destruct (c =? UINT64_MAX); [inversion H; subst; kept |].
  destruct (zones index !! z) as [zone |]; simpl in H; [| discriminate].
  destruct (update_sparse_cache _ _ _ _ _) as [r1 v].
  inversion H; subst. kept.
Qed.

Lemma dispatch_index_request_kept fuel indeterminate request index
    r request' index' :
  dispatch_index_request fuel indeterminate request index
    = Some (r, request', index') ->
  settings_kept index index'.
Proof.
  unfold dispatch_index_request. intros H.
  assert (Hbarrier : forall r1 i1,
    (if negb (requeued request)
     then simulate_index_zone_barrier_message (zone_number request)
            request index
     else Some (UDS_SUCCESS, index)) = Some (r1, i1) ->
    settings_kept index i1).
  { intros r1 i1 Hb. destruct (negb (requeued request)).
    - eapply simulate_index_zone_barrier_message_kept. exact Hb.
    - inversion Hb; subst. apply settings_kept_refl. }
  destruct (if negb (requeued request) then _ else _) as [[r1 i1] |] eqn:Hb;
    [| discriminate].
  clear Hb. pose proof (Hbarrier r1 i1 eq_refl) as Hb. clear Hbarrier.
  destruct (negb (is_success r1)); [inversion H; subst; exact Hb |].
  simpl in H.
  destruct (request_type request).
  - destruct (search_index_zone _ _ _ _) as [[[r2 q2] i2] |] eqn:Hs;
      [| discriminate].
    apply search_index_zone_kept in Hs. inversion H; subst.
    eapply settings_kept_trans; eassumption.
  - destruct (search_index_zone _ _ _ _) as [[[r2 q2] i2] |] eqn:Hs;
      [| discriminate].
    apply search_index_zone_kept in Hs. inversion H; subst.
    eapply settings_kept_trans; eassumption.
  - destruct (remove_from_index_zone _ _ _ _) as [[[r2 q2] i2] |] eqn:Hs;
      [| discriminate].
    apply remove_from_index_zone_kept in Hs. inversion H; subst.
    eapply settings_kept_trans; eassumption.
  - destruct (search_index_zone _ _ _ _) as [[[r2 q2] i2] |] eqn:Hs;
      [| discriminate].
    apply search_index_zone_kept in Hs. inversion H; subst.
    eapply settings_kept_trans; eassumption.
  - inversion H; subst. exact Hb.
Qed.

(** X10. Whatever a request does to the zones, the volume index, the
    volume and, through the checkpoint of a chapter closure, the saved
    state, its dispatch leaves these alone: the geometry, the chapter
    counters of the index itself, the lookup mode, the loaded type, the
    load context, the triage queue, and the flags [need_to_save] and
    [has_saved_open_chapter]. *)
Theorem dispatch_keeps_settings fuel indeterminate request index
    r request' index' :
  dispatch_index_request fuel indeterminate request index
    = Some (r, request', index') ->
  index_geometry index' = index_geometry index
  /\ index_newest_virtual_chapter index' = index_newest_virtual_chapter index
  /\ index_oldest_virtual_chapter index' = index_oldest_virtual_chapter index
  /\ lookup_mode index' = lookup_mode index
  /\ triage_queue index' = triage_queue index
  /\ loaded_type index' = loaded_type index
  /\ load_context index' = load_context index
  /\ need_to_save index' = need_to_save index
  /\ has_saved_open_chapter index' = has_saved_open_chapter index.
Proof.
  intros H. apply dispatch_index_request_kept in H. exact H.
Qed.



Lemma status_eqb_queued r : status_eqb r UDS_QUEUED = false -> r <> UDS_QUEUED.
Proof. intros H E. subst r. discriminate. Qed.


(** X12. The queue the router of indexRouter.c selects for a request is
    the queue the index of index.c selects, stage by stage, when the
    router holds the index and has a triage queue exactly when the index
    has one; both set the zone of the request from the volume index when
    and only when the request goes on to the index stage. *)
Theorem select_index_router_queue_agrees r index request next_stage :
  volume_index (router_index r) = volume_index index ->
  (router_triage_queue r = None <-> triage_queue index = None) ->
  select_index_router_queue r request next_stage
  = select_index_queue index request next_stage.
Proof.
  intros Hvi Htriage.
  unfold select_index_router_queue, select_index_queue. rewrite Hvi.
  destruct next_stage; try reflexivity.
  destruct (router_triage_queue r) as [q |] eqn:Hr,
           (triage_queue index) as [q' |] eqn:Hi; try reflexivity.
  - destruct Htriage as [_ Hback]. specialize (Hback eq_refl). discriminate.
  - destruct Htriage as [Hforth _]. specialize (Hforth eq_refl). discriminate.
Qed.

(** X24. What the replay of one record does not do.  A record of a chapter
    that will be sparse whose name is not a sample is skipped, and a
    collision entry that already names the chapter is left alone: both
    return [UDS_SUCCESS] with the index as it is.  The volume is searched
    only for a name whose entry in the volume index is a hint to another
    chapter: in every other case the volume is as before. *)
Theorem replay_record_reads_volume_for_moved_hints_only
    index name virtual_chapter will_be_sparse_chapter record :
  get_volume_index_record (volume_index index) name = (UDS_SUCCESS, record) ->
  let skipped :=
    will_be_sparse_chapter
    && negb (is_volume_index_sample (volume_index index) name) in
  (skipped = true ->
   replay_record index name virtual_chapter will_be_sparse_chapter
   = (UDS_SUCCESS, index))
  /\ (skipped = false ->
      is_found record = true -> is_collision record = true ->
      record_virtual_chapter record = virtual_chapter ->
      replay_record index name virtual_chapter will_be_sparse_chapter
      = (UDS_SUCCESS, index))
  /\ (is_found record = false \/ is_collision record = true
      \/ record_virtual_chapter record = virtual_chapter ->
      volume (snd (replay_record index name virtual_chapter
                     will_be_sparse_chapter))
      = volume index).
Proof.
  intros Hget skipped. unfold replay_record. fold skipped.
  split; [intros ->; reflexivity |].
  split.
  - intros -> Hfound Hcollision Hchapter.
    rewrite Hget. simpl. unfold replay_decide.
    rewrite Hfound, Hcollision, Hchapter, Z.eqb_refl. reflexivity.
  - intros Hcase. destruct skipped; [reflexivity |].
    rewrite Hget. simpl.
    assert (Hdecide : forall d i,
              replay_decide index record name virtual_chapter = (d, i) ->
              i = index).
    { intros d i Hd. unfold replay_decide in Hd.
      destruct (is_found record); [| inversion Hd; reflexivity].
      destruct (is_collision record).
      - destruct (_ =? _); inversion Hd; reflexivity.
      - destruct (Z.eqb_spec (record_virtual_chapter record) virtual_chapter)
          as [E | Hne]; [inversion Hd; reflexivity |].
        destruct Hcase as [H | [H | H]]; try discriminate. contradiction. }
    destruct (replay_decide index record name virtual_chapter) as [d i] eqn:Hd.
    rewrite (Hdecide d i eq_refl).
    destruct d as [r | u]; [reflexivity |].
    unfold replay_write.
    destruct (if u then _ else _) as [r vi].
    destruct (_ || _); reflexivity.
Qed.

(** X25. A POST or a QUERY of a name whose record is in the open chapter
    of its zone writes nothing: [search_index_zone] returns [UDS_SUCCESS]
    with the index as it is, the location [UDS_LOCATION_IN_OPEN_CHAPTER]
    and the stored metadata in [old_metadata]. *)
Theorem found_in_open_chapter_writes_nothing fuel z request index zone
    record metadata :
  request_type request = UDS_POST \/ request_type request = UDS_QUERY ->
  zones index !! z = Some zone ->
  get_volume_index_record (volume_index index) (chunk_name request)
    = (UDS_SUCCESS, record) ->
  is_found record = true ->
  record_virtual_chapter record = newest_virtual_chapter zone ->
  search_open_chapter (open_chapter zone) (chunk_name request)
    = Some metadata ->
  search_index_zone fuel z request index
  = Some (UDS_SUCCESS,
          set_location UDS_LOCATION_IN_OPEN_CHAPTER
            (set_old_metadata metadata request),
          index).
Proof.
  intros Htype Hz Hget Hfound Hchapter Hsearch.
  unfold search_index_zone. rewrite Hget. simpl.
  unfold confirm_index_record. rewrite Hfound.
  unfold get_record_from_zone. rewrite Hz. simpl.
  rewrite Hchapter, Z.eqb_refl, Hsearch. simpl.
  rewrite Hz. simpl.
  unfold compute_index_region. rewrite ?Z.eqb_refl.
  unfold update_index_record. rewrite Hz. simpl.
  rewrite Hfound, Hchapter, ?Z.eqb_refl.
  destruct Htype as [Ht | Ht]; rewrite Ht; simpl.
  - reflexivity.
  - destruct (update request); simpl; rewrite ?andb_false_r; reflexivity.
Qed.

End EngineFactsMore.

(** * The session *)

Section IndexSessionFacts.
Context {C : Components} {K : SessionConstants}.
Hypothesis Hbits : flags_are_bits.

Lemma IS_FLAG_pow2 f : IS_FLAG f = 2 ^ flag_bit f.
Proof. unfold IS_FLAG. apply Z.shiftl_1_l. Qed.

Lemma IS_FLAG_testbit f n :
  Z.testbit (IS_FLAG f) n = (flag_bit f =? n).
Proof.
  rewrite IS_FLAG_pow2. apply Z.pow2_bits_eqb. apply Hbits.
Qed.

Lemma land_IS_FLAG a f :
  Z.land a (IS_FLAG f) = if Z.testbit a (flag_bit f) then IS_FLAG f else 0.
Proof.
  apply Z.bits_inj'. intros n Hn.
  rewrite Z.land_spec, IS_FLAG_testbit.
  destruct (Z.eqb_spec (flag_bit f) n) as [<- | Hne].
  - rewrite andb_true_r.
    destruct (Z.testbit a (flag_bit f)).
    + rewrite IS_FLAG_testbit, Z.eqb_refl. reflexivity.
    + rewrite Z.bits_0. reflexivity.
  - rewrite andb_false_r.
    destruct (Z.testbit a (flag_bit f)).
    + rewrite IS_FLAG_testbit. symmetry. apply Z.eqb_neq. exact Hne.
    + rewrite Z.bits_0. reflexivity.
Qed.

Lemma IS_FLAG_positive f : 0 < IS_FLAG f.
Proof.
  rewrite IS_FLAG_pow2. apply Z.pow_pos_nonneg; [lia | apply Hbits].
Qed.

Lemma has_flag_testbit f s :
  has_flag f s = Z.testbit (state s) (flag_bit f).
Proof.
  unfold has_flag. rewrite land_IS_FLAG.
  pose proof (IS_FLAG_positive f).
  destruct (Z.testbit (state s) (flag_bit f)).
  - destruct (Z.eqb_spec (IS_FLAG f) 0); [lia | reflexivity].
  - reflexivity.
Qed.

Lemma flag_bit_eqb f g :
  (flag_bit g =? flag_bit f) = true -> g = f.
Proof. intros H. apply Z.eqb_eq in H. apply Hbits. exact H. Qed.

Lemma has_flag_set f g s :
  has_flag f (set_flag g s) = has_flag f s || (flag_bit g =? flag_bit f).
Proof.
  rewrite !has_flag_testbit. unfold set_flag. simpl.
  rewrite Z.lor_spec, IS_FLAG_testbit. reflexivity.
Qed.

Lemma has_flag_clear f g s :
  has_flag f (clear_flag g s)
  = has_flag f s && negb (flag_bit g =? flag_bit f).
Proof.
  rewrite !has_flag_testbit. unfold clear_flag. simpl.
  rewrite Z.ldiff_spec, IS_FLAG_testbit. reflexivity.
Qed.

Lemma has_flag_IS_FLAG f g s :
  state s = IS_FLAG g -> has_flag f s = (flag_bit g =? flag_bit f).
Proof.
  intros H. rewrite has_flag_testbit, H. apply IS_FLAG_testbit.
Qed.

Lemma has_flag_zero f s : state s = 0 -> has_flag f s = false.
Proof. intros H. rewrite has_flag_testbit, H. apply Z.bits_0. Qed.

Lemma flag_bit_neq f g : f <> g -> (flag_bit g =? flag_bit f) = false.
Proof.
  intros Hne. apply Z.eqb_neq. intros E. apply Hne. symmetry.
  apply Hbits. exact E.
Qed.

Ltac flag_eqb :=
  repeat match goal with
         | |- context [flag_bit ?f =? flag_bit ?f] =>
             rewrite (Z.eqb_refl (flag_bit f))
         | |- context [flag_bit ?g =? flag_bit ?f] =>
             rewrite (flag_bit_neq f g) by discriminate
         end.

Ltac flag_bits :=
  rewrite ?has_flag_testbit;
  unfold now_suspended, set_flag, clear_flag; simpl;
  repeat first [ rewrite Z.lor_spec | rewrite Z.ldiff_spec
               | rewrite Z.land_spec | rewrite IS_FLAG_testbit ];
  flag_eqb; simpl;
  rewrite ?orb_false_r, ?andb_true_r, ?orb_true_r, ?andb_false_r.

(** X13. A session in which the disabled flag is set refuses every
    request with [UDS_DISABLED], whatever its other flags; the flag stays
    set through the end of a load, a suspend and a resume. *)
Theorem disabled_session_refuses s :
  has_flag IS_DISABLED s = true ->
  check_index_session s = UDS_DISABLED
  /\ fst (get_index_session s) = UDS_DISABLED
  /\ (forall r, has_flag IS_DISABLED (finish_loading_index_session s r) = true)
  /\ has_flag IS_DISABLED (snd (uds_resume_index_session s)) = true
  /\ (forall save r s',
        uds_suspend_index_session save s = Some (r, s') ->
        has_flag IS_DISABLED s' = true).
Proof.
  intros Hdisabled.
  assert (Hcheck : forall t,
            state t = state s -> check_index_session t = UDS_DISABLED).
  { intros t Ht. unfold check_index_session.
    assert (Hd : has_flag IS_DISABLED t = true).
    { rewrite has_flag_testbit, Ht, <- has_flag_testbit. exact Hdisabled. }
    rewrite Hd.
    destruct (Z.eqb_spec (state t) (IS_FLAG IS_LOADED)) as [E | _];
      [| reflexivity].
    rewrite (has_flag_IS_FLAG _ _ _ E) in Hd.
    apply flag_bit_eqb in Hd. discriminate. }
  rewrite has_flag_testbit in Hdisabled.
  split; [apply Hcheck; reflexivity |].
  split.
  { unfold get_index_session.
    rewrite (Hcheck (with_request_count _ s) eq_refl). reflexivity. }
  split.
  { intros r. unfold finish_loading_index_session.
    destruct (is_success r); flag_bits; exact Hdisabled. }
  split.
  { unfold uds_resume_index_session.
    destruct (has_flag IS_WAITING s);
      [rewrite has_flag_testbit; exact Hdisabled |].
    destruct (negb (has_flag IS_SUSPENDED s));
      [rewrite has_flag_testbit; exact Hdisabled |].
    destruct (negb (has_flag IS_LOADING s)); flag_bits; exact Hdisabled. }
  intros save r s' Hrun. unfold uds_suspend_index_session in Hrun.
  destruct (has_flag IS_CLOSING s); [discriminate |].
  destruct (_ || _);
    [inversion Hrun; subst; rewrite has_flag_testbit; exact Hdisabled |].
  destruct (has_flag IS_SUSPENDED s);
    [inversion Hrun; subst; rewrite has_flag_testbit; exact Hdisabled |].
  assert (Hflush : forall t r1 t1,
    state t = state s ->
    match session_index t with
    | Some _ =>
        '(result, s0) ← uds_flush_index_session (set_flag IS_WAITING t);
        Some (uds_map_to_system_error result, now_suspended s0)
    | None =>
        Some (uds_map_to_system_error UDS_SUCCESS, set_flag IS_SUSPENDED t)
    end = Some (r1, t1) ->
    has_flag IS_DISABLED t1 = true).
  { intros t r1 t1 Ht Hf. destruct (session_index t).
    - unfold uds_flush_index_session, wait_for_no_requests_in_progress in Hf.
      simpl in Hf.
      destruct (0 <? request_count t); simpl in Hf; [discriminate |].
      inversion Hf; subst. flag_bits. rewrite Ht. exact Hdisabled.
    - inversion Hf; subst. flag_bits. rewrite Ht. exact Hdisabled. }
  destruct (has_flag IS_LOADING s).
  - destruct (match load_status _ with INDEX_OPENING => _ | _ => _ end)
      as [ctx |]; simpl in Hrun; [| discriminate].
    inversion Hrun; subst. flag_bits. exact Hdisabled.
  - destruct (negb (has_flag IS_LOADED s));
      [exact (Hflush s r s' eq_refl Hrun) |].
    destruct save; [| exact (Hflush s r s' eq_refl Hrun)].
    unfold uds_save_index, wait_for_no_requests_in_progress in Hrun.
    simpl in Hrun.
    destruct (0 <? request_count s); simpl in Hrun; [discriminate |].
    destruct (session_index s) as [index |]; simpl in Hrun; [| discriminate].
    destruct (save_index index) as [r1 i1]. simpl in Hrun.
    inversion Hrun; subst. flag_bits. exact Hdisabled.
Qed.

(** X14. [get_index_session] admits a request exactly in the state
    [IS_FLAG_LOADED] (no other flag set).  Its result is the result of
    [check_index_session]; the count of requests in progress is one more
    when the request is admitted and is as it was when it is refused, and
    the state word and the index of the session are not touched. *)
Theorem get_index_session_admits_when_loaded s :
  0 <= request_count s < REQUEST_COUNT_MODULUS ->
  exists s',
    get_index_session s = (check_index_session s, s')
    /\ (check_index_session s = UDS_SUCCESS <-> state s = IS_FLAG IS_LOADED)
    /\ state s' = state s
    /\ session_index s' = session_index s
    /\ request_count s'
       = (if is_success (check_index_session s)
          then (request_count s + 1) mod REQUEST_COUNT_MODULUS
          else request_count s).
Proof.
  intros Hcount.
  assert (Hsame : forall n,
            check_index_session (with_request_count n s)
            = check_index_session s) by reflexivity.
  unfold get_index_session. rewrite Hsame.
  assert (Hiff : check_index_session s = UDS_SUCCESS
                 <-> state s = IS_FLAG IS_LOADED).
  { unfold check_index_session.
    destruct (Z.eqb_spec (state s) (IS_FLAG IS_LOADED)) as [E | Hne].
    - split; intros; [exact E | reflexivity].
    - split; [| intros E; contradiction].
      destruct (has_flag IS_DISABLED s); [discriminate |].
      destruct (_ || _); discriminate. }
  destruct (is_success (check_index_session s)) eqn:Hok.
  - apply is_success_true in Hok. simpl.
    eexists. split; [rewrite Hok; reflexivity |]. split; [exact Hiff |].
    repeat split.
  - simpl. eexists. split; [reflexivity |]. split; [exact Hiff |].
    split; [reflexivity |]. split; [reflexivity |].
    simpl. rewrite Zminus_mod_idemp_l.
    replace (request_count s + 1 - 1) with (request_count s) by lia.
    apply Z.mod_small. exact Hcount.
Qed.

Lemma IS_FLAG_injective f g : IS_FLAG f = IS_FLAG g -> f = g.
Proof.
  intros E. apply Hbits.
  assert (Ht : Z.testbit (IS_FLAG f) (flag_bit g) = true).
  { rewrite E, IS_FLAG_testbit. apply Z.eqb_refl. }
  rewrite IS_FLAG_testbit in Ht. apply Z.eqb_eq in Ht. exact Ht.
Qed.

Lemma check_index_session_single f s :
  state s = IS_FLAG f ->
  check_index_session s
  = match f with
    | IS_LOADED => UDS_SUCCESS
    | IS_DISABLED => UDS_DISABLED
    | IS_LOADING | IS_SUSPENDED | IS_WAITING => EBUSY_NEG
    | _ => UDS_NO_INDEX
    end.
Proof.
  intros E. unfold check_index_session.
  rewrite !(has_flag_IS_FLAG _ _ _ E), E.
  destruct (Z.eqb_spec (IS_FLAG f) (IS_FLAG IS_LOADED)) as [El | Hne].
  - apply IS_FLAG_injective in El. subst f. reflexivity.
  - destruct f; try (exfalso; apply Hne; reflexivity); flag_eqb; reflexivity.
Qed.

Lemma check_index_session_zero s :
  state s = 0 -> check_index_session s = UDS_NO_INDEX.
Proof.
  intros E. unfold check_index_session.
  rewrite !(has_flag_zero _ _ E), E.
  pose proof (IS_FLAG_positive IS_LOADED).
  destruct (Z.eqb_spec 0 (IS_FLAG IS_LOADED)); [lia | reflexivity].
Qed.

(** X15. The life of a load.  A session whose state word is 0 may start
    loading; while it loads, requests are refused with [-EBUSY] and a
    second load cannot start; a load that ends with [UDS_SUCCESS] leaves
    the state [IS_FLAG_LOADED], in which requests are admitted, and a load
    that fails leaves the state 0, in which requests are refused with
    [UDS_NO_INDEX] and a load may start again. *)
Theorem loading_session_lifecycle s :
  state s = 0 ->
  let loading := set_flag IS_LOADING s in
  start_loading_index_session s = (UDS_SUCCESS, loading)
  /\ check_index_session loading = EBUSY_NEG
  /\ start_loading_index_session loading = (EBUSY_NEG, loading)
  /\ state (finish_loading_index_session loading UDS_SUCCESS)
     = IS_FLAG IS_LOADED
  /\ check_index_session (finish_loading_index_session loading UDS_SUCCESS)
     = UDS_SUCCESS
  /\ (forall r,
        r <> UDS_SUCCESS ->
        state (finish_loading_index_session loading r) = 0
        /\ check_index_session (finish_loading_index_session loading r)
           = UDS_NO_INDEX
        /\ fst (start_loading_index_session
                  (finish_loading_index_session loading r)) = UDS_SUCCESS).
Proof.
  intros Hzero loading.
  assert (Hloading : state loading = IS_FLAG IS_LOADING).
  { unfold loading, set_flag. simpl. rewrite Hzero. apply Z.lor_0_l. }
  assert (Hcleared : state (clear_flag IS_LOADING loading) = 0).
  { unfold clear_flag. cbn [state with_state]. rewrite Hloading.
    apply Z.ldiff_diag. }
  split.
  { unfold start_loading_index_session.
    rewrite (has_flag_zero _ _ Hzero), Hzero. reflexivity. }
  split; [exact (check_index_session_single _ _ Hloading) |].
  split.
  { unfold start_loading_index_session.
    rewrite (has_flag_IS_FLAG _ _ _ Hloading). flag_eqb.
    rewrite Hloading. pose proof (IS_FLAG_positive IS_LOADING).
    destruct (Z.eqb_spec (IS_FLAG IS_LOADING) 0); [lia | reflexivity]. }
  assert (Hloaded :
    state (finish_loading_index_session loading UDS_SUCCESS)
    = IS_FLAG IS_LOADED).
  { unfold finish_loading_index_session. cbn [is_success status_eqb].
    unfold set_flag at 1. cbn [state with_state]. rewrite Hcleared.
    apply Z.lor_0_l. }
  split; [exact Hloaded |].
  split; [exact (check_index_session_single _ _ Hloaded) |].
  intros r Hfail.
  assert (Hstate : state (finish_loading_index_session loading r) = 0).
  { unfold finish_loading_index_session.
    apply is_success_false in Hfail. rewrite Hfail. exact Hcleared. }
  split; [exact Hstate |].
  split; [exact (check_index_session_zero _ Hstate) |].
  unfold start_loading_index_session.
  rewrite (has_flag_zero _ _ Hstate), Hstate. reflexivity.
Qed.

Lemma ldiff_lor_flag a f :
  Z.testbit a (flag_bit f) = false ->
  Z.ldiff (Z.lor a (IS_FLAG f)) (IS_FLAG f) = a.
Proof.
  intros Hunset. apply Z.bits_inj'. intros n Hn.
  rewrite Z.ldiff_spec, Z.lor_spec, IS_FLAG_testbit.
  destruct (Z.eqb_spec (flag_bit f) n) as [<- | _]; simpl.
  - rewrite Hunset. reflexivity.
  - rewrite orb_false_r, andb_true_r. reflexivity.
Qed.

Lemma clear_set_flag f s :
  has_flag f s = false -> clear_flag f (set_flag f s) = s.
Proof.
  intros Hunset. rewrite has_flag_testbit in Hunset.
  destruct s as [st n i ctx]. unfold clear_flag, set_flag, with_state.
  simpl in *. f_equal. apply ldiff_lor_flag. exact Hunset.
Qed.

(** X16. Suspending and resuming a session that is not loading, has no
    request in progress and no other change of state under way: a suspend
    without save sets the suspended flag and nothing else, the suspended
    session refuses requests (with [-EBUSY], or [UDS_DISABLED] when it is
    disabled) and answers a second suspend with success and no change, and
    a resume gives back the session as it was before the suspend. *)
Theorem suspend_then_resume s :
  has_flag IS_CLOSING s = false ->
  has_flag IS_WAITING s = false ->
  has_flag IS_DESTROYING s = false ->
  has_flag IS_SUSPENDED s = false ->
  has_flag IS_LOADING s = false ->
  request_count s <= 0 ->
  let suspended := set_flag IS_SUSPENDED s in
  uds_suspend_index_session false s
    = Some (uds_map_to_system_error UDS_SUCCESS, suspended)
  /\ (check_index_session suspended = EBUSY_NEG
      \/ check_index_session suspended = UDS_DISABLED)
  /\ (forall save,
        uds_suspend_index_session save suspended
        = Some (uds_map_to_system_error UDS_SUCCESS, suspended))
  /\ uds_resume_index_session suspended = (UDS_SUCCESS, s).
Proof.
  intros Hclosing Hwaiting Hdestroying Hsuspended Hloading Hcount suspended.
  assert (Hflag : forall f,
            has_flag f suspended
            = has_flag f s || (flag_bit IS_SUSPENDED =? flag_bit f)).
  { intros f. apply has_flag_set. }
  assert (Hsusp : has_flag IS_SUSPENDED suspended = true).
  { rewrite Hflag, Z.eqb_refl. apply orb_true_r. }
  split.
  { unfold uds_suspend_index_session.
    rewrite Hclosing, Hwaiting, Hdestroying, Hsuspended, Hloading. simpl.
    assert (Hflush :
      match session_index s with
      | Some _ =>
          '(result, s0) ← uds_flush_index_session (set_flag IS_WAITING s);
          Some (uds_map_to_system_error result, now_suspended s0)
      | None =>
          Some (uds_map_to_system_error UDS_SUCCESS, set_flag IS_SUSPENDED s)
      end = Some (uds_map_to_system_error UDS_SUCCESS, suspended)).
    { destruct (session_index s) eqn:Hidx; [| reflexivity].
      unfold uds_flush_index_session, wait_for_no_requests_in_progress.
      simpl.
      destruct (Z.ltb_spec 0 (request_count s)); [lia |]. simpl.
      unfold now_suspended. rewrite (clear_set_flag _ _ Hwaiting).
      reflexivity. }
    destruct (negb (has_flag IS_LOADED s)); exact Hflush. }
  split.
  { unfold check_index_session.
    destruct (Z.eqb_spec (state suspended) (IS_FLAG IS_LOADED)) as [E | _].
    - rewrite (has_flag_IS_FLAG _ _ _ E) in Hsusp.
      apply flag_bit_eqb in Hsusp. discriminate.
    - destruct (has_flag IS_DISABLED suspended); [right; reflexivity |].
      rewrite Hsusp, orb_true_r. left. reflexivity. }
  split.
  { intros save. unfold uds_suspend_index_session.
    rewrite !Hflag, Hclosing, Hwaiting, Hdestroying. flag_eqb. simpl.
    rewrite orb_true_r. reflexivity. }
  unfold uds_resume_index_session.
  rewrite !Hflag, Hwaiting, Hloading, Hsuspended. flag_eqb. simpl.
  unfold suspended. rewrite (clear_set_flag _ _ Hsuspended). reflexivity.
Qed.

(** X17. Closing the index of a loaded session that is not suspended, has
    no request in progress and no other change of state under way: the
    index is saved and freed, the result of the save is the result of the
    close, the state word is 0 and the load context is back to
    [INDEX_OPENING], so that requests are refused with [UDS_NO_INDEX] and a
    load may start.  A suspended session refuses the close with [-EBUSY]
    and a session with no loaded index with [UDS_NO_INDEX], unchanged. *)
Theorem close_index_resets_session s :
  has_flag IS_WAITING s = false ->
  has_flag IS_CLOSING s = false ->
  (has_flag IS_SUSPENDED s = true ->
   uds_close_index s = Some (uds_map_to_system_error EBUSY_NEG, s))
  /\ (has_flag IS_SUSPENDED s = false ->
      has_flag IS_LOADED s = false ->
      uds_close_index s = Some (uds_map_to_system_error UDS_NO_INDEX, s))
  /\ (forall index,
        has_flag IS_SUSPENDED s = false ->
        has_flag IS_DESTROYING s = false ->
        has_flag IS_LOADED s = true ->
        request_count s <= 0 ->
        session_index s = Some index ->
        exists s',
          uds_close_index s
            = Some (uds_map_to_system_error (fst (save_index index)), s')
          /\ state s' = 0
          /\ session_index s' = None
          /\ load_status (session_load_context s') = INDEX_OPENING
          /\ check_index_session s' = UDS_NO_INDEX
          /\ fst (start_loading_index_session s') = UDS_SUCCESS).
Proof.
  intros Hwaiting Hclosing.
  split.
  { intros Hsuspended. unfold uds_close_index.
    rewrite Hwaiting, Hclosing, Hsuspended. reflexivity. }
  split.
  { intros Hsuspended Hloaded. unfold uds_close_index.
    rewrite Hwaiting, Hclosing, Hsuspended, Hloaded. simpl.
    rewrite orb_true_r. reflexivity. }
  intros index Hsuspended Hdestroying Hloaded Hcount Hindex.
  unfold uds_close_index.
  rewrite Hwaiting, Hclosing, Hsuspended, Hdestroying, Hloaded. simpl.
  unfold wait_for_no_requests_in_progress. simpl.
  destruct (Z.ltb_spec 0 (request_count s)); [lia |]. simpl.
  unfold save_and_free_index. simpl. rewrite Hindex.
  assert (Hstill : has_flag IS_SUSPENDED (set_flag IS_CLOSING s) = false).
  { rewrite has_flag_set, Hsuspended. flag_eqb. reflexivity. }
  rewrite Hstill.
  assert (Hzero :
    Z.ldiff (Z.land (Z.lor (state s) (IS_FLAG IS_CLOSING))
               (IS_FLAG IS_SUSPENDED)) (IS_FLAG IS_CLOSING) = 0).
  { rewrite land_IS_FLAG.
    rewrite has_flag_testbit in Hstill. simpl in Hstill. rewrite Hstill.
    apply Z.ldiff_0_l. }
  eexists. split; [reflexivity |].
  split; [exact Hzero |].
  split; [reflexivity |]. split; [reflexivity |].
  split.
  - apply check_index_session_zero. exact Hzero.
  - unfold start_loading_index_session.
    rewrite has_flag_zero by exact Hzero.
    unfold clear_flag. simpl. rewrite Hzero. reflexivity.
Qed.

(** X23. Suspending and resuming a session that is loading.  When the
    replay answers the suspend by parking ([INDEX_SUSPENDED]), the suspend
    returns [UDS_SUCCESS] with the suspended flag set; the resume that
    follows puts the load context back to [INDEX_OPENING], which lets the
    replay go on, and the state word back to what it was. *)
Theorem suspend_then_resume_while_loading save s ctx' :
  has_flag IS_CLOSING s = false ->
  has_flag IS_WAITING s = false ->
  has_flag IS_DESTROYING s = false ->
  has_flag IS_SUSPENDED s = false ->
  has_flag IS_LOADING s = true ->
  load_status (session_load_context s) = INDEX_OPENING ->
  wait_for_load_status
    (fun st => match st with
               | INDEX_SUSPENDED | INDEX_READY => true
               | _ => false
               end)
    (load_wakeups (session_load_context s)) INDEX_SUSPENDING = Some ctx' ->
  load_status ctx' = INDEX_SUSPENDED ->
  exists suspended resumed,
    uds_suspend_index_session save s = Some (UDS_SUCCESS, suspended)
    /\ has_flag IS_SUSPENDED suspended = true
    /\ load_status (session_load_context suspended) = INDEX_SUSPENDED
    /\ uds_resume_index_session suspended = (UDS_SUCCESS, resumed)
    /\ state resumed = state s
    /\ load_status (session_load_context resumed) = INDEX_OPENING.
Proof.
  intros Hclosing Hwaiting Hdestroying Hsuspended Hloading Hopening
    Hwait Hparked.
  set (suspended :=
         now_suspended
           (with_session_load_context ctx' (set_flag IS_WAITING s))).
  assert (Hrun : uds_suspend_index_session save s
                 = Some (UDS_SUCCESS, suspended)).
  { unfold uds_suspend_index_session.
    rewrite Hclosing, Hwaiting, Hdestroying, Hsuspended, Hloading. simpl.
    rewrite Hopening, Hwait. reflexivity. }
  assert (Hflag : forall f,
            has_flag f suspended
            = (has_flag f s && negb (flag_bit IS_WAITING =? flag_bit f))
              || (flag_bit IS_SUSPENDED =? flag_bit f)).
  { intros f. unfold suspended. flag_bits.
    destruct (flag_bit IS_WAITING =? flag_bit f);
      rewrite ?orb_true_r, ?orb_false_r, ?andb_false_r, ?andb_true_r;
      reflexivity. }
  exists suspended.
  eexists. split; [exact Hrun |].
  split; [rewrite Hflag, Z.eqb_refl; apply orb_true_r |].
  split; [exact Hparked |].
  split.
  { unfold uds_resume_index_session.
    rewrite !Hflag, Hwaiting, Hloading, Hsuspended. flag_eqb. simpl.
    reflexivity. }
  split.
  - unfold suspended. unfold now_suspended, clear_flag, set_flag. simpl.
    rewrite has_flag_testbit in Hwaiting, Hsuspended.
    apply Z.bits_inj'. intros n Hn.
    repeat first [ rewrite Z.lor_spec | rewrite Z.ldiff_spec
                 | rewrite IS_FLAG_testbit ].
    destruct (Z.eqb_spec (flag_bit IS_WAITING) n) as [Ew | _];
      destruct (Z.eqb_spec (flag_bit IS_SUSPENDED) n) as [Es | _];
      simpl;
      repeat match goal with
             | E : flag_bit _ = n |- _ => rewrite <- E in *; clear E
             end;
      rewrite ?Hwaiting, ?Hsuspended;
      rewrite ?orb_false_r, ?andb_true_r, ?orb_true_r, ?andb_false_r;
      reflexivity.
  - simpl. rewrite Hparked. reflexivity.
Qed.

End IndexSessionFacts.

(** * The registry of error blocks *)

Lemma check_error_blocks_none name first last_reserved bs :
  check_error_blocks name first last_reserved bs = None ->
  Forall (fun b =>
            (block_max b <= first \/ last_reserved <= block_base b)
            /\ block_name b <> name) bs.
Proof.
  induction bs as [| b rest IH]; simpl; intros H; [constructor |].
  destruct (String.eqb_spec name (block_name b)) as [E | Hname];
    [discriminate |].
  destruct (Z.ltb_spec first (block_max b)) as [H1 | H1];
    destruct (Z.ltb_spec (block_base b) last_reserved) as [H2 | H2];
    simpl in H; try discriminate;
    (constructor; [split; [lia | congruence] | exact (IH H)]).
Qed.

Lemma check_error_blocks_some name first last_reserved bs e :
  check_error_blocks name first last_reserved bs = Some e ->
  e = UDS_DUPLICATE_NAME \/ e = UDS_ALREADY_REGISTERED.
Proof.
  induction bs as [| b rest IH]; simpl; intros H; [discriminate |].
  destruct (String.eqb name (block_name b)); [inversion H; auto |].
  destruct (_ && _); [inversion H; auto | exact (IH H)].
Qed.

Lemma registry_ok_app bs b :
  registry_ok bs ->
  Forall (fun a => blocks_apart a b) bs ->
  block_ok b ->
  registry_ok (bs ++ [b]).
Proof.
  induction bs as [| a rest IH]; simpl; intros Hok Hapart Hb.
  - split; [exact Hb |]. split; [constructor | exact I].
  - destruct Hok as (Ha & Hrest & Hok).
    inversion Hapart as [| ? ? Hab Hothers]; subst.
    split; [exact Ha |]. split.
    + apply Forall_app. split; [exact Hrest |].
      constructor; [exact Hab | constructor].
    + apply IH; assumption.
Qed.

Lemma register_error_block_adds name first last_reserved infos
    registered registered' :
  registry_ok (blocks registered) ->
  (length (blocks registered) <= blocks_allocated registered)%nat ->
  Z.of_nat (length infos) <= last_reserved - first ->
  register_error_block name first last_reserved infos registered
    = (UDS_SUCCESS, registered') ->
  registry_ok (blocks registered')
  /\ (length (blocks registered') <= blocks_allocated registered')%nat
  /\ exists b,
       blocks registered' = blocks registered ++ [b]
       /\ block_name b = name /\ block_base b = first
       /\ block_last b = first + Z.of_nat (length infos)
       /\ block_max b = last_reserved /\ block_infos b = infos.
Proof.
  intros Hok Hroom Hfit Hrun. unfold register_error_block in Hrun.
  destruct (Z.ltb_spec first last_reserved) as [Hlt | Hge]; simpl in Hrun;
    [| discriminate].
  destruct (Nat.eqb_spec (length (blocks registered)) (blocks_allocated registered))
    as [Hfull | Hfree]; [discriminate |].
  destruct (check_error_blocks _ _ _ _) as [e |] eqn:Hcheck.
  - apply check_error_blocks_some in Hcheck.
    destruct Hcheck; subst; discriminate.
  - apply check_error_blocks_none in Hcheck.
    inversion Hrun; subst. clear Hrun. simpl.
    split.
    + apply registry_ok_app; [exact Hok | |].
      * eapply Forall_impl; [exact Hcheck |].
        intros a [Hrange Hname]. split; [simpl; lia | simpl; exact Hname].
      * split; simpl; [reflexivity | lia].
    + split; [rewrite length_app; simpl; lia |].
      eexists. split; [reflexivity |]. repeat split.
Qed.


(** X18. Registering a block of errors keeps the registry in order: when
    the blocks registered so far have reserved ranges that do not meet,
    names that differ and infos that fit their range, and the infos of the
    new block fit its range, a successful [register_error_block] adds the
    new block at the end and the same holds of the new registry, which
    holds no more blocks than are allocated. *)
Theorem register_error_block_keeps_registry name first last_reserved infos
    registered registered' :
  registry_ok (blocks registered) ->
  (length (blocks registered) <= blocks_allocated registered)%nat ->
  Z.of_nat (length infos) <= last_reserved - first ->
  register_error_block name first last_reserved infos registered
    = (UDS_SUCCESS, registered') ->
  registry_ok (blocks registered')
  /\ (length (blocks registered') <= blocks_allocated registered')%nat
  /\ exists b,
       blocks registered' = blocks registered ++ [b]
       /\ block_name b = name /\ block_base b = first
       /\ block_last b = first + Z.of_nat (length infos)
       /\ block_max b = last_reserved /\ block_infos b = infos.
Proof.
  intros Hok Hroom Hfit Hrun.
  exact (register_error_block_adds _ _ _ _ _ _ Hok Hroom Hfit Hrun).
Qed.

Lemma find_error_block_skip errnum b rest :
  block_ok b ->
  (errnum < block_base b \/ block_max b <= errnum) ->
  find_error_block errnum (b :: rest) = find_error_block errnum rest.
Proof.
  intros [Hlast Hmax] Hout. simpl.
  assert (Hbase : block_base b <= block_last b) by lia.
  destruct (Z.leb_spec (block_base b) errnum);
    destruct (Z.ltb_spec errnum (block_last b));
    destruct (Z.leb_spec (block_last b) errnum);
    destruct (Z.ltb_spec errnum (block_max b)); simpl; try reflexivity; lia.
Qed.

Lemma find_error_block_here errnum b rest :
  block_ok b ->
  block_base b <= errnum < block_max b ->
  find_error_block errnum (b :: rest)
  = (Some (block_name b),
     if errnum <? block_last b
     then nth_error (block_infos b) (Z.to_nat (errnum - block_base b))
     else None).
Proof.
  intros [Hlast Hmax] Hin. simpl.
  destruct (Z.leb_spec (block_base b) errnum); [| lia].
  destruct (Z.ltb_spec errnum (block_last b)); simpl; [reflexivity |].
  destruct (Z.leb_spec (block_last b) errnum); [| lia].
  destruct (Z.ltb_spec errnum (block_max b)); [reflexivity | lia].
Qed.

Lemma find_error_block_in errnum bs b :
  registry_ok bs ->
  In b bs ->
  block_base b <= errnum < block_max b ->
  find_error_block errnum bs
  = (Some (block_name b),
     if errnum <? block_last b
     then nth_error (block_infos b) (Z.to_nat (errnum - block_base b))
     else None).
Proof.
  induction bs as [| a rest IH]; intros Hok Hin Hrange; [destruct Hin |].
  destruct Hok as (Ha & Hrest & Hok).
  destruct Hin as [-> | Hin].
  - apply find_error_block_here; assumption.
  - rewrite find_error_block_skip; [apply IH; assumption | exact Ha |].
    rewrite Forall_forall in Hrest.
    assert (Hab : blocks_apart a b).
    { apply Hrest. apply list_elem_of_In. exact Hin. }
    destruct Hab as [Hranges _]. lia.
Qed.

(** X19. In a registry in order, every code other than 0 in the reserved
    range of a registered block is found as a code of that block: with the
    info at its offset from the base while the infos last, and with no
    info (an unknown code of the block) after them.  0 is
    [UDS_SUCCESS], of no block. *)
Theorem get_error_info_finds_block errnum registered b :
  registry_ok (blocks registered) ->
  In b (blocks registered) ->
  block_base b <= errnum < block_max b ->
  errnum <> 0 ->
  get_error_info errnum registered
  = (Some (block_name b),
     if errnum <? block_last b
     then nth_error (block_infos b) (Z.to_nat (errnum - block_base b))
     else None)
  /\ (errnum < block_last b ->
      exists info,
        nth_error (block_infos b) (Z.to_nat (errnum - block_base b))
        = Some info)
  /\ get_error_info 0 registered = (None, Some successful).
Proof.
  intros Hok Hin Hrange Hnonzero. split; [| split].
  - unfold get_error_info.
    destruct (Z.eqb_spec errnum 0); [contradiction |].
    apply find_error_block_in; assumption.
  - intros Hlast.
    assert (Hb : block_ok b).
    { clear Hrange Hlast. revert Hok Hin.
      induction (blocks registered) as [| a rest IH]; intros Hok Hin;
        [destruct Hin |].
      destruct Hok as (Ha & _ & Hok).
      destruct Hin as [-> | Hin]; [exact Ha | exact (IH Hok Hin)]. }
    destruct Hb as [Hb _].
    destruct (nth_error (block_infos b) (Z.to_nat (errnum - block_base b)))
      as [info |] eqn:Hnth; [exists info; reflexivity |].
    apply nth_error_None in Hnth. lia.
  - reflexivity.
Qed.

Lemma find_error_block_app errnum bs b :
  fst (find_error_block errnum bs) <> None ->
  find_error_block errnum (bs ++ [b]) = find_error_block errnum bs.
Proof.
  induction bs as [| a rest IH]; simpl; intros Hfound;
    [exfalso; apply Hfound; reflexivity |].
  destruct (_ && _); [reflexivity |].
  destruct (_ && _); [reflexivity |].
  apply IH. exact Hfound.
Qed.

(** X20. Registering and looking up.  After a successful
    [register_error_block] of [infos] at [first], in a registry in order,
    the code [first + k] is found in the new block with the [k]-th info,
    for every [k] below the number of infos, and every code that was found
    in a block before is found as before. *)
Theorem registered_block_is_found name first last_reserved infos
    registered registered' :
  registry_ok (blocks registered) ->
  (length (blocks registered) <= blocks_allocated registered)%nat ->
  Z.of_nat (length infos) <= last_reserved - first ->
  register_error_block name first last_reserved infos registered
    = (UDS_SUCCESS, registered') ->
  (forall k info,
      nth_error infos k = Some info ->
      first + Z.of_nat k <> 0 ->
      get_error_info (first + Z.of_nat k) registered'
      = (Some name, Some info))
  /\ (forall errnum,
        fst (get_error_info errnum registered) <> None ->
        get_error_info errnum registered'
        = get_error_info errnum registered).
Proof.
  intros Hok Hroom Hfit Hrun.
  destruct (register_error_block_adds _ _ _ _ _ _ Hok Hroom Hfit Hrun)
    as (Hok' & _ & b & Hblocks & Hname & Hbase & Hb & Hmax & Hinfos).
  split.
  - intros k info Hk Hnonzero.
    assert (Hlen : (k < length infos)%nat).
    { apply nth_error_Some. rewrite Hk. discriminate. }
    assert (Hin : In b (blocks registered')).
    { rewrite Hblocks. apply in_or_app. right. left. reflexivity. }
    assert (Hfound :
      get_error_info (first + Z.of_nat k) registered'
      = (Some (block_name b),
         if first + Z.of_nat k <? block_last b
         then nth_error (block_infos b)
                (Z.to_nat (first + Z.of_nat k - block_base b))
         else None)).
    { unfold get_error_info.
      destruct (Z.eqb_spec (first + Z.of_nat k) 0); [contradiction |].
      apply find_error_block_in; [exact Hok' | exact Hin | lia]. }
    rewrite Hfound, Hname, Hb, Hbase, Hinfos.
    destruct (Z.ltb_spec (first + Z.of_nat k)
                (first + Z.of_nat (length infos))); [| lia].
    replace (first + Z.of_nat k - first) with (Z.of_nat k) by lia.
    rewrite Nat2Z.id, Hk. reflexivity.
  - intros errnum Hfound. unfold get_error_info in *.
    destruct (errnum =? 0); [reflexivity |].
    rewrite Hblocks. apply find_error_block_app. exact Hfound.
Qed.

(** X21. A block whose name is in use, or whose reserved range meets the
    range of a registered block, is refused: [register_error_block], given
    a range that is not empty and a registry that is not full, returns
    [UDS_DUPLICATE_NAME] or [UDS_ALREADY_REGISTERED] and leaves the
    registry as it is. *)
Theorem register_error_block_refuses_overlap name first last_reserved infos
    registered b :
  first < last_reserved ->
  length (blocks registered) <> blocks_allocated registered ->
  In b (blocks registered) ->
  block_name b = name
  \/ (first < block_max b /\ block_base b < last_reserved) ->
  exists e,
    register_error_block name first last_reserved infos registered
      = (e, registered)
    /\ (e = UDS_DUPLICATE_NAME \/ e = UDS_ALREADY_REGISTERED).
Proof.
  intros Hrange Hfree Hin Hclash. unfold register_error_block.
  destruct (Z.ltb_spec first last_reserved) as [_ | Hge]; [| lia].
  simpl.
  destruct (Nat.eqb_spec (length (blocks registered)) (blocks_allocated registered))
    as [Hfull | _]; [contradiction |].
  destruct (check_error_blocks _ _ _ _) as [e |] eqn:Hcheck.
  - exists e. split; [reflexivity |].
    eapply check_error_blocks_some. exact Hcheck.
  - exfalso. apply check_error_blocks_none in Hcheck.
    rewrite Forall_forall in Hcheck.
    destruct (Hcheck b) as [Hapart Hname];
      [apply list_elem_of_In; exact Hin |].
    destruct Hclash as [E | [H1 H2]]; [contradiction | lia].
Qed.

(** * The size of an allocation *)

(** X22. [uds_do_allocation] never asks for a size that wrapped around:
    for a count, a size and an extra that are [size_t] values, it asks for
    [count * size + extra] bytes when that number is a [size_t], and for
    [SIZE_MAX] bytes, which no allocator can give, when it is not. *)
Theorem uds_do_allocation_never_wraps {A : Type} SIZE_MAX
    (allocate : Z -> A) count size extra :
  0 <= count <= SIZE_MAX ->
  0 <= size <= SIZE_MAX ->
  0 <= extra <= SIZE_MAX ->
  uds_do_allocation SIZE_MAX allocate count size extra
  = allocate (if count * size + extra <=? SIZE_MAX
              then count * size + extra
              else SIZE_MAX).
Proof.
  intros Hcount Hsize Hextra. unfold uds_do_allocation. f_equal.
  destruct (Z.ltb_spec 0 size) as [Hpos | Hzero]; simpl.
  - assert (Hdiv : (SIZE_MAX - extra) / size < count
                   <-> SIZE_MAX < count * size + extra).
    { split; intros H.
      - pose proof (Z.mul_succ_div_gt (SIZE_MAX - extra) size Hpos). nia.
      - apply Z.div_lt_upper_bound; [exact Hpos |]. lia. }
    destruct (Z.ltb_spec ((SIZE_MAX - extra) / size) count) as [Hover | Hfits];
      destruct (Z.leb_spec (count * size + extra) SIZE_MAX) as [Hle | Hgt];
      try reflexivity.
    + apply Hdiv in Hover. lia.
    + apply Z.mod_small. nia.
    + exfalso. apply Hdiv in Hgt. lia.
  - assert (size = 0) by lia. subst size.
    rewrite Z.mul_0_r, Z.add_0_l.
    destruct (Z.leb_spec extra SIZE_MAX); [| lia].
    apply Z.mod_small. lia.
Qed.

(** * The further properties on concrete inputs *)

Import MoreSamples.

(** Witness of X1: the replay of chapter 0 of a one-zone index. *)
Lemma replay_volume_writes_no_zone_witness :
  exists r index',
    replay_volume (replaying_index []) 0 = Some (r, index')
    /\ zones index' = zones (replaying_index []).
Proof.
  pose (replay := replay_volume (replaying_index []) 0).
  run_as Hrun replay.
  match type of Hrun with
  | _ = Some (?r, ?i) =>
      exists r, i; split; [exact Hrun |];
      exact (proj1 (replay_volume_writes_no_zone _ _ _ _ Hrun))
  end.
Defined.

(** Witness of X2: zone 0 of a two-zone index closes chapter 0. *)
Lemma chapter_close_moves_zones_by_one_witness :
  exists r index',
    open_next_chapter 2 0 None (fresh_index 2 64 UDS_SUCCESS)
      = Some (r, index')
    /\ length (zones index') = 2%nat.
Proof.
  destruct (chapter_close_moves_zones_by_one 2 0 None
              (fresh_index 2 64 UDS_SUCCESS) (empty_zone 64)
              eq_refl (le_n 2))
    as (r & index' & Hrun & _ & Hlength & _).
  exists r, index'. split; [exact Hrun | exact Hlength].
Defined.

(** Witness of X3: zone 0 has closed chapter 0 and is told again that
    chapter 0 was closed. *)
Lemma stale_announcement_ignored_witness :
  exists index',
    open_next_chapter 2 0 None (fresh_index 2 64 UDS_SUCCESS)
      = Some (UDS_SUCCESS, index')
    /\ dispatch_index_zone_control_request 2
         (message_request (announce_message 0) 0) index'
       = Some (UDS_SUCCESS, index').
Proof.
  pose (closing := open_next_chapter 2 0 None (fresh_index 2 64 UDS_SUCCESS)).
  run_as Hrun closing.
  match type of Hrun with
  | _ = Some (_, ?i) =>
      exists i; split; [exact Hrun |];
      exact (stale_announcement_ignored 2 2 0 None
               (fresh_index 2 64 UDS_SUCCESS) (empty_zone 64) _ _
               eq_refl Hrun eq_refl)
  end.
Defined.

(** Witness of X4: a QUERY for a name a new index does not hold. *)
Lemma query_without_update_reads_only_witness :
  exists r request' index',
    search_index_zone 2 1 (query 7 1) (fresh_index 2 64 UDS_SUCCESS)
      = Some (r, request', index')
    /\ volume_index index' = volume_index (fresh_index 2 64 UDS_SUCCESS)
    /\ zones index' = zones (fresh_index 2 64 UDS_SUCCESS).
Proof.
  pose (searching :=
          search_index_zone 2 1 (query 7 1) (fresh_index 2 64 UDS_SUCCESS)).
  run_as Hrun searching.
  match type of Hrun with
  | _ = Some (?r, ?q, ?i) =>
      exists r, q, i; split; [exact Hrun |];
      exact (query_without_update_reads_only 2 1 (query 7 1)
               (fresh_index 2 64 UDS_SUCCESS) r q i eq_refl eq_refl Hrun)
  end.
Defined.

(** Witness of X5: the DELETE of a name a new index does not hold. *)
Lemma delete_of_absent_name_witness :
  dispatch_index_request 2 true (delete 7 1) (fresh_index 2 64 UDS_SUCCESS)
  = Some (UDS_SUCCESS,
          set_location UDS_LOCATION_UNAVAILABLE (delete 7 1),
          fresh_index 2 64 UDS_SUCCESS)
  /\ found (handle_callbacks
              (set_location UDS_LOCATION_UNAVAILABLE (delete 7 1))) = false.
Proof.
  destruct (delete_of_absent_name 2 true (delete 7 1)
              (fresh_index 2 64 UDS_SUCCESS) (fresh_index 2 64 UDS_SUCCESS)
              _ eq_refl eq_refl eq_refl eq_refl) as [Hrun Hfound].
  split; [exact Hrun | exact (Hfound eq_refl)].
Defined.

(** Witness of X6: a save on a store that refuses it. *)
Lemma failed_save_is_undone_witness :
  exists index',
    save_index FullDisk.unsaved_index = (UDS_OTHER_ERROR 28, index')
    /\ last_save index' = 1
    /\ need_to_save index' = true.
Proof.
  eexists. split; [reflexivity |].
  assert (Hfail : UDS_OTHER_ERROR 28 <> UDS_SUCCESS) by discriminate.
  destruct (failed_save_is_undone FullDisk.unsaved_index _ _ eq_refl Hfail)
    as (_ & Hlast & _ & Hneed & _).
  split; [exact Hlast | exact Hneed].
Defined.

(** Witness of X7: the save of an index in its fourth chapter. *)
Lemma save_index_twice_witness :
  exists index',
    save_index
      (with_active_chapters 0 3 (fresh_index 1 64 UDS_SUCCESS))
      = (UDS_SUCCESS, index')
    /\ save_index index' = (UDS_SUCCESS, index')
    /\ last_save index' = 2.
Proof.
  eexists. split; [reflexivity |].
  destruct (save_index_twice
              (with_active_chapters 0 3 (fresh_index 1 64 UDS_SUCCESS))
              _ eq_refl) as (_ & Hagain & Hsaved).
  split; [exact Hagain |].
  exact (proj1 (Hsaved eq_refl)).
Defined.

(** Witness of X8: an index created over an empty volume. *)
Lemma make_index_marks_what_it_did_witness :
  exists index,
    make_index LOAD_CREATE (allocated_index quiet_volume)
      = Some (UDS_SUCCESS, index)
    /\ loaded_type index = LOAD_CREATE
    /\ need_to_save index = true.
Proof.
  pose (making := make_index LOAD_CREATE (allocated_index quiet_volume)).
  run_as Hrun making.
  match type of Hrun with
  | _ = Some (_, ?i) =>
      exists i; split; [exact Hrun |];
      destruct (make_index_marks_what_it_did LOAD_CREATE
                  (allocated_index quiet_volume) i Hrun)
        as (Hcreated & Hneed & _);
      split; [exact Hcreated | exact Hneed]
  end.
Defined.

(** Witness of X9: a scan that reports the 18 chapters 3 to 20 of a volume
    of 8 chapters. *)
Lemma rebuild_index_refuses_bad_boundaries_witness :
  exists index',
    rebuild_index (allocated_index (scanned_volume 3 20 false))
      = Some (UDS_CORRUPT_COMPONENT, index').
Proof.
  assert (Hlo : 0 <= 3) by lia.
  assert (Hhi : 20 < UINT64_MAX) by (unfold UINT64_MAX; lia).
  assert (Hcpv : Z.of_nat 8 <= UINT64_MAX) by (unfold UINT64_MAX; lia).
  assert (Hwide : 20 < 3 \/ (false = false /\ Z.of_nat 8 < 20 + 1 - 3))
    by (right; split; [reflexivity | lia]).
  destruct (rebuild_index_refuses_bad_boundaries
              (allocated_index (scanned_volume 3 20 false)) 3 20 false
              (scanned_volume 3 20 false) eq_refl Hlo Hhi Hcpv Hwide)
    as (index' & Hrun & _).
  exists index'. exact Hrun.
Defined.

(** Witness of X10: the POST of a new name. *)
Lemma dispatch_keeps_settings_witness :
  exists r request' index',
    dispatch_index_request 2 false (post 7 100 1)
      (fresh_index 2 64 UDS_SUCCESS) = Some (r, request', index')
    /\ need_to_save index' = need_to_save (fresh_index 2 64 UDS_SUCCESS)
    /\ index_newest_virtual_chapter index' = 0.
Proof.
  pose (dispatching :=
          dispatch_index_request 2 false (post 7 100 1)
            (fresh_index 2 64 UDS_SUCCESS)).
  run_as Hrun dispatching.
  match type of Hrun with
  | _ = Some (?r, ?q, ?i) =>
      exists r, q, i; split; [exact Hrun |];
      destruct (dispatch_keeps_settings _ _ _ _ _ _ _ Hrun)
        as (_ & Hnewest & _ & _ & _ & _ & _ & Hneed & _);
      split; [exact Hneed | exact Hnewest]
  end.
Defined.


(** Witness of X12: a router with no triage queue over a new index. *)
Lemma select_index_router_queue_agrees_witness :
  select_index_router_queue sample_router (post 7 100 0) STAGE_TRIAGE
  = select_index_queue (fresh_index 2 64 UDS_SUCCESS) (post 7 100 0)
      STAGE_TRIAGE.
Proof.
  apply select_index_router_queue_agrees; [reflexivity |].
  split; intros _; reflexivity.
Defined.

Lemma sample_flags_are_bits : flags_are_bits.
Proof.
  split.
  - intros f. destruct f; simpl; lia.
  - intros f g. destruct f, g; simpl; intros E;
      first [reflexivity | discriminate E].
Qed.

(** Witness of X13: a loaded session that was disabled. *)
Lemma disabled_session_refuses_witness :
  check_index_session (session_in 5 None []) = UDS_DISABLED
  /\ fst (get_index_session (session_in 5 None [])) = UDS_DISABLED.
Proof.
  destruct (disabled_session_refuses sample_flags_are_bits
              (session_in 5 None []) eq_refl) as (Hcheck & Hget & _).
  split; [exact Hcheck | exact Hget].
Defined.

(** Witness of X14: a request on a loaded session. *)
Lemma get_index_session_admits_when_loaded_witness :
  exists s',
    get_index_session (session_in 1 None []) = (UDS_SUCCESS, s')
    /\ request_count s' = 1.
Proof.
  assert (Hcount : 0 <= request_count (session_in 1 None [])
                   < REQUEST_COUNT_MODULUS) by (simpl; lia).
  destruct (get_index_session_admits_when_loaded (session_in 1 None [])
              Hcount) as (s' & Hrun & _ & _ & _ & Hn).
  exists s'. split; [exact Hrun | exact Hn].
Defined.

(** Witness of X15: a new session. *)
Lemma loading_session_lifecycle_witness :
  start_loading_index_session (session_in 0 None [])
    = (UDS_SUCCESS, set_flag IS_LOADING (session_in 0 None []))
  /\ check_index_session
       (finish_loading_index_session
          (set_flag IS_LOADING (session_in 0 None [])) UDS_SUCCESS)
     = UDS_SUCCESS.
Proof.
  destruct (loading_session_lifecycle sample_flags_are_bits
              (session_in 0 None []) eq_refl)
    as (Hstart & _ & _ & _ & Hloaded & _).
  split; [exact Hstart | exact Hloaded].
Defined.

(** Witness of X16: a loaded session with no index in memory. *)
Lemma suspend_then_resume_witness :
  uds_suspend_index_session false (session_in 1 None [])
    = Some (UDS_SUCCESS, set_flag IS_SUSPENDED (session_in 1 None []))
  /\ uds_resume_index_session (set_flag IS_SUSPENDED (session_in 1 None []))
     = (UDS_SUCCESS, session_in 1 None []).
Proof.
  assert (Hcount : request_count (session_in 1 None []) <= 0)
    by (simpl; lia).
  destruct (suspend_then_resume sample_flags_are_bits (session_in 1 None [])
              eq_refl eq_refl eq_refl eq_refl eq_refl Hcount)
    as (Hsuspend & _ & _ & Hresume).
  split; [exact Hsuspend | exact Hresume].
Defined.

(** Witness of X17: the close of a loaded session that holds an index. *)
Lemma close_index_resets_session_witness :
  exists s',
    uds_close_index
      (session_in 1 (Some (fresh_index 1 64 UDS_SUCCESS)) [])
      = Some (UDS_SUCCESS, s')
    /\ state s' = 0
    /\ check_index_session s' = UDS_NO_INDEX.
Proof.
  assert (Hcount :
    request_count (session_in 1 (Some (fresh_index 1 64 UDS_SUCCESS)) [])
    <= 0) by (simpl; lia).
  destruct (close_index_resets_session sample_flags_are_bits
              (session_in 1 (Some (fresh_index 1 64 UDS_SUCCESS)) [])
              eq_refl eq_refl) as (_ & _ & Hclose).
  destruct (Hclose (fresh_index 1 64 UDS_SUCCESS)
              eq_refl eq_refl eq_refl Hcount eq_refl)
    as (s' & Hrun & Hstate & _ & _ & Hcheck & _).
  exists s'. split; [exact Hrun |]. split; [exact Hstate | exact Hcheck].
Defined.

(** Witness of X23: a loading session whose replay parks when it is
    asked to. *)
Lemma suspend_then_resume_while_loading_witness :
  exists suspended resumed,
    uds_suspend_index_session false (session_in 2 None [INDEX_SUSPENDED])
      = Some (UDS_SUCCESS, suspended)
    /\ uds_resume_index_session suspended = (UDS_SUCCESS, resumed)
    /\ state resumed = 2
    /\ load_status (session_load_context resumed) = INDEX_OPENING.
Proof.
  destruct (suspend_then_resume_while_loading sample_flags_are_bits false
              (session_in 2 None [INDEX_SUSPENDED])
              {| load_status := INDEX_SUSPENDED; load_wakeups := [] |}
              eq_refl eq_refl eq_refl eq_refl eq_refl eq_refl eq_refl
              eq_refl)
    as (suspended & resumed & Hsuspend & _ & _ & Hresume & Hstate & Hctx).
  exists suspended, resumed.
  split; [exact Hsuspend |]. split; [exact Hresume |].
  split; [exact Hstate | exact Hctx].
Defined.

Lemma two_blocks_ok : registry_ok (blocks two_blocks).
Proof.
  simpl. unfold block_ok, blocks_apart. simpl.
  repeat split; try lia; repeat constructor; simpl; try lia; discriminate.
Qed.

(** Witness of X18: a third block after the two of errors.c. *)
Lemma register_error_block_keeps_registry_witness :
  exists registered',
    register_error_block (block_name (block 2 0 0 0 [])) 4096 5120 [info 3]
      two_blocks = (UDS_SUCCESS, registered')
    /\ registry_ok (blocks registered')
    /\ length (blocks registered') = 3%nat.
Proof.
  eexists. split; [reflexivity |].
  assert (Hroom : (length (blocks two_blocks) <= blocks_allocated two_blocks)%nat)
    by (simpl; lia).
  assert (Hfit : Z.of_nat (length [info 3]) <= 5120 - 4096) by (simpl; lia).
  destruct (register_error_block_keeps_registry
              (block_name (block 2 0 0 0 [])) 4096 5120 [info 3]
              two_blocks _ two_blocks_ok Hroom Hfit eq_refl)
    as (Hok & _ & _).
  split; [exact Hok | reflexivity].
Defined.

(** Witness of X19: the second code of the first block. *)
Lemma get_error_info_finds_block_witness :
  get_error_info 1025 two_blocks
  = (Some (block_name (block 0 0 0 0 [])), Some (info 1)).
Proof.
  assert (Hin : In (block 0 1024 1026 2048 [info 0; info 1])
                  (blocks two_blocks)) by (left; reflexivity).
  assert (Hrange : 1024 <= 1025 < 2048) by lia.
  assert (Hnonzero : 1025 <> 0) by lia.
  exact (proj1 (get_error_info_finds_block 1025 two_blocks _
                  two_blocks_ok Hin Hrange Hnonzero)).
Defined.

(** Witness of X20: the code of the only info of a third block. *)
Lemma registered_block_is_found_witness :
  exists registered',
    register_error_block (block_name (block 2 0 0 0 [])) 4096 5120 [info 3]
      two_blocks = (UDS_SUCCESS, registered')
    /\ get_error_info 4096 registered'
       = (Some (block_name (block 2 0 0 0 [])), Some (info 3))
    /\ get_error_info 1025 registered' = get_error_info 1025 two_blocks.
Proof.
  eexists. split; [reflexivity |].
  assert (Hroom : (length (blocks two_blocks) <= blocks_allocated two_blocks)%nat)
    by (simpl; lia).
  assert (Hfit : Z.of_nat (length [info 3]) <= 5120 - 4096) by (simpl; lia).
  destruct (registered_block_is_found
              (block_name (block 2 0 0 0 [])) 4096 5120 [info 3]
              two_blocks _ two_blocks_ok Hroom Hfit eq_refl)
    as [Hnew Hold].
  split.
  - assert (Hnonzero : 4096 + Z.of_nat 0 <> 0) by (simpl; lia).
    exact (Hnew 0%nat (info 3) eq_refl Hnonzero).
  - apply Hold. simpl. discriminate.
Defined.

(** Witness of X21: a block whose range starts inside the first block. *)
Lemma register_error_block_refuses_overlap_witness :
  exists e,
    register_error_block (block_name (block 2 0 0 0 [])) 2000 3000 [info 3]
      two_blocks = (e, two_blocks)
    /\ (e = UDS_DUPLICATE_NAME \/ e = UDS_ALREADY_REGISTERED).
Proof.
  assert (Hrange : 2000 < 3000) by lia.
  assert (Hfree : length (blocks two_blocks) <> blocks_allocated two_blocks)
    by (simpl; lia).
  assert (Hin : In (block 0 1024 1026 2048 [info 0; info 1])
                  (blocks two_blocks)) by (left; reflexivity).
  apply (register_error_block_refuses_overlap _ 2000 3000 [info 3]
           two_blocks _ Hrange Hfree Hin).
  right. simpl. lia.
Defined.

(** Witness of X22: half of the address space, twice, on a 64-bit
    machine. *)
Lemma uds_do_allocation_never_wraps_witness :
  uds_do_allocation (2 ^ 64 - 1) (fun n => n) (2 ^ 63) 2 0 = 2 ^ 64 - 1.
Proof.
  assert (Hcount : 0 <= 2 ^ 63 <= 2 ^ 64 - 1) by lia.
  assert (Hsize : 0 <= 2 <= 2 ^ 64 - 1) by lia.
  assert (Hextra : 0 <= 0 <= 2 ^ 64 - 1) by lia.
  exact (uds_do_allocation_never_wraps (2 ^ 64 - 1) (fun n => n)
           (2 ^ 63) 2 0 Hcount Hsize Hextra).
Defined.

(** Witness of X24: a record of a chapter that will be sparse, under a
    name that is not a sample. *)
Lemma replay_record_reads_volume_for_moved_hints_only_witness :
  replay_record (fresh_index 2 64 UDS_SUCCESS) 7 0 true
  = (UDS_SUCCESS, fresh_index 2 64 UDS_SUCCESS).
Proof.
  destruct (replay_record_reads_volume_for_moved_hints_only
              (fresh_index 2 64 UDS_SUCCESS) 7 0 true _ eq_refl)
    as [Hskipped _].
  exact (Hskipped eq_refl).
Defined.

(** Witness of X25: the name 7 posted a second time. *)
Lemma found_in_open_chapter_writes_nothing_witness :
  exists index1,
    search_index_zone 2 1 (post 7 100 1) (fresh_index 2 64 UDS_SUCCESS)
      = Some (UDS_SUCCESS, post 7 100 1, index1)
    /\ search_index_zone 2 1 (post 7 100 1) index1
       = Some (UDS_SUCCESS,
               set_location UDS_LOCATION_IN_OPEN_CHAPTER
                 (set_old_metadata 100 (post 7 100 1)),
               index1).
Proof.
  pose (posting :=
          search_index_zone 2 1 (post 7 100 1) (fresh_index 2 64 UDS_SUCCESS)).
  run_as Hrun posting.
  match type of Hrun with
  | _ = Some (_, _, ?i) =>
      exists i; split; [exact Hrun |];
      exact (found_in_open_chapter_writes_nothing 2 1 (post 7 100 1) i _ _ 100
               (or_introl eq_refl) eq_refl eq_refl eq_refl eq_refl eq_refl)
  end.
Defined.
